(** * Ubuntu Auto-Update Dashboard: the report store and its three handlers

    A shallow embedding of [dashboard/app.py]: the ingestion handler
    [ingest_report], the JSON listing [list_reports] and the HTML view
    [index], over an explicit model of the [reports] table.

    Python values are modelled as the interpreter has them: a [str] is a
    sequence of Unicode code points, an [int] is unbounded, a [float] is a
    binary64 value, a [dict] keeps its insertion order.  The handlers run in
    a small state-and-exception monad whose state is the table. *)

From Stdlib Require Import String Ascii.
From Stdlib Require Import ZArith NArith List Bool Lia.
From Stdlib Require Import Permutation Sorted DecimalPos.
Import ListNotations.

Set Implicit Arguments.
Set Warnings "-register-all".
Open Scope Z_scope.

(* ================================================================= *)
(** ** Python strings *)

(** A Python [str]: the list of its code points. *)
Definition pystr := list N.

(** The code points of an ASCII literal of the source. *)
Definition lit (s : string) : pystr :=
  map N_of_ascii (list_ascii_of_string s).

Definition pystr_eq_dec : forall s t : pystr, {s = t} + {s <> t} :=
  list_eq_dec N.eq_dec.

Definition pystr_eqb (s t : pystr) : bool :=
  if pystr_eq_dec s t then true else false.

(** [sep.join(parts)] *)
Fixpoint join (sep : pystr) (parts : list pystr) : pystr :=
  match parts with
  | [] => []
  | [p] => p
  | p :: ps => p ++ sep ++ join sep ps
  end.

(** [s[:n]] for a non-negative literal [n] *)
Definition slice_to (n : nat) (s : pystr) : pystr := firstn n s.

(** Binary collation of SQLite ([memcmp] on the UTF-8 encodings), which
    on code point sequences is the lexicographic order. *)
Fixpoint str_compare (s t : pystr) : comparison :=
  match s, t with
  | [], [] => Eq
  | [], _ :: _ => Lt
  | _ :: _, [] => Gt
  | a :: s', b :: t' =>
      match N.compare a b with
      | Eq => str_compare s' t'
      | c => c
      end
  end.

(* ================================================================= *)
(** ** Python floats *)

(** A binary64 value: signed zero, signed infinity, NaN, or
    [(-1)^s * m * 2^e]. *)
Inductive pyfloat : Type :=
| FZero (s : bool)
| FInf (s : bool)
| FNaN
| FFinite (s : bool) (m : positive) (e : Z).

(** [f == n] for a float and an int: Python compares the exact values. *)
Definition float_eq_int (f : pyfloat) (n : Z) : bool :=
  match f with
  | FZero _ => Z.eqb n 0
  | FInf _ | FNaN => false
  | FFinite s m e =>
      let sg := if s then (-1) else 1 in
      if 0 <=? e then Z.eqb (sg * (Zpos m * 2 ^ e)) n
      else Z.eqb (sg * Zpos m) (n * 2 ^ (- e))
  end.

Definition float_is_nan (f : pyfloat) : bool :=
  match f with FNaN => true | _ => false end.

(** The float [1.0] in its binary64 form. *)
Definition float_one : pyfloat := FFinite false 4503599627370496 (-52).

(* ================================================================= *)
(** ** Decoded JSON values *)

(** What [request.json()] yields: [None], [bool], [int], [float], [str],
    [list], and [dict] with [str] keys in insertion order. *)
Inductive json : Type :=
| JNull
| JBool (b : bool)
| JInt (n : Z)
| JFloat (f : pyfloat)
| JStr (s : pystr)
| JList (l : list json)
| JDict (d : list (pystr * json)).

(** Exceptions of the runtime that the handlers can meet. *)
Inductive exn : Type :=
| TypeError
| ValueError
| OverflowError
| KeyError
| AttributeError
| UnicodeEncodeError
| OperationalError.

(** [k in d] on the items of a dict *)
Definition dict_mem (k : pystr) (d : list (pystr * json)) : bool :=
  existsb (fun kv => pystr_eqb (fst kv) k) d.

(** [d.get(k)]: the value, or [None] *)
Fixpoint dict_get (k : pystr) (d : list (pystr * json)) : json :=
  match d with
  | [] => JNull
  | (k', v) :: d' => if pystr_eqb k' k then v else dict_get k d'
  end.

(** [d[k]] for a key known to be present is [d.get(k)]; an absent key
    raises [KeyError], which the handler never reaches: the required keys
    are checked first. *)
Fixpoint dict_lookup (k : pystr) (d : list (pystr * json)) : option json :=
  match d with
  | [] => None
  | (k', v) :: d' => if pystr_eqb k' k then Some v else dict_lookup k d'
  end.

(** [f == g] on floats: IEEE equality of the values. *)
Definition float_eq (f g : pyfloat) : bool :=
  match f, g with
  | FZero _, FZero _ => true
  | FInf s, FInf t => Bool.eqb s t
  | FFinite s m e, FFinite t n d =>
      Bool.eqb s t &&
      (if e <=? d then Z.eqb (Zpos m) (Zpos n * 2 ^ (d - e))
       else Z.eqb (Zpos m * 2 ^ (e - d)) (Zpos n))
  | _, _ => false
  end.

(** The one NaN of the decoder: [json.loads] gives the same object
    [json.decoder.NaN] for every [NaN] of a text, so two NaNs of decoded
    values are identical objects. *)
Definition both_nan (v w : json) : bool :=
  match v, w with
  | JFloat FNaN, JFloat FNaN => true
  | _, _ => false
  end.

(** Python's [==] on decoded JSON values: [bool], [int] and [float]
    compare by numeric value ([True == 1 == 1.0]) and a NaN equals
    nothing, itself included; lists compare item by item and dicts by key
    set and values, where two items are equal when they are the same
    object or [==] holds, so an item that is the NaN of the decoder equals
    itself. *)
Fixpoint py_eq (v w : json) {struct v} : bool :=
  match v, w with
  | JNull, JNull => true
  | JBool a, JBool b => Bool.eqb a b
  | JBool a, JInt n => Z.eqb (Z.b2z a) n
  | JBool a, JFloat f => float_eq_int f (Z.b2z a)
  | JInt n, JBool b => Z.eqb n (Z.b2z b)
  | JInt n, JInt m => Z.eqb n m
  | JInt n, JFloat f => float_eq_int f n
  | JFloat f, JBool b => float_eq_int f (Z.b2z b)
  | JFloat f, JInt n => float_eq_int f n
  | JFloat f, JFloat g => float_eq f g
  | JStr s, JStr t => pystr_eqb s t
  | JList l, JList l' =>
      (fix eq_items (xs ys : list json) {struct xs} : bool :=
         match xs, ys with
         | [], [] => true
         | x :: xs', y :: ys' =>
             (both_nan x y || py_eq x y) && eq_items xs' ys'
         | _, _ => false
         end) l l'
  | JDict d, JDict d' =>
      Nat.eqb (length d) (length d') &&
      (fix eq_entries (kvs : list (pystr * json)) {struct kvs} : bool :=
         match kvs with
         | [] => true
         | (k, x) :: kvs' =>
             match dict_lookup k d' with
             | Some y => both_nan x y || py_eq x y
             | None => false
             end && eq_entries kvs'
         end) d
  | _, _ => false
  end.

(** [v in t] for a tuple or list [t]: some member is [v] itself or
    equals it. *)
Definition py_in (v : json) (t : list json) : bool :=
  existsb (fun x => both_nan v x || py_eq v x) t.

(** [1 if (v in (True, 1, "true", "True")) else 0] *)
Definition reboot_flag (v : json) : Z :=
  if py_in v [JBool true; JInt 1; JStr (lit "true"); JStr (lit "True")]
  then 1 else 0.

(* ================================================================= *)
(** ** Builtins of the interpreter and of SQLite *)

(** The leaf functions of the host libraries that the source calls and
    whose text formats are fixed outside this repository.  The handlers
    are defined over any implementation of them. *)
Class Builtins : Type := {
  (** [float.__repr__], also what [str] gives on a float *)
  float_repr : pyfloat -> pystr;
  (** [str.__repr__], used by [str] on a list or a dict *)
  str_repr : pystr -> pystr;
  (** [int(s)] on a str; [None] when it raises [ValueError] *)
  int_of_str : pystr -> option Z;
  (** [float(s)] on a number token of a JSON text *)
  float_of_str : pystr -> pyfloat;
  (** SQLite's [datetime(X)]: the normalised text, or NULL *)
  sqlite_datetime : pystr -> option pystr
}.

(** The decimal digits of a number, most significant first. *)
Fixpoint digits_of_uint (d : Decimal.uint) : pystr :=
  match d with
  | Decimal.Nil => []
  | Decimal.D0 d' => 48%N :: digits_of_uint d'
  | Decimal.D1 d' => 49%N :: digits_of_uint d'
  | Decimal.D2 d' => 50%N :: digits_of_uint d'
  | Decimal.D3 d' => 51%N :: digits_of_uint d'
  | Decimal.D4 d' => 52%N :: digits_of_uint d'
  | Decimal.D5 d' => 53%N :: digits_of_uint d'
  | Decimal.D6 d' => 54%N :: digits_of_uint d'
  | Decimal.D7 d' => 55%N :: digits_of_uint d'
  | Decimal.D8 d' => 56%N :: digits_of_uint d'
  | Decimal.D9 d' => 57%N :: digits_of_uint d'
  end.

(** [int.__repr__]: decimal, a minus sign for negatives.  (The
    interpreter refuses to convert an int of more than 4300 digits; the
    decoder refuses such a number as well, so no decoded value holds
    one.) *)
Definition int_repr (n : Z) : pystr :=
  match n with
  | Z0 => lit "0"
  | Zpos p => digits_of_uint (Pos.to_uint p)
  | Zneg p => lit "-" ++ digits_of_uint (Pos.to_uint p)
  end.

(** The value of a computation that may raise. *)
Inductive result (E A : Type) : Type :=
| Ok (a : A)
| Raise (e : E).
Arguments Ok {E A} a.
Arguments Raise {E A} e.

Definition rbind {E A B} (r : result E A) (k : A -> result E B) : result E B :=
  match r with
  | Ok a => k a
  | Raise e => Raise e
  end.

Declare Scope result_scope.
Delimit Scope result_scope with result.
Notation "x <- r ;; k" := (rbind r (fun x => k))
  (at level 61, r at next level, right associativity) : result_scope.

(** [int(f)] on a float: truncation toward zero; an infinity raises
    [OverflowError] and a NaN [ValueError]. *)
Definition float_trunc (f : pyfloat) : result exn Z :=
  match f with
  | FZero _ => Ok 0
  | FInf _ => Raise OverflowError
  | FNaN => Raise ValueError
  | FFinite s m e =>
      let a := if 0 <=? e then Zpos m * 2 ^ e else Zpos m / 2 ^ (- e) in
      Ok (if s then - a else a)
  end.

Section Coercions.
Context {B : Builtins}.

(** [repr(v)] of a decoded JSON value. *)
Fixpoint py_repr (v : json) : pystr :=
  match v with
  | JNull => lit "None"
  | JBool true => lit "True"
  | JBool false => lit "False"
  | JInt n => int_repr n
  | JFloat f => float_repr f
  | JStr s => str_repr s
  | JList l => lit "[" ++ join (lit ", ") (map py_repr l) ++ lit "]"
  | JDict d =>
      lit "{" ++
      join (lit ", ")
        (map (fun kv : pystr * json =>
                let (k, x) := kv in str_repr k ++ lit ": " ++ py_repr x) d)
      ++ lit "}"
  end.

(** [str(v)]: the string itself for a str, [repr(v)] otherwise. *)
Definition py_str (v : json) : pystr :=
  match v with
  | JStr s => s
  | _ => py_repr v
  end.

(** [int(v)] *)
Definition py_int (v : json) : result exn Z :=
  match v with
  | JNull => Raise TypeError
  | JBool b => Ok (Z.b2z b)
  | JInt n => Ok n
  | JFloat f => float_trunc f
  | JStr s =>
      match int_of_str s with
      | Some n => Ok n
      | None => Raise ValueError
      end
  | JList _ | JDict _ => Raise TypeError
  end.
End Coercions.

(* ================================================================= *)
(** ** [json.dumps(data, ensure_ascii=False)] *)

Definition hex_digit (n : N) : N :=
  if (n <? 10)%N then (48 + n)%N else (87 + n)%N.

(** The escapes of the encoder: the quote, the backslash and the control
    characters below U+0020; every other code point is written as it is. *)
Definition escape_char (c : N) : pystr :=
  if (c =? 34)%N then lit "\"%string ++ [34%N]
  else if (c =? 92)%N then [92%N; 92%N]
  else if (c =? 8)%N then [92%N; 98%N]
  else if (c =? 12)%N then [92%N; 102%N]
  else if (c =? 10)%N then [92%N; 110%N]
  else if (c =? 13)%N then [92%N; 114%N]
  else if (c =? 9)%N then [92%N; 116%N]
  else if (c <? 32)%N then
    [92%N; 117%N; 48%N; 48%N; hex_digit (c / 16); hex_digit (c mod 16)]
  else [c].

Definition encode_basestring (s : pystr) : pystr :=
  [34%N] ++ flat_map escape_char s ++ [34%N].

Section Dumps.
Context {B : Builtins}.

(** [float]s: the three non-finite spellings, else [float.__repr__]. *)
Definition floatstr (f : pyfloat) : pystr :=
  match f with
  | FNaN => lit "NaN"
  | FInf false => lit "Infinity"
  | FInf true => lit "-Infinity"
  | _ => float_repr f
  end.

(** The default separators are [", "] and [": "]. *)
Fixpoint json_dumps (v : json) : pystr :=
  match v with
  | JNull => lit "null"
  | JBool true => lit "true"
  | JBool false => lit "false"
  | JInt n => int_repr n
  | JFloat f => floatstr f
  | JStr s => encode_basestring s
  | JList l => lit "[" ++ join (lit ", ") (map json_dumps l) ++ lit "]"
  | JDict d =>
      lit "{" ++
      join (lit ", ")
        (map (fun kv : pystr * json =>
                let (k, x) := kv in
                encode_basestring k ++ lit ": " ++ json_dumps x) d)
      ++ lit "}"
  end.
End Dumps.

(* ================================================================= *)
(** ** The [reports] table *)

(** The eight values bound by the [INSERT] statement. *)
Record columns : Type := mkColumns {
  server : pystr;
  status : pystr;
  exit_code : Z;
  duration_seconds : Z;
  reboot_required : Z;
  timestamp : pystr;
  raw : pystr;
  ip : option pystr
}.

(** A row: the columns of [CREATE TABLE reports], [id] first. *)
Record report : Type := mkReport {
  id : Z;
  cols : columns
}.

(** The table in insertion order, with the counter that
    [AUTOINCREMENT] keeps of the largest row id ever used. *)
Record table : Type := mkTable {
  rows : list report;
  seq : Z
}.

(** [CREATE TABLE IF NOT EXISTS]: a fresh file gets the empty table, an
    existing table is left as it is. *)
Definition init_db (file : option table) : table :=
  match file with
  | Some t => t
  | None => mkTable [] 0
  end.

Definition max_rowid (rs : list report) : Z :=
  fold_right (fun r m => Z.max (id r) m) 0 rs.

Definition int64_max : Z := 9223372036854775807.
Definition int64_min : Z := -9223372036854775808.

Definition is_surrogate (c : N) : bool :=
  ((55296 <=? c) && (c <=? 57343))%N.

(** Binding a [str] parameter encodes it as UTF-8, which a lone
    surrogate makes fail. *)
Definition bind_text (s : pystr) : result exn unit :=
  if existsb is_surrogate s then Raise UnicodeEncodeError else Ok tt.

(** Binding an [int] parameter needs it to fit 64 signed bits. *)
Definition bind_int (n : Z) : result exn unit :=
  if (int64_min <=? n) && (n <=? int64_max) then Ok tt
  else Raise OverflowError.

Definition bind_opt_text (o : option pystr) : result exn unit :=
  match o with
  | Some s => bind_text s
  | None => Ok tt
  end.

Open Scope result_scope.

(** The parameters are bound in the order of the tuple. *)
Definition bind_columns (c : columns) : result exn unit :=
  _ <- bind_text (server c) ;;
  _ <- bind_text (status c) ;;
  _ <- bind_int (exit_code c) ;;
  _ <- bind_int (duration_seconds c) ;;
  _ <- bind_int (reboot_required c) ;;
  _ <- bind_text (timestamp c) ;;
  _ <- bind_text (raw c) ;;
  bind_opt_text (ip c).

(** [INSERT INTO reports(...) VALUES (?,?,?,?,?,?,?,?)]: the new row gets
    an id one above every id used so far and goes after the others; a
    statement that fails leaves the table as it was.  The values are
    stored as they are bound: the text columns keep text, and [raw], whose
    declared type [JSON] would turn a text that reads as a number into
    that number, holds the text of a dict, which opens with a brace. *)
Definition sql_insert (c : columns) (t : table) : result exn unit * table :=
  match bind_columns c with
  | Raise e => (Raise e, t)
  | Ok _ =>
      let last := Z.max (seq t) (max_rowid (rows t)) in
      if int64_max <=? last then (Raise OperationalError, t)
      else (Ok tt, mkTable (rows t ++ [mkReport (last + 1) c]) (last + 1))
  end.

(* ================================================================= *)
(** ** The handler monad *)

(** A request ends in a response of the handler's own or in a failure:
    an [HTTPException] with its status and detail, or an exception that
    nothing catches, which the framework turns into status 500. *)
Inductive detail : Type :=
| Text (s : pystr)
| ValidationError (e : exn).   (* f"Validation error: {e}" *)

Inductive failure : Type :=
| HTTPException (status_code : Z) (d : detail)
| Unhandled (e : exn).

(** A handler reads and writes the table and may fail. *)
Definition handler (A : Type) : Type := table -> result failure A * table.

Definition ret {A} (a : A) : handler A := fun t => (Ok a, t).

Definition fail {A} (f : failure) : handler A := fun t => (Raise f, t).

Definition hbind {A B} (m : handler A) (k : A -> handler B) : handler B :=
  fun t =>
    match m t with
    | (Ok a, t') => k a t'
    | (Raise f, t') => (Raise f, t')
    end.

(** A computation of the handler's own, whose failure is an
    [HTTPException] already. *)
Definition lift {A} (r : result failure A) : handler A := fun t => (r, t).

(** A computation outside any [try]: its exception is not caught. *)
Definition uncaught {A} (r : result exn A) : handler A :=
  fun t =>
    match r with
    | Ok a => (Ok a, t)
    | Raise e => (Raise (Unhandled e), t)
    end.

(** [try: ... except Exception as e: raise h(e)] *)
Definition try_except {A} (r : result exn A) (h : exn -> failure) : handler A :=
  fun t =>
    match r with
    | Ok a => (Ok a, t)
    | Raise e => (Raise (h e), t)
    end.

(** A statement on the connection; its exception is not caught. *)
Definition execute {A} (stmt : table -> result exn A * table) : handler A :=
  fun t =>
    match stmt t with
    | (Ok a, t') => (Ok a, t')
    | (Raise e, t') => (Raise (Unhandled e), t')
    end.

Declare Scope handler_scope.
Delimit Scope handler_scope with handler.
Notation "x <- m ;; k" := (hbind m (fun x => k))
  (at level 61, m at next level, right associativity) : handler_scope.

(** The status line of what the client receives. *)
Definition status_of {A} (ok : Z) (r : result failure A) : Z :=
  match r with
  | Ok _ => ok
  | Raise (HTTPException s _) => s
  | Raise (Unhandled _) => 500
  end.

(* ================================================================= *)
(** ** [POST /api/v1/reports] *)

(** The parts of the request that the handler reads. *)
Record request : Type := mkRequest {
  (** [await request.json()], [None] when it raises *)
  json_body : option json;
  (** the [x_api_key] header *)
  x_api_key : option pystr;
  (** [request.client.host], [None] without a client *)
  client_host : option pystr
}.

(** [not s] for an optional str: [None] and the empty string are false. *)
Definition truthy (o : option pystr) : bool :=
  match o with
  | Some (_ :: _) => true
  | _ => false
  end.

(** [h == k] for an optional header and a str: [None] equals no str. *)
Definition header_eqb (h : option pystr) (k : pystr) : bool :=
  match h with
  | Some s => pystr_eqb s k
  | None => false
  end.

Definition _require_api_key (API_KEY : pystr) (header_key : option pystr)
  : result failure unit :=
  if negb (truthy (Some API_KEY)) then
    Raise (HTTPException 503
             (Text (lit "Dashboard API key not configured on server")))
  else if negb (truthy header_key) || negb (header_eqb header_key API_KEY) then
    Raise (HTTPException 401 (Text (lit "Invalid or missing API key")))
  else Ok tt.

(** The response [JSONResponse(status_code=201, content={"ok": True})]. *)
Inductive created : Type := OkTrue.

Definition required : list pystr :=
  [lit "server"; lit "timestamp"; lit "status"; lit "exit_code";
   lit "duration_seconds"; lit "reboot_required"; lit "version"].

Fixpoint is_prefix (p s : pystr) : bool :=
  match p, s with
  | [], _ => true
  | _ :: _, [] => false
  | a :: p', b :: s' => N.eqb a b && is_prefix p' s'
  end.

(** [p in s] on strs: [p] occurs in [s]. *)
Fixpoint is_substring (p s : pystr) : bool :=
  is_prefix p s ||
  match s with
  | [] => false
  | _ :: s' => is_substring p s'
  end.

(** [k in data]: key membership for a dict, element equality for a
    list, substring for a str; any other value is not a container. *)
Definition py_contains (k : pystr) (data : json) : result exn bool :=
  match data with
  | JDict d => Ok (dict_mem k d)
  | JList l => Ok (py_in (JStr k) l)
  | JStr s => Ok (is_substring k s)
  | _ => Raise TypeError
  end.

(** [[k for k in ks if k not in data]] *)
Fixpoint not_in (data : json) (ks : list pystr) : result exn (list pystr) :=
  match ks with
  | [] => Ok []
  | k :: ks' =>
      b <- py_contains k data ;;
      rest <- not_in data ks' ;;
      Ok (if b then rest else k :: rest)
  end.

(** [data[k]] for a str [k] *)
Definition py_getitem (data : json) (k : pystr) : result exn json :=
  match data with
  | JDict d =>
      match dict_lookup k d with
      | Some v => Ok v
      | None => Raise KeyError
      end
  | _ => Raise TypeError
  end.

(** [data.get(k)] *)
Definition py_get (data : json) (k : pystr) : result exn json :=
  match data with
  | JDict d => Ok (dict_get k d)
  | _ => Raise AttributeError
  end.

Section Handlers.
Context {B : Builtins}.

(** The body of the [try] block: the eight values of the row. *)
Definition normalize (data : json) (client : option pystr)
  : result exn columns :=
  v_server <- py_getitem data (lit "server") ;;
  let server := slice_to 255 (py_str v_server) in
  v_status <- py_getitem data (lit "status") ;;
  let status := slice_to 64 (py_str v_status) in
  v_exit <- py_getitem data (lit "exit_code") ;;
  exit_code <- py_int v_exit ;;
  v_duration <- py_getitem data (lit "duration_seconds") ;;
  duration <- py_int v_duration ;;
  v_reboot <- py_get data (lit "reboot_required") ;;
  let reboot_required := reboot_flag v_reboot in
  v_timestamp <- py_getitem data (lit "timestamp") ;;
  let timestamp := slice_to 64 (py_str v_timestamp) in
  let raw := json_dumps data in
  let ip := client in
  Ok (mkColumns server status exit_code duration reboot_required
        timestamp raw ip).

Open Scope handler_scope.

Definition ingest_report (API_KEY : pystr) (req : request) : handler created :=
  _ <- lift (_require_api_key API_KEY (x_api_key req)) ;;
  data <- lift (match json_body req with
                | Some data => Ok data
                | None =>
                    Raise (HTTPException 400
                             (Text (lit "Invalid JSON payload")))
                end) ;;
  missing <- uncaught (not_in data required) ;;
  _ <- (match missing with
        | [] => ret tt
        | _ :: _ =>
            fail (HTTPException 400
                    (Text (lit "Missing fields: "
                           ++ join (lit ", ") missing)))
        end) ;;
  c <- try_except (normalize data (client_host req))
         (fun e => HTTPException 400 (ValidationError e)) ;;
  _ <- execute (sql_insert c) ;;
  ret OkTrue.

Close Scope handler_scope.

(* --------------------------------------------------------------- *)
(** *** The two [SELECT] statements *)

(** The sort key [datetime(timestamp)]. *)
Definition sort_key (r : report) : option pystr :=
  sqlite_datetime (timestamp (cols r)).

(** NULL sorts below every text. *)
Definition key_compare (a b : option pystr) : comparison :=
  match a, b with
  | None, None => Eq
  | None, Some _ => Lt
  | Some _, None => Gt
  | Some s, Some t => str_compare s t
  end.

(** [ORDER BY datetime(timestamp) DESC, id DESC]: [r] is not after
    [r'] in the result. *)
Definition desc_le (r r' : report) : bool :=
  match key_compare (sort_key r) (sort_key r') with
  | Gt => true
  | Lt => false
  | Eq => id r' <=? id r
  end.

Fixpoint insert_sorted (r : report) (l : list report) : list report :=
  match l with
  | [] => [r]
  | x :: l' => if desc_le r x then r :: l else x :: insert_sorted r l'
  end.

Definition order_by (rs : list report) : list report :=
  fold_right insert_sorted [] rs.

(** [SELECT * FROM reports [WHERE server = ?] ORDER BY
    datetime(timestamp) DESC, id DESC LIMIT ?] *)
Definition select_recent (filter_server : option pystr) (limit : Z)
    (t : table) : list report :=
  let matching :=
    match filter_server with
    | Some s => filter (fun r => pystr_eqb (server (cols r)) s) (rows t)
    | None => rows t
    end in
  firstn (Z.to_nat limit) (order_by matching).

(* --------------------------------------------------------------- *)
(** *** [GET /api/v1/reports] *)

(** The [items] of the response; an omitted [limit] is [None]. *)
Definition list_reports (server : option pystr) (limit : option Z)
    (t : table) : list report :=
  let limit := match limit with Some n => n | None => 100 end in
  let limit := Z.max 1 (Z.min limit 1000) in
  if truthy server then select_recent server limit t
  else select_recent None limit t.

(* --------------------------------------------------------------- *)
(** *** [GET /] *)

Fixpoint insert_asc (s : pystr) (l : list pystr) : list pystr :=
  match l with
  | [] => [s]
  | x :: l' =>
      match str_compare s x with
      | Gt => x :: insert_asc s l'
      | _ => s :: l
      end
  end.

(** [SELECT DISTINCT server FROM reports ORDER BY server ASC] *)
Definition distinct_servers (t : table) : list pystr :=
  fold_right insert_asc []
    (nodup pystr_eq_dec (map (fun r => server (cols r)) (rows t))).

(** The context handed to the template. *)
Record page : Type := mkPage {
  servers : list pystr;
  selected_server : option pystr;
  items : list report
}.

(** [s in servers] *)
Definition known (s : option pystr) (servers : list pystr) : bool :=
  match s with
  | Some k => existsb (pystr_eqb k) servers
  | None => false
  end.

Definition index (server : option pystr) (t : table) : page :=
  let servers := distinct_servers t in
  let server :=
    if truthy server && negb (known server servers) then None else server in
  let items :=
    if truthy server then select_recent server 100 t
    else select_recent None 100 t in
  mkPage servers server items.
End Handlers.

(* ================================================================= *)
(** ** A reference implementation of the builtins

    Used to run the handlers on concrete requests.  Each function is
    exact on the domain its comment names and returns a fixed
    placeholder outside of it; the theorems below hold for every
    implementation and do not depend on this one. *)

Module Reference.

Definition digit_val (c : N) : option Z :=
  if ((48 <=? c) && (c <=? 57))%N then Some (Z.of_N c - 48) else None.

(** The whitespace that [int] strips, in the ASCII range. *)
Definition is_space (c : N) : bool :=
  ((c =? 32) || ((9 <=? c) && (c <=? 13)))%N.

Fixpoint lstrip (s : pystr) : pystr :=
  match s with
  | c :: s' => if is_space c then lstrip s' else s
  | [] => []
  end.

Definition strip (s : pystr) : pystr := rev (lstrip (rev (lstrip s))).

(** Digits with single underscores between them. *)
Fixpoint digits_us (s : pystr) (acc : Z) (after_digit : bool) : option Z :=
  match s with
  | [] => if after_digit then Some acc else None
  | c :: s' =>
      match digit_val c with
      | Some d => digits_us s' (acc * 10 + d) true
      | None =>
          if (c =? 95)%N && after_digit then digits_us s' acc false
          else None
      end
  end.

(** [int(s)], exact on ASCII text: surrounding whitespace, one
    optional sign, decimal digits.  Non-ASCII digits and spaces, which
    Python also accepts, are refused here. *)
Definition int_of_str (s : pystr) : option Z :=
  match strip s with
  | 45%N :: ds => option_map Z.opp (digits_us ds 0 false)
  | 43%N :: ds => digits_us ds 0 false
  | ds => digits_us ds 0 false
  end.

(** The binary64 form of an integer [0 < n < 2^53]. *)
Definition float_of_pos (s : bool) (n : Z) : pyfloat :=
  let k := 52 - Z.log2 n in
  FFinite s (Z.to_pos (n * 2 ^ k)) (- k).

(** The integer value of a float, when it has one. *)
Definition float_integral (f : pyfloat) : option Z :=
  match f with
  | FFinite s m e =>
      let sg := if s then -1 else 1 in
      if 0 <=? e then Some (sg * (Zpos m * 2 ^ e))
      else if Zpos m mod 2 ^ (- e) =? 0 then Some (sg * (Zpos m / 2 ^ (- e)))
      else None
  | _ => None
  end.

(** [repr(f)], exact on the zeros, the infinities, NaN and the integral
    floats below [10^16] in magnitude, which Python writes with a
    trailing [.0]. *)
Definition float_repr (f : pyfloat) : pystr :=
  match f with
  | FZero false => lit "0.0"
  | FZero true => lit "-0.0"
  | FInf false => lit "inf"
  | FInf true => lit "-inf"
  | FNaN => lit "nan"
  | FFinite _ _ _ =>
      match float_integral f with
      | Some n =>
          if Z.abs n <? 10 ^ 16 then int_repr n ++ lit ".0"
          else lit "<float>"
      | None => lit "<float>"
      end
  end.

Fixpoint all_zero_digits (s : pystr) : bool :=
  match s with
  | [] => true
  | c :: s' => (c =? 48)%N && all_zero_digits s'
  end.

Fixpoint split_dot (s : pystr) : pystr * option pystr :=
  match s with
  | [] => ([], None)
  | c :: s' =>
      if (c =? 46)%N then ([], Some s')
      else let (a, b) := split_dot s' in (c :: a, b)
  end.

(** [float(s)], exact on the tokens [d.0] with [d] an integer below
    [2^53] in magnitude. *)
Definition float_of_str (s : pystr) : pyfloat :=
  let (neg, body) :=
    match s with
    | 45%N :: s' => (true, s')
    | _ => (false, s)
    end in
  match split_dot body with
  | (ds, Some zs) =>
      match digits_us ds 0 false with
      | Some n =>
          if negb (all_zero_digits zs) || (2 ^ 53 <=? n) then FNaN
          else if n =? 0 then FZero neg
          else float_of_pos neg n
      | None => FNaN
      end
  | _ => FNaN
  end.

(** [repr(s)], exact on ASCII text: single quotes unless the text has
    a single quote and no double quote; the backslash, the chosen quote
    and the characters outside U+0020..U+007E are escaped. *)
Definition repr_char (q : N) (c : N) : pystr :=
  if (c =? 92)%N then [92%N; 92%N]
  else if (c =? q)%N then [92%N; q]
  else if (c =? 9)%N then [92%N; 116%N]
  else if (c =? 10)%N then [92%N; 110%N]
  else if (c =? 13)%N then [92%N; 114%N]
  else if ((c <? 32) || (c =? 127))%N then
    [92%N; 120%N; hex_digit (c / 16); hex_digit (c mod 16)]
  else [c].

Definition str_repr (s : pystr) : pystr :=
  let q :=
    if existsb (N.eqb 39) s && negb (existsb (N.eqb 34) s)
    then 34%N else 39%N in
  [q] ++ flat_map (repr_char q) s ++ [q].

Definition two_digits (a b : N) : option Z :=
  match digit_val a, digit_val b with
  | Some x, Some y => Some (10 * x + y)
  | _, _ => None
  end.

(** A date and a time of day, the year in astronomical numbering (the
    year before year 1 is year 0, the one before is year -1). *)
Record civil : Type := mkCivil {
  year : Z;
  month : Z;
  day : Z;
  hour : Z;
  minute : Z;
  second : Z
}.

(** The order of time on dates of the calendar. *)
Definition civil_compare (a b : civil) : comparison :=
  match year a ?= year b with
  | Eq =>
      match month a ?= month b with
      | Eq =>
          match day a ?= day b with
          | Eq =>
              match hour a ?= hour b with
              | Eq =>
                  match minute a ?= minute b with
                  | Eq => second a ?= second b
                  | c => c
                  end
              | c => c
              end
          | c => c
          end
      | c => c
      end
  | c => c
  end.

Definition is_leap (y : Z) : bool :=
  ((y mod 4 =? 0) && negb (y mod 100 =? 0)) || (y mod 400 =? 0).

Definition days_in_month (y m : Z) : Z :=
  if m =? 2 then (if is_leap y then 29 else 28)
  else if (m =? 4) || (m =? 6) || (m =? 9) || (m =? 11) then 30
  else 31.

Definition between (lo v hi : Z) : bool := (lo <=? v) && (v <=? hi).

(** A date of the calendar within the years that SQLite handles, and a
    time of day before midnight. *)
Definition civil_ok (c : civil) : bool :=
  between (-4712) (year c) 9999 && between 1 (month c) 12
  && between 1 (day c) (days_in_month (year c) (month c))
  && between 0 (hour c) 23 && between 0 (minute c) 59
  && between 0 (second c) 59.

(** The time of day [HH:MM] or [HH:MM:SS]. *)
Definition parse_time (s : pystr) : option (Z * Z * Z) :=
  match s with
  | [h1; h2; 58%N; m1; m2] =>
      match two_digits h1 h2, two_digits m1 m2 with
      | Some h, Some m => Some (h, m, 0)
      | _, _ => None
      end
  | [h1; h2; 58%N; m1; m2; 58%N; s1; s2] =>
      match two_digits h1 h2, two_digits m1 m2, two_digits s1 s2 with
      | Some h, Some m, Some x => Some (h, m, x)
      | _, _, _ => None
      end
  | _ => None
  end.

(** [YYYY-MM-DD], alone or followed by a space or a [T] and a time. *)
Definition parse_date_time (neg : bool) (s : pystr) : option civil :=
  match s with
  | y1 :: y2 :: y3 :: y4 :: 45%N :: m1 :: m2 :: 45%N :: d1 :: d2 :: rest =>
      match two_digits y1 y2, two_digits y3 y4, two_digits m1 m2,
            two_digits d1 d2 with
      | Some yh, Some yl, Some m, Some d =>
          let y := if neg then - (100 * yh + yl) else 100 * yh + yl in
          match rest with
          | [] => Some (mkCivil y m d 0 0 0)
          | sep :: time =>
              if ((sep =? 32) || (sep =? 84))%N then
                match parse_time time with
                | Some (h, mi, x) => Some (mkCivil y m d h mi x)
                | None => None
                end
              else None
          end
      | _, _, _, _ => None
      end
  | _ => None
  end.

(** The date and time that SQLite reads from a timestamp, on the forms
    [YYYY-MM-DD], [YYYY-MM-DD HH:MM] and [YYYY-MM-DD HH:MM:SS] (a space or
    a [T] between date and time, a minus sign before the year for the
    years -4712 to -0001) for a date of the calendar and an hour below
    24. *)
Definition parse_civil (s : pystr) : option civil :=
  let parsed :=
    match s with
    | 45%N :: s' =>
        match parse_date_time true s' with
        | Some c => if year c <? 0 then Some c else None
        | None => None
        end
    | _ => parse_date_time false s
    end in
  match parsed with
  | Some c => if civil_ok c then Some c else None
  | None => None
  end.

Definition pad2 (n : Z) : pystr := [Z.to_N (48 + n / 10); Z.to_N (48 + n mod 10)].

(** The text [YYYY-MM-DD HH:MM:SS], with a minus sign before the year of
    a date before year 0. *)
Definition format_civil (c : civil) : pystr :=
  (if year c <? 0 then [45%N] else [])
  ++ pad2 (Z.abs (year c) / 100) ++ pad2 (Z.abs (year c) mod 100)
  ++ 45%N :: pad2 (month c) ++ 45%N :: pad2 (day c)
  ++ 32%N :: pad2 (hour c) ++ 58%N :: pad2 (minute c) ++ 58%N :: pad2 (second c).

(** [datetime(X)], exact on the timestamps that [parse_civil] reads.  The
    other forms that SQLite reads (fractions, zones, Julian days, [now],
    days and hours that overflow into the next month or day) give NULL
    here. *)
Definition sqlite_datetime (s : pystr) : option pystr :=
  option_map format_civil (parse_civil s).

#[export] Instance builtins : Builtins := {
  float_repr := float_repr;
  str_repr := str_repr;
  int_of_str := int_of_str;
  float_of_str := float_of_str;
  sqlite_datetime := sqlite_datetime
}.

End Reference.

(* ================================================================= *)
(** ** Sample requests *)

Module Sample.
Import Reference.

(** A payload with the seven required fields. *)
Definition payload (server timestamp status : string) (exit_code duration : Z)
    (reboot : json) (version : string) : json :=
  JDict [(lit "server", JStr (lit server));
         (lit "timestamp", JStr (lit timestamp));
         (lit "status", JStr (lit status));
         (lit "exit_code", JInt exit_code);
         (lit "duration_seconds", JInt duration);
         (lit "reboot_required", reboot);
         (lit "version", JStr (lit version))].

Definition secret : pystr := lit "s3cret".

(** A request that carries the right key. *)
Definition post (data : json) : request :=
  mkRequest (Some data) (Some secret) (Some (lit "10.0.0.7")).

(** The table after the requests, the first one of the list first. *)
Definition after (reqs : list request) : table :=
  fold_left (fun db req => snd (ingest_report secret req db)) reqs (init_db None).

(** The scenario of the specification. *)
Definition host1 : json :=
  payload "host1" "2024-06-01T10:00:00" "success" 0 120 (JBool true) "1.0".

Definition jan1 : json :=
  payload "alpha" "2024-01-01T00:00:00" "success" 0 30 (JBool false) "1.0".

Definition jan2 : json :=
  payload "beta" "2024-01-02T00:00:00" "failure" 1 45 (JInt 1) "1.1".

(** Two reports from before year 0: the second is a year older. *)
Definition year_m1 : json :=
  payload "gamma" "-0001-01-01T00:00:00" "success" 0 10 (JBool false) "1.0".

Definition year_m2 : json :=
  payload "delta" "-0002-01-01T00:00:00" "success" 0 10 (JBool false) "1.0".

(** The payload of the scenario with one more field, whose value is the
    JSON text [NaN]. *)
Definition with_nan : json :=
  match host1 with
  | JDict d => JDict (d ++ [(lit "load", JFloat FNaN)])
  | v => v
  end.

(** The stored form of a payload under a given id. *)
Definition stored (n : Z) (data : json) : report :=
  match normalize data (Some (lit "10.0.0.7")) with
  | Ok c => mkReport n c
  | Raise _ => mkReport n (mkColumns [] [] 0 0 0 [] [] None)
  end.

(** The members of a payload. *)
Definition fields (v : json) : list (pystr * json) :=
  match v with
  | JDict d => d
  | _ => []
  end.

(** The scenario with an [exit_code] that no 64-bit integer holds. *)
Definition huge_exit : json :=
  payload "host1" "2024-06-01T10:00:00" "failure" 9223372036854775808 120
    (JBool true) "1.0".

(** The scenario with a duration that is no number. *)
Definition bad_duration : json :=
  JDict [(lit "server", JStr (lit "host1"));
         (lit "timestamp", JStr (lit "2024-06-01T10:00:00"));
         (lit "status", JStr (lit "success"));
         (lit "exit_code", JInt 0);
         (lit "duration_seconds", JStr (lit "two minutes"));
         (lit "reboot_required", JBool true);
         (lit "version", JStr (lit "1.0"))].

End Sample.

(* ================================================================= *)
(** ** [json.loads]

    The decoder of the standard library in its default configuration
    (strict, no hooks), by which a stored [raw] text is read back.  The
    scanner works on a suffix of the text and returns what is left. *)

Definition is_ws (c : N) : bool :=
  ((c =? 32) || (c =? 9) || (c =? 10) || (c =? 13))%N.

Fixpoint skip_ws (s : pystr) : pystr :=
  match s with
  | c :: s' => if is_ws c then skip_ws s' else s
  | [] => []
  end.

Definition is_digit (c : N) : bool := ((48 <=? c) && (c <=? 57))%N.

Definition hex_val (c : N) : option N :=
  if is_digit c then Some (c - 48)%N
  else if ((97 <=? c) && (c <=? 102))%N then Some (c - 87)%N
  else if ((65 <=? c) && (c <=? 70))%N then Some (c - 55)%N
  else None.

(** The four hex digits of a [\uXXXX] escape. *)
Definition hex4 (a b c d : N) : option N :=
  match hex_val a, hex_val b, hex_val c, hex_val d with
  | Some x, Some y, Some z, Some w => Some (((x * 16 + y) * 16 + z) * 16 + w)%N
  | _, _, _, _ => None
  end.

(** The character of a one-letter escape. *)
Definition unescape (c : N) : option N :=
  if (c =? 34)%N then Some 34%N
  else if (c =? 92)%N then Some 92%N
  else if (c =? 47)%N then Some 47%N
  else if (c =? 98)%N then Some 8%N
  else if (c =? 102)%N then Some 12%N
  else if (c =? 110)%N then Some 10%N
  else if (c =? 114)%N then Some 13%N
  else if (c =? 116)%N then Some 9%N
  else None.

Definition is_high_surrogate (c : N) : bool := ((55296 <=? c) && (c <=? 56319))%N.
Definition is_low_surrogate (c : N) : bool := ((56320 <=? c) && (c <=? 57343))%N.

Definition join_surrogates (hi lo : N) : N :=
  (65536 + ((hi - 55296) * 1024 + (lo - 56320)))%N.

Definition cons_char (c : N) (r : option (pystr * pystr)) : option (pystr * pystr) :=
  match r with
  | Some (s, rest) => Some (c :: s, rest)
  | None => None
  end.

(** The body of a string, from after the opening quote to the closing
    one: a raw control character is an error, and two [\u] escapes that
    form a surrogate pair give one character. *)
Fixpoint scanstring (s : pystr) : option (pystr * pystr) :=
  match s with
  | [] => None
  | c :: s' =>
      if (c =? 34)%N then Some ([], s')
      else if (c =? 92)%N then
        match s' with
        | [] => None
        | e :: s'' =>
            if (e =? 117)%N then
              match s'' with
              | h1 :: h2 :: h3 :: h4 :: rest =>
                  match hex4 h1 h2 h3 h4 with
                  | None => None
                  | Some u =>
                      match rest with
                      | b :: u' :: g1 :: g2 :: g3 :: g4 :: ((_ :: _) as rest') =>
                          if is_high_surrogate u && (b =? 92)%N && (u' =? 117)%N
                          then
                            match hex4 g1 g2 g3 g4 with
                            | None => None
                            | Some l =>
                                if is_low_surrogate l
                                then cons_char (join_surrogates u l)
                                       (scanstring rest')
                                else cons_char u (scanstring rest)
                            end
                          else cons_char u (scanstring rest)
                      | _ => cons_char u (scanstring rest)
                      end
                  end
              | _ => None
              end
            else
              match unescape e with
              | Some x => cons_char x (scanstring s'')
              | None => None
              end
        end
      else if (c <? 32)%N then None
      else cons_char c (scanstring s')
  end.

(** The longest prefix of ASCII digits, and the rest. *)
Fixpoint span_digits (s : pystr) : pystr * pystr :=
  match s with
  | c :: s' =>
      if is_digit c then let (d, r) := span_digits s' in (c :: d, r)
      else ([], s)
  | [] => ([], [])
  end.

Definition scan_sign (s : pystr) : pystr * pystr :=
  match s with
  | c :: s' => if (c =? 45)%N then ([c], s') else ([], s)
  | [] => ([], [])
  end.

(** [0], or a non-zero digit and the digits after it. *)
Definition scan_int (s : pystr) : option (pystr * pystr) :=
  match s with
  | c :: s' =>
      if ((49 <=? c) && (c <=? 57))%N then
        let (d, r) := span_digits s' in Some (c :: d, r)
      else if (c =? 48)%N then Some ([c], s')
      else None
  | [] => None
  end.

(** A dot followed by at least one digit. *)
Definition scan_frac (s : pystr) : pystr * pystr :=
  match s with
  | c :: c' :: s' =>
      if (c =? 46)%N && is_digit c' then
        let (d, r) := span_digits s' in (c :: c' :: d, r)
      else ([], s)
  | _ => ([], s)
  end.

(** [e] or [E], an optional sign and at least one digit; without a digit
    the scanner backs up to before the [e]. *)
Definition scan_exp (s : pystr) : pystr * pystr :=
  match s with
  | e :: s' =>
      if ((e =? 101) || (e =? 69))%N then
        let (sg, s'') :=
          match s' with
          | c :: t => if ((c =? 43) || (c =? 45))%N then ([c], t) else ([], s')
          | [] => ([], s')
          end in
        let (d, r) := span_digits s'' in
        match d with
        | [] => ([], s)
        | _ :: _ => (e :: sg ++ d, r)
        end
      else ([], s)
  | [] => ([], s)
  end.

Definition nonempty {A} (l : list A) : bool :=
  match l with [] => false | _ :: _ => true end.

(** The number token at the head of the text: its characters, whether it
    has a fraction or an exponent, and the rest. *)
Definition match_number (s : pystr) : option (pystr * bool * pystr) :=
  let (sg, s1) := scan_sign s in
  match scan_int s1 with
  | None => None
  | Some (ip, s2) =>
      let (fr, s3) := scan_frac s2 in
      let (ex, s4) := scan_exp s3 in
      Some (sg ++ ip ++ fr ++ ex, nonempty fr || nonempty ex, s4)
  end.

(** The value of a run of digits. *)
Definition digits_value (s : pystr) : Z :=
  fold_left (fun acc c => acc * 10 + (Z.of_N c - 48)) s 0.

(** [int(token)] on an integer token. *)
Definition int_of_token (tok : pystr) : Z :=
  match tok with
  | c :: ds => if (c =? 45)%N then - digits_value ds else digits_value tok
  | [] => 0
  end.

(** [d[k] = v]: a key that is there keeps its place. *)
Fixpoint dict_set (k : pystr) (v : json) (d : list (pystr * json))
  : list (pystr * json) :=
  match d with
  | [] => [(k, v)]
  | (k', v') :: d' =>
      if pystr_eqb k' k then (k', v) :: d' else (k', v') :: dict_set k v d'
  end.

Definition dict_of_pairs (pairs : list (pystr * json)) : list (pystr * json) :=
  fold_left (fun d kv => dict_set (fst kv) (snd kv) d) pairs [].

Definition literal (name : string) (v : json) (s : pystr) : option (json * pystr) :=
  if is_prefix (lit name) s
  then Some (v, skipn (List.length (lit name)) s) else None.

Section Loads.
Context {B : Builtins}.

(** A number token becomes an [int], or a [float] when it has a fraction
    or an exponent. *)
Definition scan_number (s : pystr) : option (json * pystr) :=
  match match_number s with
  | Some (tok, true, rest) => Some (JFloat (float_of_str tok), rest)
  | Some (tok, false, rest) => Some (JInt (int_of_token tok), rest)
  | None => None
  end.

(** One value at the head of the text.  The recursion is on [fuel],
    which bounds the number of values read. *)
Fixpoint scan_once (fuel : nat) (s : pystr) {struct fuel} : option (json * pystr) :=
  match fuel with
  | O => None
  | S fuel' =>
      match s with
      | [] => None
      | c :: s' =>
          if (c =? 34)%N then
            match scanstring s' with
            | Some (str, rest) => Some (JStr str, rest)
            | None => None
            end
          else if (c =? 123)%N then
            match skip_ws s' with
            | c' :: rest =>
                if (c' =? 125)%N then Some (JDict [], rest)
                else
                  match scan_pairs fuel' (c' :: rest) with
                  | Some (pairs, rest') => Some (JDict (dict_of_pairs pairs), rest')
                  | None => None
                  end
            | [] => None
            end
          else if (c =? 91)%N then
            match skip_ws s' with
            | c' :: rest =>
                if (c' =? 93)%N then Some (JList [], rest)
                else
                  match scan_items fuel' (c' :: rest) with
                  | Some (l, rest') => Some (JList l, rest')
                  | None => None
                  end
            | [] => None
            end
          else
            match literal "null" JNull s with Some r => Some r | None =>
            match literal "true" (JBool true) s with Some r => Some r | None =>
            match literal "false" (JBool false) s with Some r => Some r | None =>
            match literal "NaN" (JFloat FNaN) s with Some r => Some r | None =>
            match literal "Infinity" (JFloat (FInf false)) s with Some r => Some r | None =>
            match literal "-Infinity" (JFloat (FInf true)) s with Some r => Some r | None =>
            scan_number s
            end end end end end end
      end
  end

(** The items of a non-empty array, up to the closing bracket. *)
with scan_items (fuel : nat) (s : pystr) {struct fuel} : option (list json * pystr) :=
  match fuel with
  | O => None
  | S fuel' =>
      match scan_once fuel' s with
      | None => None
      | Some (v, rest) =>
          match skip_ws rest with
          | c :: rest' =>
              if (c =? 93)%N then Some ([v], rest')
              else if (c =? 44)%N then
                match scan_items fuel' (skip_ws rest') with
                | Some (vs, rest'') => Some (v :: vs, rest'')
                | None => None
                end
              else None
          | [] => None
          end
      end
  end

(** The members of a non-empty object, up to the closing brace. *)
with scan_pairs (fuel : nat) (s : pystr) {struct fuel}
  : option (list (pystr * json) * pystr) :=
  match fuel with
  | O => None
  | S fuel' =>
      match s with
      | q :: s' =>
          if (q =? 34)%N then
            match scanstring s' with
            | None => None
            | Some (key, r1) =>
                match skip_ws r1 with
                | colon :: r2 =>
                    if (colon =? 58)%N then
                      match scan_once fuel' (skip_ws r2) with
                      | None => None
                      | Some (v, r3) =>
                          match skip_ws r3 with
                          | c :: r4 =>
                              if (c =? 125)%N then Some ([(key, v)], r4)
                              else if (c =? 44)%N then
                                match scan_pairs fuel' (skip_ws r4) with
                                | Some (kvs, r5) => Some ((key, v) :: kvs, r5)
                                | None => None
                                end
                              else None
                          | [] => None
                          end
                      end
                    else None
                | [] => None
                end
            end
          else None
      | [] => None
      end
  end.

(** [json.loads(s)]: one value, with whitespace around it and nothing
    else. *)
Definition json_loads (s : pystr) : option json :=
  match scan_once (S (List.length s)) (skip_ws s) with
  | Some (v, rest) =>
      match skip_ws rest with
      | [] => Some v
      | _ :: _ => None
      end
  | None => None
  end.

End Loads.

(* ================================================================= *)
(** ** Vocabulary of the properties *)

Section Vocabulary.
Context {B : Builtins}.

(** The grounds on which the ingestion handler turns a request down. *)
Inductive rejection_reason (API_KEY : pystr) (req : request) : Prop :=
| secret_unconfigured :
    API_KEY = [] -> rejection_reason API_KEY req
| bad_credential :
    x_api_key req <> Some API_KEY -> rejection_reason API_KEY req
| malformed_json :
    json_body req = None -> rejection_reason API_KEY req
| missing_field (d : list (pystr * json)) (k : pystr) :
    json_body req = Some (JDict d) -> In k required -> dict_mem k d = false ->
    rejection_reason API_KEY req
| not_integer (d : list (pystr * json)) (k : pystr) (v : json) (e : exn) :
    json_body req = Some (JDict d) ->
    k = lit "exit_code" \/ k = lit "duration_seconds" ->
    dict_lookup k d = Some v -> py_int v = Raise e ->
    rejection_reason API_KEY req.

(** Equality of the representations of two floats. *)
Definition float_eqb (f g : pyfloat) : bool :=
  match f, g with
  | FZero s, FZero t => Bool.eqb s t
  | FInf s, FInf t => Bool.eqb s t
  | FNaN, FNaN => true
  | FFinite s m e, FFinite t n d => Bool.eqb s t && Pos.eqb m n && Z.eqb e d
  | _, _ => false
  end.

(** The text that [repr] gives for a finite float is a number token with
    a fraction or an exponent, which [float] reads back as the same
    float: the round trip that the interpreter promises for [repr]. *)
Definition float_ok (f : pyfloat) : bool :=
  match f with
  | FNaN | FInf _ => true
  | _ =>
      match match_number (float_repr f) with
      | Some (tok, true, []) =>
          pystr_eqb tok (float_repr f) && float_eqb (float_of_str tok) f
      | _ => false
      end
  end.

(** Every float of the value reads back, at any depth. *)
Fixpoint floats_ok (v : json) : bool :=
  match v with
  | JFloat f => float_ok f
  | JList l => forallb floats_ok l
  | JDict d => forallb (fun kv : pystr * json => floats_ok (snd kv)) d
  | _ => true
  end.

Fixpoint distinct (ks : list pystr) : bool :=
  match ks with
  | [] => true
  | k :: ks' => negb (existsb (pystr_eqb k) ks') && distinct ks'
  end.

(** The keys of every dict of the value are distinct, as they are in
    any dict. *)
Fixpoint unique_keys (v : json) : bool :=
  match v with
  | JList l => forallb unique_keys l
  | JDict d =>
      distinct (map fst d)
      && forallb (fun kv : pystr * json => unique_keys (snd kv)) d
  | _ => true
  end.

(** The number of values that the scanner reads for [v], loop steps
    included. *)
Fixpoint json_size (v : json) : nat :=
  match v with
  | JList l => S (fold_right (fun x n => S (json_size x + n)) O l)
  | JDict d =>
      S (fold_right (fun (kv : pystr * json) n => S (json_size (snd kv) + n)) O d)
  | _ => 1
  end.

(** What may follow a number token: nothing, or a character that no
    number continues with. *)
Definition number_end (rest : pystr) : bool :=
  match rest with
  | [] => true
  | c :: _ =>
      negb (is_digit c || (c =? 46) || (c =? 101) || (c =? 69)
            || (c =? 43) || (c =? 45))%N
  end.

(** What follows a value inside the text that the encoder writes: the
    end, a comma, or a closing bracket or brace. *)
Definition terminated (rest : pystr) : bool :=
  match rest with
  | [] => true
  | c :: _ => ((c =? 44) || (c =? 93) || (c =? 125))%N
  end.

(** [a] stands before [b] in the list [l]. *)
Definition before {A} (a b : A) (l : list A) : Prop :=
  exists l1 l2 l3, l = l1 ++ a :: l2 ++ b :: l3.

(** [datetime] reads both timestamps, and the text that it gives for
    [r1] is the greater one in SQLite's comparison of texts. *)
Definition later_text (r1 r2 : report) : Prop :=
  exists k1 k2,
    sort_key r1 = Some k1 /\ sort_key r2 = Some k2 /\ str_compare k1 k2 = Gt.

(** [datetime] reads both timestamps, and gives the same text. *)
Definition same_text (r1 r2 : report) : Prop :=
  exists k, sort_key r1 = Some k /\ sort_key r2 = Some k.

(** The row passes the [WHERE] clause of a request with this filter. *)
Definition matches (filter_server : option pystr) (r : report) : Prop :=
  truthy filter_server = true -> filter_server = Some (server (cols r)).

(** The rows that the [WHERE] clause of a request keeps. *)
Definition matching_rows (filter_server : option pystr) (t : table)
  : list report :=
  match filter_server with
  | Some (c :: s) => filter (fun r => pystr_eqb (server (cols r)) (c :: s)) (rows t)
  | _ => rows t
  end.

(** The limit in force for a request. *)
Definition effective_limit (limit : option Z) : Z :=
  Z.max 1 (Z.min (match limit with Some n => n | None => 100 end) 1000).

(** The stored rows that sort strictly before [r]: a greater sort key, or
    the same sort key and a larger id. *)
Definition rows_ahead (r : report) (t : table) : list report :=
  filter (fun x => negb (desc_le r x)) (rows t).

(** The head of a decimal number: a digit other than zero. *)
Definition nonzero_head (d : Decimal.uint) : Prop :=
  match d with
  | Decimal.Nil | Decimal.D0 _ => False
  | _ => True
  end.

(** The head of a text that begins with a number token. *)
Definition number_head (s : pystr) : bool :=
  match s with
  | c :: s' =>
      is_digit c
      || ((c =? 45)%N && match s' with c' :: _ => is_digit c' | [] => false end)
  | [] => false
  end.

(** The head of a text that begins with a value: no whitespace and no
    closing bracket or brace. *)
Definition value_start (s : pystr) : bool :=
  match s with
  | c :: _ => negb (is_ws c) && negb (c =? 93)%N && negb (c =? 125)%N
  | [] => false
  end.

(** The text of one member of an object. *)
Definition member_text (kv : pystr * json) : pystr :=
  let (k, x) := kv in encode_basestring k ++ lit ": " ++ json_dumps x.

(** The decoder, given fuel for the size of [v], reads the text of [v]
    back as [v] and stops where the text stops. *)
Definition reads_back (v : json) : Prop :=
  unique_keys v = true -> floats_ok v = true ->
  forall (fuel : nat) (rest : pystr),
    (json_size v <= fuel)%nat -> terminated rest = true ->
    scan_once fuel (json_dumps v ++ rest) = Some (v, rest).

End Vocabulary.

(* ================================================================= *)
(** ** Vocabulary of the further properties *)

Section Service.
Context {B : Builtins}.

(** The tables that the service can come to hold: the one that [init_db]
    makes of a fresh file, and what a request to the ingestion handler
    leaves of such a table, accepted or not. *)
Inductive reachable : table -> Prop :=
| reachable_fresh : reachable (init_db None)
| reachable_post (API_KEY : pystr) (req : request) (t : table) :
    reachable t -> reachable (snd (ingest_report API_KEY req t)).

(** The [n] integers from [k] on. *)
Fixpoint count_from (k : Z) (n : nat) : list Z :=
  match n with
  | O => []
  | S n' => k :: count_from (k + 1) n'
  end.

(** The columns that the [try] block computes from an object [d], given
    the integers that [int] makes of [exit_code] and [duration_seconds]. *)
Definition normal_form (d : list (pystr * json)) (client : option pystr)
    (n_exit n_duration : Z) : columns :=
  mkColumns (slice_to 255 (py_str (dict_get (lit "server") d)))
            (slice_to 64 (py_str (dict_get (lit "status") d)))
            n_exit n_duration
            (reboot_flag (dict_get (lit "reboot_required") d))
            (slice_to 64 (py_str (dict_get (lit "timestamp") d)))
            (json_dumps (JDict d)) client.

(** The id that the next [INSERT] gives. *)
Definition next_id (t : table) : Z := Z.max (seq t) (max_rowid (rows t)) + 1.

(** The statuses that the ingestion handler answers with. *)
Definition ingest_statuses : list Z := [201; 400; 401; 500; 503].

(** A decoded body that is no container: [None], a bool or a number. *)
Definition is_scalar (v : json) : bool :=
  match v with
  | JNull | JBool _ | JInt _ | JFloat _ => true
  | _ => false
  end.

(** The [server] column of a row. *)
Definition server_of (r : report) : pystr := server (cols r).

End Service.

(* ================================================================= *)
(** * Properties *)

(** ** Strings and the builtins on concrete inputs *)

Lemma pystr_eqb_eq (s t : pystr) : pystr_eqb s t = true <-> s = t.
Proof.
  unfold pystr_eqb. destruct (pystr_eq_dec s t); split; congruence.
Qed.

Lemma pystr_eqb_refl (s : pystr) : pystr_eqb s s = true.
Proof. now apply pystr_eqb_eq. Qed.

Lemma pystr_eqb_neq (s t : pystr) : pystr_eqb s t = false <-> s <> t.
Proof.
  unfold pystr_eqb. destruct (pystr_eq_dec s t); split; congruence.
Qed.

Example reboot_flag_spec_table :
  map reboot_flag
    [JBool true; JInt 1; JStr (lit "true"); JStr (lit "True");
     JBool false; JInt 0; JNull; JStr (lit "yes")]
  = [1; 1; 1; 1; 0; 0; 0; 0].
Proof. reflexivity. Qed.

Example int_repr_120 : int_repr 120 = lit "120".
Proof. reflexivity. Qed.

Example int_repr_neg : int_repr (-7) = lit "-7".
Proof. reflexivity. Qed.

Example ref_datetime_T :
  Reference.sqlite_datetime (lit "2024-06-01T10:00:00")
  = Some (lit "2024-06-01 10:00:00").
Proof. reflexivity. Qed.

Example ref_datetime_date :
  Reference.sqlite_datetime (lit "2024-02-29") = Some (lit "2024-02-29 00:00:00")
  /\ Reference.sqlite_datetime (lit "2023-02-29") = None
  /\ Reference.sqlite_datetime (lit "yesterday") = None.
Proof. repeat split; reflexivity. Qed.

Example ref_int_of_str :
  map Reference.int_of_str [lit "12"; lit " -7 "; lit "1_000"; lit "1__0"; lit "abc"; lit ""]
  = [Some 12; Some (-7); Some 1000; None; None; None].
Proof. reflexivity. Qed.

Example ref_float_one :
  Reference.float_repr float_one = lit "1.0"
  /\ Reference.float_of_str (lit "1.0") = float_one.
Proof. split; reflexivity. Qed.

Example ref_str_repr :
  Reference.str_repr (lit "host1") = lit "'host1'"
  /\ Reference.str_repr (lit "it's") = [34%N] ++ lit "it's" ++ [34%N].
Proof. split; reflexivity. Qed.

(* ================================================================= *)
(** ** The ingestion handler, step by step *)

Section IngestFacts.
Context {B : Builtins}.

(** The handler unfolded into the decisions it takes, in order. *)
Lemma ingest_report_unfold (API_KEY : pystr) (req : request) (db : table) :
  ingest_report API_KEY req db =
  match _require_api_key API_KEY (x_api_key req) with
  | Raise f => (Raise f, db)
  | Ok _ =>
      match json_body req with
      | None =>
          (Raise (HTTPException 400 (Text (lit "Invalid JSON payload"))), db)
      | Some data =>
          match not_in data required with
          | Raise e => (Raise (Unhandled e), db)
          | Ok (k :: ks) =>
              (Raise (HTTPException 400
                        (Text (lit "Missing fields: "
                               ++ join (lit ", ") (k :: ks)))), db)
          | Ok [] =>
              match normalize data (client_host req) with
              | Raise e => (Raise (HTTPException 400 (ValidationError e)), db)
              | Ok c =>
                  match sql_insert c db with
                  | (Ok _, db') => (Ok OkTrue, db')
                  | (Raise e, db') => (Raise (Unhandled e), db')
                  end
              end
          end
      end
  end.
Proof.
  unfold ingest_report, hbind, lift, uncaught, try_except, execute, ret, fail.
  destruct (_require_api_key API_KEY (x_api_key req)); [|reflexivity].
  destruct (json_body req) as [data|]; [|reflexivity].
  destruct (not_in data required) as [[|k ks]|e]; try reflexivity.
  destruct (normalize data (client_host req)) as [c|e]; [|reflexivity].
  destruct (sql_insert c db) as [[u|e] db']; reflexivity.
Qed.

(** A statement that fails leaves the table alone; one that succeeds
    appends one row with a fresh id. *)
Lemma sql_insert_cases (c : columns) (t : table) :
  (exists e, sql_insert c t = (Raise e, t)) \/
  (sql_insert c t =
     (Ok tt, mkTable (rows t ++ [mkReport (Z.max (seq t) (max_rowid (rows t)) + 1) c])
                     (Z.max (seq t) (max_rowid (rows t)) + 1))).
Proof.
  unfold sql_insert.
  destruct (bind_columns c) as [[]|e]; [|left; now exists e].
  destruct (int64_max <=? Z.max (seq t) (max_rowid (rows t))).
  - left. now exists OperationalError.
  - now right.
Qed.

(** What an accepted request has gone through. *)
Lemma ingest_report_accepted (API_KEY : pystr) (req : request) (db db' : table) :
  ingest_report API_KEY req db = (Ok OkTrue, db') ->
  exists data c,
    _require_api_key API_KEY (x_api_key req) = Ok tt /\
    json_body req = Some data /\
    not_in data required = Ok [] /\
    normalize data (client_host req) = Ok c /\
    db' = mkTable (rows db ++ [mkReport (Z.max (seq db) (max_rowid (rows db)) + 1) c])
                  (Z.max (seq db) (max_rowid (rows db)) + 1).
Proof.
  rewrite ingest_report_unfold.
  destruct (_require_api_key API_KEY (x_api_key req)) as [[]|f] eqn:Hkey;
    [|discriminate].
  destruct (json_body req) as [data|] eqn:Hbody; [|discriminate].
  destruct (not_in data required) as [[|k ks]|e] eqn:Hreq; try discriminate.
  destruct (normalize data (client_host req)) as [c|e] eqn:Hnorm;
    [|discriminate].
  destruct (sql_insert_cases c db) as [[e He]|He]; rewrite He; [discriminate|].
  intros H. injection H as <-. exists data, c. repeat split; assumption.
Qed.

(** Every failure leaves the table as it was. *)
Lemma ingest_report_rejected (API_KEY : pystr) (req : request) (db db' : table)
    (f : failure) :
  ingest_report API_KEY req db = (Raise f, db') -> db' = db.
Proof.
  rewrite ingest_report_unfold.
  destruct (_require_api_key API_KEY (x_api_key req)) as [[]|f0]; [|congruence].
  destruct (json_body req) as [data|]; [|congruence].
  destruct (not_in data required) as [[|k ks]|e]; try congruence.
  destruct (normalize data (client_host req)) as [c|e]; [|congruence].
  destruct (sql_insert_cases c db) as [[e He]|He]; rewrite He; congruence.
Qed.

End IngestFacts.

(* ================================================================= *)
(** ** Authentication *)

Lemma require_api_key_unset (h : option pystr) :
  _require_api_key [] h =
  Raise (HTTPException 503
           (Text (lit "Dashboard API key not configured on server"))).
Proof. reflexivity. Qed.

Lemma require_api_key_ok (API_KEY : pystr) (h : option pystr) :
  API_KEY <> [] ->
  (_require_api_key API_KEY h = Ok tt <-> h = Some API_KEY).
Proof.
  intros Hne. unfold _require_api_key.
  destruct API_KEY as [|a k]; [congruence|]. cbn [truthy negb].
  destruct h as [[|b s]|]; cbn [truthy negb orb header_eqb].
  - split; discriminate.
  - destruct (pystr_eqb (b :: s) (a :: k)) eqn:E; cbn [negb].
    + apply pystr_eqb_eq in E. rewrite E. tauto.
    + apply pystr_eqb_neq in E. split; [discriminate | congruence].
  - split; discriminate.
Qed.

Lemma require_api_key_bad (API_KEY : pystr) (h : option pystr) :
  API_KEY <> [] -> h <> Some API_KEY ->
  _require_api_key API_KEY h =
  Raise (HTTPException 401 (Text (lit "Invalid or missing API key"))).
Proof.
  intros Hne Hh. unfold _require_api_key.
  destruct API_KEY as [|a k]; [congruence|]. cbn [truthy negb].
  destruct h as [[|b s]|]; cbn [truthy negb orb header_eqb]; try reflexivity.
  destruct (pystr_eqb (b :: s) (a :: k)) eqn:E; [|reflexivity].
  apply pystr_eqb_eq in E. congruence.
Qed.

(** The comparison is on code points: another letter case is another key. *)
Example require_api_key_case_sensitive :
  _require_api_key (lit "Secret") (Some (lit "secret")) =
  Raise (HTTPException 401 (Text (lit "Invalid or missing API key")))
  /\ _require_api_key (lit "Secret") (Some (lit "Secret")) = Ok tt.
Proof. split; reflexivity. Qed.

Section Authentication.
Context {B : Builtins}.

(** C3: with the secret unset or empty every ingestion request gets
    status 503, whatever header it carries; with a non-empty secret the
    request passes authentication exactly when the header is present and
    equal to the secret, code point for code point, and gets status 401
    otherwise. The table is untouched in both rejections. *)
Theorem C3_api_key_gate (API_KEY : pystr) (req : request) (db : table) :
  (API_KEY = [] ->
     status_of 201 (fst (ingest_report API_KEY req db)) = 503
     /\ snd (ingest_report API_KEY req db) = db)
  /\ (API_KEY <> [] ->
        (_require_api_key API_KEY (x_api_key req) = Ok tt
         <-> x_api_key req = Some API_KEY)
        /\ (x_api_key req <> Some API_KEY ->
              status_of 201 (fst (ingest_report API_KEY req db)) = 401
              /\ snd (ingest_report API_KEY req db) = db)
        /\ (x_api_key req = Some API_KEY ->
              status_of 201 (fst (ingest_report API_KEY req db)) <> 401
              /\ status_of 201 (fst (ingest_report API_KEY req db)) <> 503)).
Proof.
  split.
  - intros ->. rewrite ingest_report_unfold, require_api_key_unset. now split.
  - intros Hne. split; [now apply require_api_key_ok|]. split.
    + intros Hbad. rewrite ingest_report_unfold.
      rewrite (require_api_key_bad Hne Hbad). now split.
    + intros Hgood. rewrite ingest_report_unfold.
      apply (require_api_key_ok (x_api_key req) Hne) in Hgood.
      rewrite Hgood.
      destruct (json_body req) as [data|]; [|split; discriminate].
      destruct (not_in data required) as [[|k ks]|e]; try (split; discriminate).
      destruct (normalize data (client_host req)) as [c|e];
        [|split; discriminate].
      destruct (sql_insert c db) as [[u|e] db']; split; discriminate.
Qed.

End Authentication.

(* ================================================================= *)
(** ** Required fields and normalisation *)

Lemma dict_mem_lookup (k : pystr) (d : list (pystr * json)) :
  dict_mem k d = true <-> exists v, dict_lookup k d = Some v.
Proof.
  induction d as [|[k' v'] d IH]; cbn [dict_mem dict_lookup existsb fst].
  - split; [discriminate | intros [v Hv]; discriminate].
  - destruct (pystr_eqb k' k); cbn [orb].
    + split; [intros _; now exists v' | reflexivity].
    + exact IH.
Qed.

Lemma dict_mem_false_lookup (k : pystr) (d : list (pystr * json)) :
  dict_mem k d = false <-> dict_lookup k d = None.
Proof.
  destruct (dict_mem k d) eqn:E.
  - apply dict_mem_lookup in E as [v Hv]. rewrite Hv. split; discriminate.
  - split; [intros _|reflexivity].
    destruct (dict_lookup k d) as [v|] eqn:L; [|reflexivity].
    assert (dict_mem k d = true) by (apply dict_mem_lookup; now exists v).
    congruence.
Qed.

Lemma dict_lookup_get (k : pystr) (d : list (pystr * json)) (v : json) :
  dict_lookup k d = Some v -> dict_get k d = v.
Proof.
  induction d as [|[k' v'] d IH]; cbn [dict_get dict_lookup]; [discriminate|].
  destruct (pystr_eqb k' k); [congruence | exact IH].
Qed.

Lemma dict_get_absent (k : pystr) (d : list (pystr * json)) :
  dict_lookup k d = None -> dict_get k d = JNull.
Proof.
  induction d as [|[k' v'] d IH]; cbn [dict_get dict_lookup]; [reflexivity|].
  destruct (pystr_eqb k' k); [discriminate | exact IH].
Qed.

(** On a dict the comprehension keeps the required names that are not
    keys, in the order of [required]. *)
Lemma not_in_dict (d : list (pystr * json)) (ks : list pystr) :
  not_in (JDict d) ks = Ok (filter (fun k => negb (dict_mem k d)) ks).
Proof.
  induction ks as [|k ks IH]; cbn [not_in filter py_contains rbind];
    [reflexivity|].
  rewrite IH. cbn [rbind]. now destruct (dict_mem k d).
Qed.

Lemma filter_nil_forall {A} (p : A -> bool) (l : list A) :
  filter p l = [] <-> forall x, In x l -> p x = false.
Proof.
  induction l as [|a l IH]; cbn [filter In].
  - split; [intros _ x [] | reflexivity].
  - destruct (p a) eqn:E.
    + split; [discriminate|]. intros H. specialize (H a (or_introl eq_refl)).
      congruence.
    + rewrite IH. split.
      * intros H x [<-|Hx]; auto.
      * intros H x Hx. apply H. now right.
Qed.

(** Only a dict gets through the check of the required fields and the
    first subscript of the [try] block. *)
Lemma normalize_needs_dict {B : Builtins} (data : json) (client : option pystr)
    (c : columns) :
  normalize data client = Ok c -> exists d, data = JDict d.
Proof.
  destruct data; cbn; try discriminate. intros _. now eexists.
Qed.

Section Normalisation.
Context {B : Builtins}.

(** The [try] block on a dict, value by value. *)
Lemma normalize_dict (d : list (pystr * json)) (client : option pystr)
    (c : columns) :
  normalize (JDict d) client = Ok c <->
  exists v_server v_status v_exit v_duration v_timestamp n_exit n_duration,
    dict_lookup (lit "server") d = Some v_server /\
    dict_lookup (lit "status") d = Some v_status /\
    dict_lookup (lit "exit_code") d = Some v_exit /\
    dict_lookup (lit "duration_seconds") d = Some v_duration /\
    dict_lookup (lit "timestamp") d = Some v_timestamp /\
    py_int v_exit = Ok n_exit /\
    py_int v_duration = Ok n_duration /\
    c = mkColumns (slice_to 255 (py_str v_server))
                  (slice_to 64 (py_str v_status))
                  n_exit n_duration
                  (reboot_flag (dict_get (lit "reboot_required") d))
                  (slice_to 64 (py_str v_timestamp))
                  (json_dumps (JDict d)) client.
Proof.
  unfold normalize, py_getitem, py_get. split.
  - destruct (dict_lookup (lit "server") d) as [v1|]; [|discriminate].
    destruct (dict_lookup (lit "status") d) as [v2|]; [|discriminate].
    destruct (dict_lookup (lit "exit_code") d) as [v3|]; [|discriminate].
    cbn [rbind]. destruct (py_int v3) as [n3|] eqn:E3; [|discriminate].
    destruct (dict_lookup (lit "duration_seconds") d) as [v4|]; [|discriminate].
    cbn [rbind]. destruct (py_int v4) as [n4|] eqn:E4; [|discriminate].
    cbn [rbind].
    destruct (dict_lookup (lit "timestamp") d) as [v5|]; [|discriminate].
    cbn [rbind]. intros H. injection H as <-.
    exists v1, v2, v3, v4, v5, n3, n4. repeat split; assumption.
  - intros (v1 & v2 & v3 & v4 & v5 & n3 & n4 & H1 & H2 & H3 & H4 & H5 & E3 & E4 & ->).
    rewrite H1, H2, H3. cbn [rbind]. rewrite E3, H4. cbn [rbind].
    rewrite E4. cbn [rbind]. rewrite H5. reflexivity.
Qed.

(** A value of [exit_code] or [duration_seconds] that [int] refuses makes
    the [try] block raise. *)
Lemma normalize_not_integer (d : list (pystr * json)) (client : option pystr)
    (k : pystr) (v : json) (e : exn) :
  k = lit "exit_code" \/ k = lit "duration_seconds" ->
  dict_lookup k d = Some v -> py_int v = Raise e ->
  exists e', normalize (JDict d) client = Raise e'.
Proof.
  intros Hk Hv He.
  destruct (normalize (JDict d) client) as [c|e'] eqn:N; [|now exists e'].
  apply normalize_dict in N
    as (v1 & v2 & v3 & v4 & v5 & n3 & n4 & H1 & H2 & H3 & H4 & H5 & E3 & E4 & _).
  destruct Hk as [-> | ->]; congruence.
Qed.

End Normalisation.

(* ================================================================= *)
(** ** Rejections and the table *)

Section Rejections.
Context {B : Builtins}.

(** None of the grounds of [rejection_reason] lets a request through. *)
Lemma rejection_reason_not_accepted (API_KEY : pystr) (req : request)
    (db db' : table) :
  rejection_reason API_KEY req ->
  ingest_report API_KEY req db <> (Ok OkTrue, db').
Proof.
  intros Hwhy Hacc.
  apply ingest_report_accepted in Hacc
    as (data & c & Hkey & Hbody & Hreq & Hnorm & _).
  destruct Hwhy as [-> | Hbad | Hnone | d k Hd Hk Hmem | d k v e Hd Hk Hv He].
  - rewrite require_api_key_unset in Hkey. discriminate.
  - destruct API_KEY as [|a s].
    + rewrite require_api_key_unset in Hkey. discriminate.
    + apply require_api_key_ok in Hkey; [contradiction | discriminate].
  - congruence.
  - rewrite Hd in Hbody. injection Hbody as <-.
    rewrite not_in_dict in Hreq.
    assert (Hall : filter (fun k => negb (dict_mem k d)) required = [])
      by congruence.
    apply (proj1 (filter_nil_forall _ _)) with (x := k) in Hall; [|exact Hk].
    rewrite Hmem in Hall. discriminate.
  - rewrite Hd in Hbody. injection Hbody as <-.
    destruct (normalize_not_integer d (client_host req) Hk Hv He) as [e' He'].
    congruence.
Qed.

(** C2: a request that ends in a failure of any kind leaves the table as
    it was, so the number of rows is the one before; an accepted request
    appends exactly one row; and each of the grounds of [rejection_reason]
    (unconfigured secret, bad or missing credential, malformed JSON, a
    missing required field, an [exit_code] or [duration_seconds] that
    [int] refuses) does end in a failure. *)
Theorem C2_rejection_leaves_table (API_KEY : pystr) (req : request)
    (db : table) :
  (forall f db', ingest_report API_KEY req db = (Raise f, db') ->
     db' = db /\ length (rows db') = length (rows db))
  /\ (forall db', ingest_report API_KEY req db = (Ok OkTrue, db') ->
        (exists r, rows db' = rows db ++ [r])
        /\ length (rows db') = S (length (rows db)))
  /\ (rejection_reason API_KEY req ->
        exists f, ingest_report API_KEY req db = (Raise f, db)).
Proof.
  repeat split.
  - eapply ingest_report_rejected; eassumption.
  - apply ingest_report_rejected in H. now rewrite H.
  - apply ingest_report_accepted in H as (data & c & _ & _ & _ & _ & ->).
    cbn [rows]. eexists. reflexivity.
  - apply ingest_report_accepted in H as (data & c & _ & _ & _ & _ & ->).
    cbn [rows]. rewrite length_app. cbn [length]. lia.
  - intros Hwhy.
    destruct (ingest_report API_KEY req db) as [[[]|f] db'] eqn:E.
    + exfalso. exact (@rejection_reason_not_accepted _ _ db db' Hwhy E).
    + exists f. apply ingest_report_rejected in E. now rewrite E.
Qed.

End Rejections.

(* ================================================================= *)
(** ** The [reboot_required] flag *)

Lemma float_one_is_one : float_eq_int float_one 1 = true.
Proof. reflexivity. Qed.

(** C4, as the code has it: the flag is 1 exactly for the boolean true,
    the integer 1, a float whose value is one, and the strings "true" and
    "True"; it is 0 for every other value, among them false, 0, "yes" and
    the [None] that [get] gives for an absent key. *)
Theorem C4_reboot_flag_values (v : json) :
  (reboot_flag v = 1 <->
     v = JBool true \/ v = JInt 1 \/ v = JStr (lit "true")
     \/ v = JStr (lit "True")
     \/ exists f, v = JFloat f /\ float_eq_int f 1 = true)
  /\ (reboot_flag v = 1 \/ reboot_flag v = 0)
  /\ (forall (k : pystr) (d : list (pystr * json)),
        dict_lookup k d = None -> reboot_flag (dict_get k d) = 0).
Proof.
  split; [|split].
  - unfold reboot_flag, py_in. cbn [existsb]. split.
    + destruct v as [|b|n|f|s|l|d]; cbn [both_nan py_eq orb Z.b2z].
      * discriminate.
      * destruct b; cbn; [auto | discriminate].
      * destruct (Z.eqb_spec n 1) as [->|Hn]; cbn [orb]; [auto | discriminate].
      * replace (match f with FNaN => false | _ => false end) with false
          by now destruct f.
        cbn [orb].
        destruct (float_eq_int f 1) eqn:E; cbn [orb]; [|discriminate].
        intros _. do 4 right. now exists f.
      * destruct (pystr_eqb s (lit "true")) eqn:E1.
        { apply pystr_eqb_eq in E1 as ->. auto. }
        destruct (pystr_eqb s (lit "True")) eqn:E2.
        { apply pystr_eqb_eq in E2 as ->. auto. }
        discriminate.
      * discriminate.
      * discriminate.
    + intros [-> | [-> | [-> | [-> | [f [-> Hf]]]]]]; try reflexivity.
      cbn [both_nan py_eq Z.b2z].
      replace (match f with FNaN => false | _ => false end) with false
        by now destruct f.
      now rewrite Hf.
  - unfold reboot_flag.
    destruct (py_in v _); auto.
  - intros k d Hk. now rewrite (dict_get_absent _ _ Hk).
Qed.

(** C4, as stated, fails on the JSON number [1.0]: it is none of the four
    literals and the flag is 1. *)
Lemma C4_float_one_sets_flag :
  reboot_flag (JFloat float_one) = 1
  /\ JFloat float_one <> JBool true
  /\ JFloat float_one <> JInt 1
  /\ JFloat float_one <> JStr (lit "true")
  /\ JFloat float_one <> JStr (lit "True").
Proof. repeat split; discriminate. Qed.

(* ================================================================= *)
(** ** The order of the listing *)

Lemma str_compare_refl (s : pystr) : str_compare s s = Eq.
Proof.
  induction s as [|a s IH]; cbn [str_compare]; [reflexivity|].
  now rewrite N.compare_refl.
Qed.

Lemma str_compare_eq (s t : pystr) : str_compare s t = Eq -> s = t.
Proof.
  revert t. induction s as [|a s IH]; intros [|b t]; cbn [str_compare];
    try discriminate; [reflexivity|].
  destruct (N.compare_spec a b) as [->|Hlt|Hgt]; try discriminate.
  intros H. f_equal. now apply IH.
Qed.

Lemma str_compare_antisym (s t : pystr) :
  str_compare t s = CompOpp (str_compare s t).
Proof.
  revert t. induction s as [|a s IH]; intros [|b t]; cbn [str_compare];
    try reflexivity.
  rewrite (N.compare_antisym a b).
  destruct (N.compare a b); cbn [CompOpp]; auto.
Qed.

Lemma str_compare_lt_trans (s t u : pystr) :
  str_compare s t = Lt -> str_compare t u = Lt -> str_compare s u = Lt.
Proof.
  revert t u. induction s as [|a s IH]; intros [|b t] [|c u];
    cbn [str_compare]; try discriminate; try reflexivity.
  destruct (N.compare_spec a b) as [->|Hab|Hab]; try discriminate.
  - destruct (N.compare_spec b c) as [->|Hbc|Hbc]; try discriminate;
      [apply IH | reflexivity].
  - intros _.
    destruct (N.compare_spec b c) as [->|Hbc|Hbc]; try discriminate.
    + intros _. now rewrite (proj2 (N.compare_lt_iff a c) Hab).
    + intros _. rewrite (proj2 (N.compare_lt_iff a c)); [reflexivity|].
      now apply N.lt_trans with b.
Qed.

Section Ordering.
Context {B : Builtins}.

Lemma key_compare_refl (a : option pystr) : key_compare a a = Eq.
Proof. destruct a; cbn; [apply str_compare_refl | reflexivity]. Qed.

Lemma key_compare_eq (a b : option pystr) : key_compare a b = Eq -> a = b.
Proof.
  destruct a, b; cbn; try discriminate; [|reflexivity].
  intros H. f_equal. now apply str_compare_eq.
Qed.

Lemma key_compare_antisym (a b : option pystr) :
  key_compare b a = CompOpp (key_compare a b).
Proof. destruct a, b; cbn; auto using str_compare_antisym. Qed.

Lemma key_compare_gt_trans (a b c : option pystr) :
  key_compare a b = Gt -> key_compare b c = Gt -> key_compare a c = Gt.
Proof.
  intros Hab Hbc.
  rewrite key_compare_antisym. rewrite (key_compare_antisym b a) in Hab.
  rewrite (key_compare_antisym c b) in Hbc.
  destruct a, b, c; cbn in *; try discriminate; try reflexivity.
  rewrite (str_compare_lt_trans p1 p0 p); [reflexivity | |].
  - now destruct (str_compare p1 p0).
  - now destruct (str_compare p0 p).
Qed.

(** [desc_le] is a total preorder. *)
Lemma desc_le_refl (r : report) : desc_le r r = true.
Proof. unfold desc_le. rewrite key_compare_refl. apply Z.leb_refl. Qed.

Lemma desc_le_total (r r' : report) : desc_le r r' = false -> desc_le r' r = true.
Proof.
  unfold desc_le. rewrite (key_compare_antisym (sort_key r) (sort_key r')).
  destruct (key_compare (sort_key r) (sort_key r')); cbn [CompOpp];
    try congruence.
  intros H. apply Z.leb_gt in H. apply Z.leb_le. lia.
Qed.

Lemma desc_le_trans (a b c : report) :
  desc_le a b = true -> desc_le b c = true -> desc_le a c = true.
Proof.
  unfold desc_le.
  destruct (key_compare (sort_key a) (sort_key b)) eqn:Hab; try discriminate;
    destruct (key_compare (sort_key b) (sort_key c)) eqn:Hbc; try discriminate.
  - apply key_compare_eq in Hab. rewrite Hab, Hbc.
    intros H1 H2. apply Z.leb_le in H1, H2. apply Z.leb_le. lia.
  - apply key_compare_eq in Hab. now rewrite Hab, Hbc.
  - apply key_compare_eq in Hbc. now rewrite <- Hbc, Hab.
  - now rewrite (key_compare_gt_trans _ _ _ Hab Hbc).
Qed.

Lemma insert_sorted_perm (r : report) (l : list report) :
  Permutation (insert_sorted r l) (r :: l).
Proof.
  induction l as [|x l IH]; cbn [insert_sorted]; [reflexivity|].
  destruct (desc_le r x); [reflexivity|].
  rewrite IH. apply perm_swap.
Qed.

Lemma order_by_perm (l : list report) : Permutation (order_by l) l.
Proof.
  induction l as [|r l IH]; cbn; [reflexivity|].
  unfold order_by in IH. rewrite insert_sorted_perm. now constructor.
Qed.

Lemma order_by_length (l : list report) : length (order_by l) = length l.
Proof. apply Permutation_length, order_by_perm. Qed.

Lemma insert_sorted_sorted (r : report) (l : list report) :
  StronglySorted (fun a b => desc_le a b = true) l ->
  StronglySorted (fun a b => desc_le a b = true) (insert_sorted r l).
Proof.
  induction 1 as [|x l Hs IH Hx]; cbn [insert_sorted].
  - repeat constructor.
  - destruct (desc_le r x) eqn:E.
    + constructor; [now constructor|]. constructor; [exact E|].
      eapply Forall_impl; [|exact Hx]. intros y Hy.
      now apply desc_le_trans with x.
    + constructor; [exact IH|].
      apply (Permutation_Forall (Permutation_sym (insert_sorted_perm r l))).
      constructor; [now apply desc_le_total | exact Hx].
Qed.

Lemma order_by_sorted (l : list report) :
  StronglySorted (fun a b => desc_le a b = true) (order_by l).
Proof.
  induction l as [|r l IH]; cbn; [constructor|].
  now apply insert_sorted_sorted.
Qed.

End Ordering.

(* ================================================================= *)
(** ** [GET /api/v1/reports]: limit and order *)

Section Listing.
Context {B : Builtins}.

(** The listing is the head of the sorted matching rows. *)
Lemma list_reports_unfold (server : option pystr) (limit : option Z)
    (db : table) :
  list_reports server limit db =
  firstn (Z.to_nat (effective_limit limit)) (order_by (matching_rows server db)).
Proof.
  unfold list_reports, effective_limit, select_recent, matching_rows.
  destruct server as [[|c s]|]; reflexivity.
Qed.

Lemma matching_rows_In (server : option pystr) (db : table) (r : report) :
  In r (matching_rows server db) <-> In r (rows db) /\ matches server r.
Proof.
  unfold matching_rows, matches.
  destruct server as [[|c s]|]; cbn [truthy].
  - split; [intros H; split; [exact H | discriminate] | tauto].
  - rewrite filter_In, pystr_eqb_eq. split.
    + intros [H1 H2]. split; [exact H1|]. intros _. now rewrite H2.
    + intros [H1 H2]. split; [exact H1|]. specialize (H2 eq_refl). congruence.
  - split; [intros H; split; [exact H | discriminate] | tauto].
Qed.

Lemma effective_limit_bounds (limit : option Z) :
  1 <= effective_limit limit <= 1000.
Proof. unfold effective_limit. lia. Qed.

(** C6: the limit in force is [max(1, min(n, 1000))], with [n = 100] when
    the parameter is omitted; the listing is the first that many rows of
    the sorted matching rows.  So [limit=5000] gives at most 1000 rows, and
    a zero or negative limit gives exactly one row of a non-empty table. *)
Theorem C6_limit_clamp (server : option pystr) (limit : option Z) (db : table) :
  list_reports server limit db =
    firstn (Z.to_nat (Z.max 1 (Z.min (match limit with Some n => n | None => 100 end) 1000)))
           (order_by (matching_rows server db))
  /\ length (list_reports server limit db) =
       Nat.min (Z.to_nat (effective_limit limit))
               (length (matching_rows server db))
  /\ effective_limit None = 100
  /\ (length (list_reports server (Some 5000%Z) db) <= 1000)%nat
  /\ (forall n, n <= 0 -> effective_limit (Some n) = 1)
  /\ (forall n, n <= 0 -> rows db <> [] ->
        length (list_reports None (Some n) db) = 1%nat).
Proof.
  split; [apply list_reports_unfold|]. split; [|split; [reflexivity|split; [|split]]].
  - rewrite list_reports_unfold, length_firstn, order_by_length. reflexivity.
  - rewrite list_reports_unfold, length_firstn. cbn. lia.
  - intros n Hn. unfold effective_limit. lia.
  - intros n Hn Hrows. rewrite list_reports_unfold, length_firstn, order_by_length.
    replace (effective_limit (Some n)) with 1 by (unfold effective_limit; lia).
    cbn [matching_rows]. destruct (rows db); [congruence|]. cbn. lia.
Qed.

(** In a sorted list, an element whose position is among the first [n]
    has every element that sorts strictly before it in front of it. *)
Lemma sorted_firstn_before (l : list report) (n : nat) (a b : report) :
  StronglySorted (fun x y => desc_le x y = true) l ->
  In a l -> In b (firstn n l) -> desc_le b a = false ->
  before a b (firstn n l).
Proof.
  intros Hs. revert n. induction Hs as [|x l Hs IH Hx]; intros n Ha Hb Hlt.
  - destruct Ha.
  - destruct n as [|n]; [destruct Hb|]. cbn [firstn] in *.
    destruct Hb as [<-|Hb].
    + exfalso. destruct Ha as [<-|Ha].
      * rewrite desc_le_refl in Hlt. discriminate.
      * rewrite Forall_forall in Hx. rewrite (Hx a Ha) in Hlt. discriminate.
    + destruct Ha as [<-|Ha].
      * apply in_split in Hb as (l1 & l2 & ->). now exists [], l1, l2.
      * destruct (IH n Ha Hb Hlt) as (l1 & l2 & l3 & ->).
        now exists (x :: l1), l2, l3.
Qed.

(** C5, as the code has it: of two stored rows that the filter keeps and
    whose timestamps [datetime] reads, the one with the greater text
    [YYYY-MM-DD HH:MM:SS] comes first, and with equal texts the one with
    the larger id comes first, wherever the two stand in the table:
    whenever the listing holds the second row it holds the first one in
    front of it. *)
Theorem C5_later_first (server : option pystr) (limit : option Z) (db : table)
    (r1 r2 : report) :
  In r1 (rows db) -> matches server r1 ->
  In r2 (list_reports server limit db) ->
  later_text r1 r2 \/ (same_text r1 r2 /\ id r2 < id r1) ->
  before r1 r2 (list_reports server limit db).
Proof.
  intros H1 Hm H2 Hord. rewrite list_reports_unfold in *.
  apply sorted_firstn_before.
  - apply order_by_sorted.
  - apply (Permutation_in _ (Permutation_sym (order_by_perm _))).
    now apply matching_rows_In.
  - exact H2.
  - unfold desc_le. destruct Hord as [(k1 & k2 & E1 & E2 & Hgt) | [(k & E1 & E2) Hid]].
    + rewrite E1, E2. cbn [key_compare].
      rewrite (str_compare_antisym k1 k2), Hgt. reflexivity.
    + rewrite E1, E2, key_compare_refl. apply Z.leb_gt. exact Hid.
Qed.

End Listing.

Section ListingScenarios.
Import Sample.
#[local] Existing Instance Reference.builtins.

(** The two reports of the specification, posted in either order: the one
    of January 2nd is listed first. *)
Example jan2_first_either_order :
  list_reports None None (after [post jan1; post jan2])
    = [stored 2 jan2; stored 1 jan1]
  /\ list_reports None None (after [post jan2; post jan1])
    = [stored 1 jan2; stored 2 jan1].
Proof. split; vm_compute; reflexivity. Qed.

(** C5 at the table where the earlier report was posted first. *)
Lemma C5_later_first_witness :
  before (stored 2 jan2) (stored 1 jan1)
    (list_reports None None (after [post jan1; post jan2])).
Proof.
  apply (@C5_later_first Reference.builtins None None
           (after [post jan1; post jan2]) (stored 2 jan2) (stored 1 jan1)).
  - vm_compute. right. left. reflexivity.
  - intros H. discriminate H.
  - vm_compute. right. left. reflexivity.
  - left. exists (lit "2024-01-02 00:00:00"), (lit "2024-01-01 00:00:00").
    repeat split; vm_compute; reflexivity.
Defined.

End ListingScenarios.

(* ================================================================= *)
(** ** [GET /]: the machine filter *)

Lemma insert_asc_In (s x : pystr) (l : list pystr) :
  In x (insert_asc s l) <-> x = s \/ In x l.
Proof.
  induction l as [|y l IH]; cbn [insert_asc In].
  - intuition congruence.
  - destruct (str_compare s y); cbn [In]; rewrite ?IH; intuition congruence.
Qed.

Section Presentation.
Context {B : Builtins}.

(** The selector lists exactly the machines that have a stored report. *)
Lemma distinct_servers_In (s : pystr) (db : table) :
  In s (distinct_servers db) <->
  exists r, In r (rows db) /\ server (cols r) = s.
Proof.
  unfold distinct_servers.
  assert (H : forall l, In s (fold_right insert_asc [] l) <-> In s l).
  { induction l as [|x l IH]; cbn [fold_right]; [reflexivity|].
    rewrite insert_asc_In, IH. cbn [In]. intuition congruence. }
  rewrite H, nodup_In, in_map_iff.
  split; intros (r & H1 & H2); exists r; now split.
Qed.

Lemma known_In (s : pystr) (l : list pystr) :
  known (Some s) l = true <-> In s l.
Proof.
  cbn [known]. rewrite existsb_exists. split.
  - intros (x & Hx & E). apply pystr_eqb_eq in E. now subst.
  - intros H. exists s. split; [exact H | apply pystr_eqb_refl].
Qed.

(** C7: a filter that names no stored machine is dropped: the page shows
    the records of the unfiltered page, the first hundred of the sorted
    table, with the same selector and no machine selected. *)
Theorem C7_unknown_filter (s : pystr) (db : table) :
  ~ In s (distinct_servers db) ->
  items (index (Some s) db) = items (index None db)
  /\ servers (index (Some s) db) = servers (index None db)
  /\ truthy (selected_server (index (Some s) db)) = false
  /\ (s <> [] -> index (Some s) db = index None db)
  /\ items (index None db) = firstn 100 (order_by (rows db)).
Proof.
  intros Hs.
  assert (Hk : known (Some s) (distinct_servers db) = false).
  { destruct (known (Some s) (distinct_servers db)) eqn:E; [|reflexivity].
    apply known_In in E. contradiction. }
  unfold index. destruct s as [|c s].
  - cbn [truthy andb items servers selected_server]. repeat split.
    intros H. congruence.
  - cbn [truthy andb]. rewrite Hk. cbn [negb truthy items servers selected_server].
    repeat split.
Qed.

(** C10: an empty [server] parameter is no filter: the listing and the
    page hold the records they hold without the parameter. *)
Theorem C10_empty_filter (limit : option Z) (db : table) :
  list_reports (Some []) limit db = list_reports None limit db
  /\ items (index (Some []) db) = items (index None db)
  /\ servers (index (Some []) db) = servers (index None db).
Proof. repeat split. Qed.

End Presentation.

Section PresentationScenarios.
Import Sample.
#[local] Existing Instance Reference.builtins.

(** C7 at a table with one machine and a filter that names another. *)
Lemma C7_unknown_filter_witness :
  items (index (Some (lit "ghost")) (after [post host1]))
    = items (index None (after [post host1]))
  /\ servers (index (Some (lit "ghost")) (after [post host1]))
    = servers (index None (after [post host1]))
  /\ truthy (selected_server (index (Some (lit "ghost")) (after [post host1])))
    = false
  /\ (lit "ghost" <> [] ->
      index (Some (lit "ghost")) (after [post host1])
      = index None (after [post host1]))
  /\ items (index None (after [post host1]))
    = firstn 100 (order_by (rows (after [post host1]))).
Proof.
  apply (@C7_unknown_filter Reference.builtins (lit "ghost") (after [post host1])).
  vm_compute. intros [H|[]]. discriminate H.
Defined.

(** A known machine is kept as the selection and filters the records. *)
Example known_filter_selects :
  selected_server (index (Some (lit "alpha")) (after [post jan1; post jan2]))
    = Some (lit "alpha")
  /\ items (index (Some (lit "alpha")) (after [post jan1; post jan2]))
    = [stored 1 jan1]
  /\ servers (index None (after [post jan2; post jan1]))
    = [lit "alpha"; lit "beta"].
Proof. repeat split; vm_compute; reflexivity. Qed.

End PresentationScenarios.

(* ================================================================= *)
(** ** The decoder reads back what the encoder writes *)

(** *** Strings *)

Lemma hex_val_hex_digit (n : N) :
  (n < 16)%N -> hex_val (hex_digit n) = Some n.
Proof.
  intros Hn. unfold hex_digit, hex_val, is_digit.
  destruct (N.ltb_spec n 10) as [H|H].
  - replace ((48 <=? 48 + n) && (48 + n <=? 57))%N with true.
    + f_equal. lia.
    + symmetry. apply andb_true_iff. split; apply N.leb_le; lia.
  - replace ((48 <=? 87 + n) && (87 + n <=? 57))%N with false.
    + replace ((97 <=? 87 + n) && (87 + n <=? 102))%N with true.
      * f_equal. lia.
      * symmetry. apply andb_true_iff. split; apply N.leb_le; lia.
    + symmetry. apply andb_false_iff. right. apply N.leb_gt. lia.
Qed.

Lemma hex4_control (c : N) :
  (c < 32)%N -> hex4 48 48 (hex_digit (c / 16)) (hex_digit (c mod 16)) = Some c.
Proof.
  intros Hc. unfold hex4.
  assert (H1 : (c / 16 < 16)%N).
  { apply N.Div0.div_lt_upper_bound. lia. }
  assert (H2 : (c mod 16 < 16)%N) by (apply N.mod_lt; lia).
  rewrite (hex_val_hex_digit H1), (hex_val_hex_digit H2).
  change (hex_val 48) with (Some 0%N). cbv iota. f_equal.
  pose proof (N.Div0.div_mod c 16). lia.
Qed.

(** A character below U+0020 is no high surrogate, so the escape that
    follows it is read on its own. *)
Lemma scanstring_u_control (u : N) (h1 h2 h3 h4 : N) (rest : pystr) :
  hex4 h1 h2 h3 h4 = Some u -> (u < 32)%N ->
  scanstring (92%N :: 117%N :: h1 :: h2 :: h3 :: h4 :: rest)
  = cons_char u (scanstring rest).
Proof.
  intros Hh Hu. cbn [scanstring N.eqb Pos.eqb]. rewrite Hh.
  assert (Hs : is_high_surrogate u = false).
  { unfold is_high_surrogate. apply andb_false_iff. left. apply N.leb_gt. lia. }
  rewrite Hs. cbn [andb].
  destruct rest as [|a [|b [|c [|d [|e [|f [|g r]]]]]]]; reflexivity.
Qed.

(** The decoder undoes the escape of one character. *)
Lemma scanstring_escape_char (c : N) (s : pystr) :
  scanstring (escape_char c ++ s) = cons_char c (scanstring s).
Proof.
  unfold escape_char.
  destruct (N.eqb_spec c 34) as [->|H34]; [reflexivity|].
  destruct (N.eqb_spec c 92) as [->|H92]; [reflexivity|].
  destruct (N.eqb_spec c 8) as [->|H8]; [reflexivity|].
  destruct (N.eqb_spec c 12) as [->|H12]; [reflexivity|].
  destruct (N.eqb_spec c 10) as [->|H10]; [reflexivity|].
  destruct (N.eqb_spec c 13) as [->|H13]; [reflexivity|].
  destruct (N.eqb_spec c 9) as [->|H9]; [reflexivity|].
  destruct (N.ltb_spec c 32) as [Hlt|Hge].
  - cbn [app]. apply scanstring_u_control; [now apply hex4_control | exact Hlt].
  - cbn [app scanstring].
    rewrite (proj2 (N.eqb_neq c 34) H34), (proj2 (N.eqb_neq c 92) H92).
    now rewrite (proj2 (N.ltb_ge c 32) Hge).
Qed.

Lemma scanstring_encode (s rest : pystr) :
  scanstring (flat_map escape_char s ++ 34%N :: rest) = Some (s, rest).
Proof.
  induction s as [|c s IH]; [reflexivity|].
  cbn [flat_map]. rewrite <- app_assoc, scanstring_escape_char, IH. reflexivity.
Qed.

Lemma encode_basestring_app (s rest : pystr) :
  encode_basestring s ++ rest
  = 34%N :: flat_map escape_char s ++ 34%N :: rest.
Proof.
  unfold encode_basestring. cbn [app]. now rewrite <- app_assoc.
Qed.

(** *** Number tokens *)

Lemma number_end_head (c : N) (rest : pystr) :
  number_end (c :: rest) = true ->
  is_digit c = false /\ (c =? 46)%N = false /\ (c =? 101)%N = false
  /\ (c =? 69)%N = false /\ (c =? 43)%N = false /\ (c =? 45)%N = false.
Proof.
  cbn [number_end]. rewrite negb_true_iff, !orb_false_iff. tauto.
Qed.

Lemma terminated_number_end (rest : pystr) :
  terminated rest = true -> number_end rest = true.
Proof.
  destruct rest as [|c rest]; [reflexivity|]. cbn [terminated number_end].
  rewrite !orb_true_iff, !N.eqb_eq. intros [[-> | ->] | ->]; reflexivity.
Qed.

(** A scan that stops inside the token, or at its end, stops at the same
    place when the token is followed by a character that ends it. *)
Lemma span_digits_app (s rest d r : pystr) :
  number_end rest = true -> span_digits s = (d, r) ->
  span_digits (s ++ rest) = (d, r ++ rest).
Proof.
  intros Hend. revert d r. induction s as [|c s IH]; intros d r.
  - cbn [span_digits app]. intros H. injection H as <- <-.
    destruct rest as [|c rest]; [reflexivity|]. cbn [span_digits app].
    now rewrite (proj1 (number_end_head c rest Hend)).
  - cbn [span_digits app]. destruct (is_digit c); [|now intros [= <- <-]].
    destruct (span_digits s) as [d' r']. intros [= <- <-].
    now rewrite (IH d' r' eq_refl).
Qed.

Lemma scan_sign_app (s rest a r : pystr) :
  number_end rest = true -> scan_sign s = (a, r) ->
  scan_sign (s ++ rest) = (a, r ++ rest).
Proof.
  intros Hend. destruct s as [|c s]; cbn [scan_sign app].
  - intros [= <- <-]. destruct rest as [|c rest]; [reflexivity|].
    cbn [scan_sign app].
    destruct (number_end_head c rest Hend) as (_ & _ & _ & _ & _ & ->).
    reflexivity.
  - destruct (c =? 45)%N; now intros [= <- <-].
Qed.

Lemma scan_int_app (s rest a r : pystr) :
  number_end rest = true -> scan_int s = Some (a, r) ->
  scan_int (s ++ rest) = Some (a, r ++ rest).
Proof.
  intros Hend. destruct s as [|c s]; cbn [scan_int app]; [discriminate|].
  destruct ((49 <=? c) && (c <=? 57))%N.
  - destruct (span_digits s) as [d' r'] eqn:E. intros [= <- <-].
    now rewrite (span_digits_app _ _ Hend E).
  - destruct (c =? 48)%N; [now intros [= <- <-] | discriminate].
Qed.

Lemma scan_frac_app (s rest a r : pystr) :
  number_end rest = true -> scan_frac s = (a, r) ->
  scan_frac (s ++ rest) = (a, r ++ rest).
Proof.
  intros Hend. destruct s as [|c [|c' s]]; cbn [scan_frac app].
  - intros [= <- <-]. destruct rest as [|c [|c' rest]]; try reflexivity.
    cbn [scan_frac app].
    destruct (number_end_head c _ Hend) as (_ & -> & _). reflexivity.
  - intros [= <- <-]. destruct rest as [|c' rest]; [reflexivity|].
    cbn [scan_frac app].
    destruct (number_end_head c' _ Hend) as (-> & _).
    now rewrite andb_false_r.
  - destruct ((c =? 46)%N && is_digit c'); [|now intros [= <- <-]].
    destruct (span_digits s) as [d' r'] eqn:E. intros [= <- <-].
    now rewrite (span_digits_app _ _ Hend E).
Qed.

Lemma scan_exp_app (s rest a r : pystr) :
  number_end rest = true -> scan_exp s = (a, r) ->
  scan_exp (s ++ rest) = (a, r ++ rest).
Proof.
  intros Hend. destruct s as [|e s]; cbn [scan_exp app].
  - intros [= <- <-]. destruct rest as [|c rest]; [reflexivity|].
    cbn [scan_exp app].
    destruct (number_end_head c rest Hend) as (_ & _ & -> & -> & _).
    reflexivity.
  - destruct ((e =? 101) || (e =? 69))%N; [|now intros [= <- <-]].
    destruct s as [|c t]; cbn [app].
    + cbn [span_digits]. intros [= <- <-].
      destruct rest as [|c rest]; [reflexivity|].
      destruct (number_end_head c rest Hend) as (Hd & _ & _ & _ & Hp & Hm).
      rewrite Hp, Hm. cbn [orb span_digits]. rewrite Hd. reflexivity.
    + destruct ((c =? 43) || (c =? 45))%N.
      * destruct (span_digits t) as [d' r'] eqn:E.
        rewrite (span_digits_app _ _ Hend E).
        destruct d'; now intros [= <- <-].
      * destruct (span_digits (c :: t)) as [d' r'] eqn:E.
        change (c :: t ++ rest) with ((c :: t) ++ rest).
        rewrite (span_digits_app _ _ Hend E).
        destruct d'; now intros [= <- <-].
Qed.

(** A token read to a certain point is read to the same point when it is
    followed by a character that ends it. *)
Lemma match_number_app (s rest tok r : pystr) (fl : bool) :
  number_end rest = true -> match_number s = Some (tok, fl, r) ->
  match_number (s ++ rest) = Some (tok, fl, r ++ rest).
Proof.
  intros Hend. unfold match_number.
  destruct (scan_sign s) as [sg s1] eqn:E1.
  rewrite (scan_sign_app _ _ Hend E1).
  destruct (scan_int s1) as [[ip s2]|] eqn:E2; [|discriminate].
  rewrite (scan_int_app _ _ Hend E2).
  destruct (scan_frac s2) as [fr s3] eqn:E3.
  rewrite (scan_frac_app _ _ Hend E3).
  destruct (scan_exp s3) as [ex s4] eqn:E4.
  rewrite (scan_exp_app _ _ Hend E4).
  now intros [= <- <- <-].
Qed.

(** *** Integers *)

Lemma nzhead_cases (d : Decimal.uint) :
  Decimal.nzhead d = Decimal.Nil \/ nonzero_head (Decimal.nzhead d).
Proof.
  induction d; cbn [Decimal.nzhead nonzero_head]; auto.
Qed.

Lemma to_uint_nonzero_head (p : positive) : nonzero_head (Pos.to_uint p).
Proof.
  pose proof (DecimalPos.Unsigned.to_of (Pos.to_uint p)) as H.
  rewrite DecimalPos.Unsigned.of_to in H. cbn [N.to_uint] in H.
  rewrite H. unfold Decimal.unorm.
  destruct (nzhead_cases (Pos.to_uint p)) as [E|E].
  - exfalso. apply (DecimalPos.Unsigned.to_uint_nonzero p).
    rewrite H. unfold Decimal.unorm. now rewrite E.
  - destruct (Decimal.nzhead (Pos.to_uint p)); cbn in E |- *; tauto.
Qed.

Lemma digits_of_uint_digits (d : Decimal.uint) :
  span_digits (digits_of_uint d) = (digits_of_uint d, []).
Proof.
  induction d; cbn [digits_of_uint span_digits]; [reflexivity| ..];
    change (is_digit _) with true; cbv iota; now rewrite IHd.
Qed.

(** The text of an integer is an integer token, read to its end. *)
Lemma match_number_int_repr (n : Z) :
  match_number (int_repr n) = Some (int_repr n, false, []).
Proof.
  assert (Hpos : forall p,
    match_number (digits_of_uint (Pos.to_uint p))
    = Some (digits_of_uint (Pos.to_uint p), false, [])
    /\ scan_int (digits_of_uint (Pos.to_uint p))
       = Some (digits_of_uint (Pos.to_uint p), [])).
  { intros p. pose proof (to_uint_nonzero_head p) as Hh.
    destruct (Pos.to_uint p) as [|d|d|d|d|d|d|d|d|d|d]; try contradiction;
      unfold match_number; cbn [digits_of_uint scan_sign scan_int];
      change (_ =? 45)%N with false; cbv iota;
      change ((49 <=? _) && (_ <=? 57))%N with true; cbv iota;
      rewrite digits_of_uint_digits; cbn; rewrite ?digits_of_uint_digits;
      cbn; rewrite ?app_nil_r; now split. }
  destruct n as [|p|p]; [reflexivity | apply Hpos |].
  unfold int_repr, match_number. cbn [lit map list_ascii_of_string app scan_sign].
  change (N_of_ascii "-" =? 45)%N with true. cbv iota.
  rewrite (proj2 (Hpos p)). cbn. now rewrite app_nil_r.
Qed.

Lemma digits_value_pos (d : Decimal.uint) (a : positive) :
  fold_left (fun acc c => acc * 10 + (Z.of_N c - 48)) (digits_of_uint d) (Zpos a)
  = Zpos (Pos.of_uint_acc d a).
Proof.
  revert a. induction d; intros a; cbn [digits_of_uint fold_left Pos.of_uint_acc];
    [reflexivity| ..];
    match goal with
    | |- fold_left _ _ ?z = Zpos (Pos.of_uint_acc _ ?q) =>
        replace z with (Zpos q) by (cbn [Z.of_N]; lia)
    end; apply IHd.
Qed.

Lemma digits_value_uint (d : Decimal.uint) :
  digits_value (digits_of_uint d) = Z.of_N (Pos.of_uint d).
Proof.
  unfold digits_value.
  induction d; cbn [digits_of_uint fold_left Pos.of_uint]; [reflexivity| ..];
    try exact IHd;
    match goal with
    | |- fold_left _ _ ?z = Z.of_N (N.pos (Pos.of_uint_acc _ ?q)) =>
        replace z with (Zpos q) by (cbn [Z.of_N]; lia)
    end; apply digits_value_pos.
Qed.

(** [int] reads the text of an integer back as that integer. *)
Lemma int_of_token_int_repr (n : Z) : int_of_token (int_repr n) = n.
Proof.
  destruct n as [|p|p]; [reflexivity| |].
  - unfold int_repr, int_of_token.
    pose proof (to_uint_nonzero_head p) as Hh.
    pose proof (digits_value_uint (Pos.to_uint p)) as Hv.
    rewrite DecimalPos.Unsigned.of_to in Hv.
    destruct (Pos.to_uint p) as [|d|d|d|d|d|d|d|d|d|d]; try contradiction;
      cbn [digits_of_uint] in *; change (_ =? 45)%N with false; cbv iota;
      exact Hv.
  - unfold int_repr. cbn [lit map list_ascii_of_string app int_of_token].
    change (N_of_ascii "-" =? 45)%N with true. cbv iota.
    rewrite digits_value_uint, DecimalPos.Unsigned.of_to. reflexivity.
Qed.

(** *** Where a value starts *)

Lemma scan_int_head (s : pystr) (x : pystr * pystr) :
  scan_int s = Some x ->
  match s with c :: _ => is_digit c = true | [] => False end.
Proof.
  destruct s as [|c s]; cbn [scan_int]; [discriminate|].
  unfold is_digit.
  destruct ((49 <=? c) && (c <=? 57))%N eqn:E.
  - intros _. apply andb_true_iff in E as [E1 E2].
    apply N.leb_le in E1. rewrite E2, andb_true_r. apply N.leb_le. lia.
  - destruct (N.eqb_spec c 48) as [->|]; [reflexivity | discriminate].
Qed.

Lemma match_number_head (s : pystr) (x : pystr * bool * pystr) :
  match_number s = Some x -> number_head s = true.
Proof.
  unfold match_number. destruct s as [|c s]; cbn [scan_sign number_head].
  - cbn [scan_int]. discriminate.
  - destruct (N.eqb_spec c 45) as [->|Hc].
    + destruct (scan_int s) as [y|] eqn:E; [|discriminate]. intros _.
      apply scan_int_head in E. destruct s as [|c' s]; [contradiction|].
      now rewrite E, orb_true_r.
    + destruct (scan_int (c :: s)) as [y|] eqn:E; [|discriminate]. intros _.
      apply scan_int_head in E. now rewrite E.
Qed.

Lemma number_head_value_start (s : pystr) :
  number_head s = true -> value_start s = true.
Proof.
  destruct s as [|c s]; cbn [number_head value_start]; [discriminate|].
  unfold is_digit, is_ws. intros H.
  assert (Hc : (48 <= c <= 57)%N \/ c = 45%N).
  { apply orb_true_iff in H as [H|H].
    - apply andb_true_iff in H as [H1 H2]. apply N.leb_le in H1, H2. lia.
    - apply andb_true_iff in H as [H _]. apply N.eqb_eq in H. now right. }
  repeat match goal with
  | |- context [(c =? ?k)%N] =>
      rewrite (proj2 (N.eqb_neq c k)) by lia
  end. reflexivity.
Qed.

Lemma value_start_app (s rest : pystr) :
  value_start s = true -> value_start (s ++ rest) = true.
Proof. destruct s; [discriminate | trivial]. Qed.

Lemma skip_ws_value_start (s : pystr) : value_start s = true -> skip_ws s = s.
Proof.
  destruct s as [|c s]; [reflexivity|]. cbn [value_start skip_ws].
  destruct (is_ws c); [discriminate | reflexivity].
Qed.

Lemma is_prefix_head (a c : N) (p s : pystr) :
  a <> c -> is_prefix (a :: p) (c :: s) = false.
Proof.
  intros H. cbn [is_prefix]. now rewrite (proj2 (N.eqb_neq a c) H).
Qed.

Section ScanNumber.
Context {B : Builtins}.

(** At a number the scanner goes to the number token: the head is no
    quote, brace or bracket, and no literal begins like a number. *)
Lemma scan_once_number (fuel : nat) (s : pystr) :
  number_head s = true -> scan_once (S fuel) s = scan_number s.
Proof.
  destruct s as [|c s]; cbn [number_head]; [discriminate|].
  intros H. cbn [scan_once].
  assert (Hc : (48 <= c <= 57)%N
               \/ (c = 45%N /\ exists c' s', s = c' :: s' /\ (48 <= c' <= 57)%N)).
  { unfold is_digit in H. apply orb_true_iff in H as [H|H].
    - apply andb_true_iff in H as [H1 H2]. apply N.leb_le in H1, H2. lia.
    - apply andb_true_iff in H as [H1 H2]. apply N.eqb_eq in H1. right.
      split; [exact H1|]. destruct s as [|c' s']; [discriminate|].
      exists c', s'. split; [reflexivity|].
      apply andb_true_iff in H2 as [H2 H3]. apply N.leb_le in H2, H3. lia. }
  rewrite (proj2 (N.eqb_neq c 34)), (proj2 (N.eqb_neq c 123)),
    (proj2 (N.eqb_neq c 91)) by lia.
  unfold literal. cbn [lit map list_ascii_of_string].
  destruct Hc as [Hc | (-> & c' & s' & -> & Hc')].
  - rewrite !is_prefix_head by (cbn; lia). reflexivity.
  - rewrite !is_prefix_head by (cbn; lia).
    cbn [is_prefix].
    replace (N_of_ascii "I" =? c')%N with false
      by (symmetry; apply N.eqb_neq; cbn; lia).
    rewrite andb_false_l, andb_false_r. reflexivity.
Qed.

(** The text of an integer reads back as the integer. *)
Lemma scan_once_int (fuel : nat) (n : Z) (rest : pystr) :
  terminated rest = true ->
  scan_once (S fuel) (int_repr n ++ rest) = Some (JInt n, rest).
Proof.
  intros Hend. apply terminated_number_end in Hend.
  pose proof (match_number_app _ _ Hend (match_number_int_repr n)) as H.
  rewrite scan_once_number by exact (match_number_head _ H).
  unfold scan_number. rewrite H, int_of_token_int_repr. reflexivity.
Qed.

Lemma float_eqb_eq (f g : pyfloat) : float_eqb f g = true -> f = g.
Proof.
  destruct f, g; cbn [float_eqb]; try discriminate; try reflexivity.
  - intros H. apply Bool.eqb_prop in H. now subst.
  - intros H. apply Bool.eqb_prop in H. now subst.
  - rewrite !andb_true_iff. intros [[H1 H2] H3].
    apply Bool.eqb_prop in H1. apply Pos.eqb_eq in H2. apply Z.eqb_eq in H3.
    now subst.
Qed.

(** The text of a float that [float_ok] accepts reads back as the float. *)
Lemma scan_once_float (fuel : nat) (f : pyfloat) (rest : pystr) :
  float_ok f = true -> terminated rest = true ->
  scan_once (S fuel) (floatstr f ++ rest) = Some (JFloat f, rest).
Proof.
  intros Hok Hend.
  assert (Hfin : forall g, g = f -> floatstr g = float_repr g ->
            match match_number (float_repr g) with
            | Some (tok, true, []) =>
                pystr_eqb tok (float_repr g) && float_eqb (float_of_str tok) g
            | _ => false
            end = true ->
            scan_once (S fuel) (floatstr g ++ rest) = Some (JFloat g, rest)).
  { intros g _ Hs Hm. rewrite Hs.
    destruct (match_number (float_repr g)) as [[[tok fl] r]|] eqn:E;
      [|discriminate].
    destruct fl; [|discriminate]. destruct r; [|discriminate].
    apply andb_true_iff in Hm as [Ht Hf].
    apply pystr_eqb_eq in Ht. apply float_eqb_eq in Hf.
    apply terminated_number_end in Hend.
    pose proof (match_number_app _ _ Hend E) as H.
    rewrite scan_once_number by exact (match_number_head _ H).
    unfold scan_number. rewrite H. cbn [app]. now rewrite Hf. }
  destruct f as [s|s| |s m e].
  - now apply Hfin.
  - destruct s; reflexivity.
  - reflexivity.
  - now apply Hfin.
Qed.

End ScanNumber.

(** *** Values *)

(** Induction on a value with the hypothesis for every item of a list
    and every value of a dict. *)
Lemma json_nested_ind (P : json -> Prop) :
  P JNull -> (forall b, P (JBool b)) -> (forall n, P (JInt n)) ->
  (forall f, P (JFloat f)) -> (forall s, P (JStr s)) ->
  (forall l, Forall P l -> P (JList l)) ->
  (forall d, Forall (fun kv => P (snd kv)) d -> P (JDict d)) ->
  forall v, P v.
Proof.
  intros Hnull Hbool Hint Hfloat Hstr Hlist Hdict.
  fix IH 1.
  intros [|b|n|f|s|l|d];
    [apply Hnull | apply Hbool | apply Hint | apply Hfloat | apply Hstr | |].
  - apply Hlist. induction l as [|x l IHl]; constructor; [apply IH | exact IHl].
  - apply Hdict. induction d as [|[k x] d IHd]; constructor;
      [apply IH | exact IHd].
Qed.

(** Storing pairs with distinct keys one after the other keeps them all,
    in their order. *)
Lemma dict_set_fresh (k : pystr) (v : json) (d : list (pystr * json)) :
  existsb (pystr_eqb k) (map fst d) = false -> dict_set k v d = d ++ [(k, v)].
Proof.
  induction d as [|[k' v'] d IH]; cbn [map fst existsb dict_set app];
    [reflexivity|].
  rewrite orb_false_iff. intros [H1 H2].
  replace (pystr_eqb k' k) with false.
  - now rewrite IH.
  - symmetry. apply pystr_eqb_neq. apply pystr_eqb_neq in H1. congruence.
Qed.

Lemma existsb_app_false {A} (p : A -> bool) (l l' : list A) :
  existsb p (l ++ l') = false <-> existsb p l = false /\ existsb p l' = false.
Proof. rewrite existsb_app. apply orb_false_iff. Qed.

Lemma dict_of_pairs_distinct (d : list (pystr * json)) :
  distinct (map fst d) = true -> dict_of_pairs d = d.
Proof.
  unfold dict_of_pairs.
  assert (H : forall acc,
    distinct (map fst d) = true ->
    (forall k, In k (map fst d) -> existsb (pystr_eqb k) (map fst acc) = false) ->
    fold_left (fun d kv => dict_set (fst kv) (snd kv) d) d acc = acc ++ d).
  { induction d as [|[k v] d IH]; intros acc Hd Hacc; cbn [fold_left].
    - now rewrite app_nil_r.
    - cbn [map fst distinct] in Hd. apply andb_true_iff in Hd as [Hk Hd].
      apply negb_true_iff in Hk. cbn [fst snd].
      rewrite dict_set_fresh by (apply Hacc; now left).
      rewrite IH; [now rewrite <- app_assoc | exact Hd |].
      intros k' Hk'. rewrite map_app. apply existsb_app_false. split.
      + apply Hacc. now right.
      + cbn [map fst existsb]. rewrite orb_false_r.
        destruct (pystr_eqb k' k) eqn:E; [|reflexivity].
        apply pystr_eqb_eq in E. subst k'.
        assert (existsb (pystr_eqb k) (map fst d) = true); [|congruence].
        apply existsb_exists. exists k. split; [exact Hk' | apply pystr_eqb_refl]. }
  intros Hd. now apply (H [] Hd).
Qed.

Section RoundTrip.
Context {B : Builtins}.

Lemma json_dumps_value_start (v : json) :
  floats_ok v = true -> value_start (json_dumps v) = true.
Proof.
  destruct v as [|b|n|f|s|l|d]; cbn [floats_ok json_dumps]; intros Hok;
    try reflexivity.
  - destruct b; reflexivity.
  - apply number_head_value_start.
    exact (match_number_head _ (match_number_int_repr n)).
  - destruct f as [s|s| |s m e]; try reflexivity; try (destruct s; reflexivity);
      cbn [floatstr float_ok] in *; apply number_head_value_start;
      (destruct (match_number (float_repr _)) as [x|] eqn:E; [|discriminate]);
      exact (match_number_head _ E).
Qed.

Lemma terminated_cases (rest : pystr) :
  terminated rest = true ->
  rest = [] \/ exists c r, rest = c :: r /\ (c = 44 \/ c = 93 \/ c = 125)%N.
Proof.
  destruct rest as [|c r]; [now left|]. cbn [terminated].
  rewrite !orb_true_iff, !N.eqb_eq. intros H. right. exists c, r. tauto.
Qed.

Lemma lit_comma_app (t : pystr) : lit ", " ++ t = 44%N :: 32%N :: t.
Proof. reflexivity. Qed.

Lemma skip_ws_comma (t : pystr) : skip_ws (44%N :: t) = 44%N :: t.
Proof. reflexivity. Qed.

Lemma skip_ws_space (t : pystr) : skip_ws (32%N :: t) = skip_ws t.
Proof. reflexivity. Qed.

Lemma join_cons2 (sep p q : pystr) (ps : list pystr) :
  join sep (p :: q :: ps) = p ++ sep ++ join sep (q :: ps).
Proof. reflexivity. Qed.

Lemma join_value_start (sep p tail : pystr) (ps : list pystr) :
  value_start p = true -> value_start (join sep (p :: ps) ++ tail) = true.
Proof.
  intros H. destruct ps; [|rewrite join_cons2, <- app_assoc];
    now apply value_start_app.
Qed.

(** The items of a non-empty list, from the first one to the bracket. *)
Lemma scan_items_dumps (l : list json) :
  Forall reads_back l ->
  forallb unique_keys l = true -> forallb floats_ok l = true -> l <> [] ->
  forall (fuel : nat) (rest : pystr),
    (fold_right (fun x n => S (json_size x + n)) O l <= fuel)%nat ->
    scan_items fuel (join (lit ", ") (map json_dumps l) ++ 93%N :: rest)
    = Some (l, rest).
Proof.
  induction l as [|x xs IH]; [congruence|].
  intros Hall Hk Hf _ fuel rest Hfuel.
  inversion Hall as [|? ? Hx Hxs]; subst.
  cbn [forallb] in Hk, Hf.
  apply andb_true_iff in Hk as [Hkx Hkxs]. apply andb_true_iff in Hf as [Hfx Hfxs].
  cbn [fold_right] in Hfuel. destruct fuel as [|fuel]; [lia|].
  cbn [scan_items map]. destruct xs as [|y ys].
  - cbn [join map].
    rewrite (Hx Hkx Hfx fuel (93%N :: rest)) by (reflexivity || (cbn in Hfuel; lia)).
    reflexivity.
  - cbn [map]. rewrite join_cons2, <- !app_assoc.
    rewrite (Hx Hkx Hfx fuel) by (reflexivity || lia).
    rewrite lit_comma_app, skip_ws_comma.
    change (44 =? 93)%N with false. change (44 =? 44)%N with true. cbv iota.
    rewrite skip_ws_space.
    rewrite skip_ws_value_start.
    + change (json_dumps y :: map json_dumps ys) with (map json_dumps (y :: ys)).
      rewrite IH; [reflexivity | exact Hxs | exact Hkxs | exact Hfxs
                  | discriminate | lia].
    + apply join_value_start, json_dumps_value_start.
      cbn [forallb] in Hfxs. now apply andb_true_iff in Hfxs.
Qed.

Lemma member_text_app (k : pystr) (x : json) (tail : pystr) :
  member_text (k, x) ++ tail
  = 34%N :: flat_map escape_char k ++ 34%N :: 58%N :: 32%N :: json_dumps x ++ tail.
Proof.
  unfold member_text. rewrite <- app_assoc, encode_basestring_app.
  now rewrite <- app_assoc.
Qed.

Lemma skip_ws_colon (t : pystr) : skip_ws (58%N :: t) = 58%N :: t.
Proof. reflexivity. Qed.

Lemma member_text_value_start (kv : pystr * json) :
  value_start (member_text kv) = true.
Proof. destruct kv. reflexivity. Qed.

(** The members of a non-empty dict, from the first key to the brace. *)
Lemma scan_pairs_dumps (d : list (pystr * json)) :
  Forall (fun kv => reads_back (snd kv)) d ->
  forallb (fun kv : pystr * json => unique_keys (snd kv)) d = true ->
  forallb (fun kv : pystr * json => floats_ok (snd kv)) d = true -> d <> [] ->
  forall (fuel : nat) (rest : pystr),
    (fold_right (fun (kv : pystr * json) n => S (json_size (snd kv) + n)) O d
     <= fuel)%nat ->
    scan_pairs fuel (join (lit ", ") (map member_text d) ++ 125%N :: rest)
    = Some (d, rest).
Proof.
  induction d as [|[k x] d IH]; [congruence|].
  intros Hall Hk Hf _ fuel rest Hfuel.
  inversion Hall as [|? ? Hx Hxs]; subst. cbn [snd] in Hx.
  cbn [forallb snd] in Hk, Hf.
  apply andb_true_iff in Hk as [Hkx Hkxs]. apply andb_true_iff in Hf as [Hfx Hfxs].
  cbn [fold_right snd] in Hfuel. destruct fuel as [|fuel]; [lia|].
  assert (Hstep : forall tail,
    terminated tail = true ->
    scan_pairs (S fuel) (member_text (k, x) ++ tail)
    = match skip_ws tail with
      | c :: r4 =>
          if (c =? 125)%N then Some ([(k, x)], r4)
          else if (c =? 44)%N then
            match scan_pairs fuel (skip_ws r4) with
            | Some (kvs, r5) => Some ((k, x) :: kvs, r5)
            | None => None
            end
          else None
      | [] => None
      end).
  { intros tail Htail. rewrite member_text_app. cbn [scan_pairs].
    change (34 =? 34)%N with true. cbv iota.
    rewrite scanstring_encode, skip_ws_colon.
    change (58 =? 58)%N with true. cbv iota.
    rewrite skip_ws_space, skip_ws_value_start
      by (apply value_start_app, json_dumps_value_start, Hfx).
    rewrite (Hx Hkx Hfx fuel tail) by (assumption || lia). reflexivity. }
  cbn [map]. destruct d as [|[k' y] d].
  - cbn [join map]. rewrite Hstep by reflexivity. reflexivity.
  - cbn [map]. rewrite join_cons2, <- !app_assoc, lit_comma_app.
    rewrite Hstep by reflexivity. rewrite skip_ws_comma.
    change (44 =? 125)%N with false. change (44 =? 44)%N with true. cbv iota.
    rewrite skip_ws_space, skip_ws_value_start
      by apply join_value_start, member_text_value_start.
    change (member_text (k', y) :: map member_text d)
      with (map member_text ((k', y) :: d)).
    rewrite IH; [reflexivity | exact Hxs | exact Hkxs | exact Hfxs
                | discriminate | lia].
Qed.

Lemma json_dumps_list_app (l : list json) (rest : pystr) :
  json_dumps (JList l) ++ rest
  = 91%N :: join (lit ", ") (map json_dumps l) ++ 93%N :: rest.
Proof.
  cbn [json_dumps]. change (lit "[") with [91%N]. change (lit "]") with [93%N].
  cbn [app]. now rewrite <- app_assoc.
Qed.

Lemma json_dumps_dict_app (d : list (pystr * json)) (rest : pystr) :
  json_dumps (JDict d) ++ rest
  = 123%N :: join (lit ", ") (map member_text d) ++ 125%N :: rest.
Proof.
  cbn [json_dumps]. change (lit "{") with [123%N]. change (lit "}") with [125%N].
  cbn [app]. now rewrite <- app_assoc.
Qed.

Lemma value_start_head (s : pystr) :
  value_start s = true ->
  exists c t, s = c :: t /\ (c =? 93)%N = false /\ (c =? 125)%N = false.
Proof.
  destruct s as [|c t]; [discriminate|]. cbn [value_start].
  rewrite !andb_true_iff, !negb_true_iff. intros [[_ H1] H2]. now exists c, t.
Qed.

(** The decoder reads the text of every value back as the value. *)
Lemma scan_once_dumps (v : json) : reads_back v.
Proof.
  induction v as [|b|n|f|s|l IHl|d IHd] using json_nested_ind;
    intros Hk Hf fuel rest Hfuel Hend;
    (destruct fuel as [|fuel]; [cbn in Hfuel; lia|]).
  - reflexivity.
  - destruct b; reflexivity.
  - now apply scan_once_int.
  - now apply scan_once_float.
  - cbn [json_dumps]. rewrite encode_basestring_app. cbn [scan_once].
    change (34 =? 34)%N with true. cbv iota. now rewrite scanstring_encode.
  - rewrite json_dumps_list_app. cbn [scan_once].
    change (91 =? 34)%N with false. change (91 =? 123)%N with false.
    change (91 =? 91)%N with true. cbv iota.
    cbn [unique_keys floats_ok json_size] in Hk, Hf, Hfuel.
    destruct l as [|x xs]; [reflexivity|].
    assert (Hs : value_start (join (lit ", ") (map json_dumps (x :: xs))
                              ++ 93%N :: rest) = true).
    { cbn [map]. apply join_value_start, json_dumps_value_start.
      cbn [forallb] in Hf. now apply andb_true_iff in Hf. }
    rewrite (skip_ws_value_start _ Hs).
    destruct (value_start_head _ Hs) as (c & t & Et & Hc & _).
    rewrite Et, Hc, <- Et.
    rewrite scan_items_dumps; [reflexivity | exact IHl | exact Hk | exact Hf
                              | discriminate | lia].
  - rewrite json_dumps_dict_app. cbn [scan_once].
    change (123 =? 34)%N with false. change (123 =? 123)%N with true. cbv iota.
    cbn [unique_keys floats_ok json_size] in Hk, Hf, Hfuel.
    apply andb_true_iff in Hk as [Hd Hk].
    destruct d as [|kv d]; [reflexivity|].
    assert (Hs : value_start (join (lit ", ") (map member_text (kv :: d))
                              ++ 125%N :: rest) = true).
    { cbn [map]. apply join_value_start, member_text_value_start. }
    rewrite (skip_ws_value_start _ Hs).
    destruct (value_start_head _ Hs) as (c & t & Et & _ & Hc).
    rewrite Et, Hc, <- Et.
    rewrite scan_pairs_dumps; [| exact IHd | exact Hk | exact Hf
                              | discriminate | lia].
    now rewrite dict_of_pairs_distinct.
Qed.

End RoundTrip.

Section Loads.
Context {B : Builtins}.

Lemma value_start_length (s : pystr) :
  value_start s = true -> (1 <= length s)%nat.
Proof. destruct s; [discriminate | cbn; lia]. Qed.

(** The text of a value has at least as many characters as the scanner
    takes steps on it, so the fuel of [json_loads] is enough. *)
Lemma json_size_le_length (v : json) :
  floats_ok v = true -> (json_size v <= length (json_dumps v))%nat.
Proof.
  induction v as [|b|n|f|s|l IHl|d IHd] using json_nested_ind; intros Hf;
    try (apply value_start_length, json_dumps_value_start; exact Hf).
  - cbn [json_size json_dumps floats_ok] in *.
    change (lit "[") with [91%N]. change (lit "]") with [93%N].
    rewrite !length_app. cbn [length].
    enough (fold_right (fun x n => S (json_size x + n)) O l
            <= length (join (lit ", ") (map json_dumps l)) + 1)%nat by lia.
    induction l as [|x [|y ys] IH]; [cbn; lia | |].
    + inversion IHl as [|? ? Hx _]; subst. cbn [forallb] in Hf.
      apply andb_true_iff in Hf as [Hfx _]. specialize (Hx Hfx).
      cbn [fold_right map join]. lia.
    + inversion IHl as [|? ? Hx Hxs]; subst. cbn [forallb] in Hf.
      apply andb_true_iff in Hf as [Hfx Hfxs]. specialize (Hx Hfx).
      specialize (IH Hxs Hfxs). cbn [map] in *. rewrite join_cons2.
      rewrite !length_app. change (length (lit ", ")) with 2%nat.
      cbn [fold_right] in *. lia.
  - cbn [json_size floats_ok] in *.
    rewrite <- (app_nil_r (json_dumps (JDict d))), json_dumps_dict_app.
    cbn [length]. rewrite length_app. cbn [length].
    enough (fold_right (fun (kv : pystr * json) n => S (json_size (snd kv) + n)) O d
            <= length (join (lit ", ") (map member_text d)) + 1)%nat by lia.
    assert (Hm : forall k x, (length (json_dumps x) <= length (member_text (k, x)))%nat).
    { intros k x. unfold member_text. rewrite !length_app. lia. }
    induction d as [|[k x] [|[k' y] ys] IH]; [cbn; lia | |].
    + inversion IHd as [|? ? Hx _]; subst. cbn [forallb snd] in Hf, Hx.
      apply andb_true_iff in Hf as [Hfx _]. specialize (Hx Hfx).
      specialize (Hm k x). cbn [fold_right map join snd]. lia.
    + inversion IHd as [|? ? Hx Hxs]; subst. cbn [forallb snd] in Hf, Hx.
      apply andb_true_iff in Hf as [Hfx Hfxs]. specialize (Hx Hfx).
      specialize (IH Hxs Hfxs). specialize (Hm k x).
      cbn [map] in *. rewrite join_cons2.
      rewrite !length_app. change (length (lit ", ")) with 2%nat.
      cbn [fold_right snd] in *. lia.
Qed.

(** [json.loads(json.dumps(v, ensure_ascii=False))] is [v], for a value
    whose dicts have distinct keys and whose floats read back. *)
Lemma json_loads_dumps (v : json) :
  unique_keys v = true -> floats_ok v = true ->
  json_loads (json_dumps v) = Some v.
Proof.
  intros Hk Hf. unfold json_loads.
  rewrite (skip_ws_value_start _ (json_dumps_value_start v Hf)).
  pose proof (scan_once_dumps v) as H. unfold reads_back in H.
  specialize (H Hk Hf (S (length (json_dumps v))) []).
  rewrite app_nil_r in H. rewrite H; [reflexivity | | reflexivity].
  pose proof (json_size_le_length v Hf). lia.
Qed.

End Loads.

(** *** Deep equality *)

Lemma float_eq_refl (f : pyfloat) : float_is_nan f = false -> float_eq f f = true.
Proof.
  destruct f as [s|s| |s m e]; cbn [float_is_nan float_eq]; try discriminate;
    intros _; try reflexivity.
  - now destruct s.
  - rewrite Z.leb_refl, Z.sub_diag, Bool.eqb_reflx. cbn [andb].
    apply Z.eqb_eq. cbn. lia.
Qed.

Lemma dict_lookup_distinct (k : pystr) (x : json) (d : list (pystr * json)) :
  distinct (map fst d) = true -> In (k, x) d -> dict_lookup k d = Some x.
Proof.
  induction d as [|[k' y] d IH]; [intros _ []|].
  cbn [map fst distinct dict_lookup]. rewrite andb_true_iff, negb_true_iff.
  intros [Hk Hd] [E|Hin].
  - injection E as -> ->. now rewrite pystr_eqb_refl.
  - destruct (pystr_eqb k' k) eqn:E; [|now apply IH].
    apply pystr_eqb_eq in E. subst k'. exfalso.
    assert (existsb (pystr_eqb k) (map fst d) = true); [|congruence].
    apply existsb_exists. exists k. split; [|apply pystr_eqb_refl].
    apply in_map_iff. now exists (k, x).
Qed.

(** A value equals itself as an item of a list or a dict. *)
Lemma py_item_eq_refl (v : json) :
  unique_keys v = true -> both_nan v v || py_eq v v = true.
Proof.
  induction v as [|b|n|f|s|l IHl|d IHd] using json_nested_ind;
    cbn [unique_keys both_nan py_eq orb]; intros Hk; try reflexivity.
  - now destruct b.
  - apply Z.eqb_refl.
  - destruct f as [s|s| |s m e]; try reflexivity; cbn [orb];
      now apply float_eq_refl.
  - apply pystr_eqb_refl.
  - induction l as [|x l IH]; [reflexivity|].
    inversion IHl as [|? ? Hx Hxs]; subst. cbn [forallb] in Hk.
    apply andb_true_iff in Hk as [Hkx Hkl].
    rewrite (Hx Hkx). cbn [andb]. now apply IH.
  - rewrite Nat.eqb_refl. cbn [andb].
    apply andb_true_iff in Hk as [Hd Hk].
    assert (H : forall kvs, incl kvs d ->
      (fix eq_entries (kvs : list (pystr * json)) : bool :=
         match kvs with
         | [] => true
         | (k, x) :: kvs' =>
             match dict_lookup k d with
             | Some y => both_nan x y || py_eq x y
             | None => false
             end && eq_entries kvs'
         end) kvs = true).
    { induction kvs as [|[k x] kvs IH]; intros Hincl; [reflexivity|].
      assert (Hin : In (k, x) d) by (apply Hincl; now left).
      rewrite (dict_lookup_distinct k x d Hd Hin).
      rewrite Forall_forall in IHd. rewrite forallb_forall in Hk.
      pose proof (IHd (k, x) Hin (Hk _ Hin)) as Hx.
      cbn [snd] in Hx. rewrite Hx. cbn [andb].
      apply IH. intros kv Hkv. apply Hincl. now right. }
    apply H, incl_refl.
Qed.

(** Python's [==] holds between a dict and itself, NaNs or not. *)
Lemma py_eq_dict_refl (d : list (pystr * json)) :
  unique_keys (JDict d) = true -> py_eq (JDict d) (JDict d) = true.
Proof. intros Hk. exact (py_item_eq_refl (JDict d) Hk). Qed.

(* ================================================================= *)
(** ** What an accepted request stores *)

Lemma length_slice_to (n : nat) (s : pystr) : (length (slice_to n s) <= n)%nat.
Proof. unfold slice_to. rewrite length_firstn. lia. Qed.

Section Stored.
Context {B : Builtins}.

(** The row of an accepted request, column by column. *)
Lemma ingest_report_stored (API_KEY : pystr) (req : request) (db db' : table) :
  ingest_report API_KEY req db = (Ok OkTrue, db') ->
  exists d r,
    json_body req = Some (JDict d) /\
    _require_api_key API_KEY (x_api_key req) = Ok tt /\
    (forall k, In k required -> dict_mem k d = true) /\
    normalize (JDict d) (client_host req) = Ok (cols r) /\
    id r = Z.max (seq db) (max_rowid (rows db)) + 1 /\
    db' = mkTable (rows db ++ [r]) (id r) /\
    server (cols r) = slice_to 255 (py_str (dict_get (lit "server") d)) /\
    status (cols r) = slice_to 64 (py_str (dict_get (lit "status") d)) /\
    py_int (dict_get (lit "exit_code") d) = Ok (exit_code (cols r)) /\
    py_int (dict_get (lit "duration_seconds") d) = Ok (duration_seconds (cols r)) /\
    reboot_required (cols r) = reboot_flag (dict_get (lit "reboot_required") d) /\
    timestamp (cols r) = slice_to 64 (py_str (dict_get (lit "timestamp") d)) /\
    raw (cols r) = json_dumps (JDict d) /\
    ip (cols r) = client_host req.
Proof.
  intros Hacc.
  apply ingest_report_accepted in Hacc
    as (data & c & Hkey & Hbody & Hreq & Hnorm & ->).
  destruct (normalize_needs_dict _ _ Hnorm) as [d ->].
  exists d, (mkReport (Z.max (seq db) (max_rowid (rows db)) + 1) c).
  cbn [cols id].
  pose proof Hnorm as Hn. apply normalize_dict in Hn
    as (v1 & v2 & v3 & v4 & v5 & n3 & n4 & H1 & H2 & H3 & H4 & H5 & E3 & E4 & ->).
  cbn [server status exit_code duration_seconds reboot_required timestamp raw ip].
  rewrite (dict_lookup_get _ _ H1), (dict_lookup_get _ _ H2),
    (dict_lookup_get _ _ H3), (dict_lookup_get _ _ H4), (dict_lookup_get _ _ H5).
  repeat split; try assumption; try reflexivity.
  intros k Hk. rewrite not_in_dict in Hreq.
  assert (Hall : filter (fun k => negb (dict_mem k d)) required = [])
    by congruence.
  apply (proj1 (filter_nil_forall _ _)) with (x := k) in Hall; [|exact Hk].
  now apply negb_false_iff.
Qed.

(** C9: the stored [server] is the text of the input cut to its first 255
    characters, the stored [status] and [timestamp] the texts cut to their
    first 64; and a request with the right key whose [exit_code] or
    [duration_seconds] is refused by [int] ends with status 400 and the
    table as it was. *)
Theorem C9_truncation_and_integers (API_KEY : pystr) (req : request)
    (db : table) :
  (forall db', ingest_report API_KEY req db = (Ok OkTrue, db') ->
     exists d r,
       json_body req = Some (JDict d) /\ rows db' = rows db ++ [r] /\
       server (cols r) = firstn 255 (py_str (dict_get (lit "server") d)) /\
       (length (server (cols r)) <= 255)%nat /\
       status (cols r) = firstn 64 (py_str (dict_get (lit "status") d)) /\
       (length (status (cols r)) <= 64)%nat /\
       timestamp (cols r) = firstn 64 (py_str (dict_get (lit "timestamp") d)) /\
       (length (timestamp (cols r)) <= 64)%nat /\
       py_int (dict_get (lit "exit_code") d) = Ok (exit_code (cols r)) /\
       py_int (dict_get (lit "duration_seconds") d)
         = Ok (duration_seconds (cols r)))
  /\ (forall d k v e,
        _require_api_key API_KEY (x_api_key req) = Ok tt ->
        json_body req = Some (JDict d) ->
        k = lit "exit_code" \/ k = lit "duration_seconds" ->
        dict_lookup k d = Some v -> py_int v = Raise e ->
        status_of 201 (fst (ingest_report API_KEY req db)) = 400
        /\ snd (ingest_report API_KEY req db) = db).
Proof.
  split.
  - intros db' Hacc.
    destruct (ingest_report_stored _ _ _ Hacc)
      as (d & r & Hbody & _ & _ & _ & _ & -> & Hs & Hst & He & Hd & _ & Ht & _).
    exists d, r. cbn [rows]. rewrite Hs, Hst, Ht.
    repeat split; try assumption; try reflexivity; apply length_slice_to.
  - intros d k v e Hkey Hbody Hk Hv He.
    rewrite ingest_report_unfold, Hkey, Hbody, not_in_dict.
    destruct (filter (fun k0 => negb (dict_mem k0 d)) required); [|now split].
    destruct (normalize_not_integer d (client_host req) Hk Hv He) as [e' ->].
    now split.
Qed.

End Stored.

Section StoredScenarios.
Import Sample.
#[local] Existing Instance Reference.builtins.

(** What [int] takes and what it refuses, on the [exit_code] of a request
    that is otherwise the one of the specification. *)
Example exit_code_coercions :
  let with_exit v :=
    JDict [(lit "server", JStr (lit "host1"));
           (lit "timestamp", JStr (lit "2024-06-01T10:00:00"));
           (lit "status", JStr (lit "success"));
           (lit "exit_code", v);
           (lit "duration_seconds", JInt 120);
           (lit "reboot_required", JBool true);
           (lit "version", JStr (lit "1.0"))] in
  let outcome v :=
    (status_of 201 (fst (ingest_report secret (post (with_exit v)) (init_db None))),
     map (fun r => exit_code (cols r))
       (rows (snd (ingest_report secret (post (with_exit v)) (init_db None))))) in
  map outcome [JInt 3; JStr (lit " 12 "); JBool true; JStr (lit "abc"); JNull;
               JList []; JFloat FNaN]
  = [(201, [3]); (201, [12]); (201, [1]); (400, []); (400, []); (400, []);
     (400, [])].
Proof. vm_compute. reflexivity. Qed.

(** A long [server] is cut to 255 characters, a long [status] to 64. *)
Example long_fields_truncated :
  let long := repeat 120%N 300 in
  let data :=
    JDict [(lit "server", JStr long); (lit "timestamp", JStr long);
           (lit "status", JStr long); (lit "exit_code", JInt 0);
           (lit "duration_seconds", JInt 1); (lit "reboot_required", JInt 0);
           (lit "version", JInt 2)] in
  map (fun r => (length (server (cols r)), length (status (cols r)),
                 length (timestamp (cols r))))
    (rows (snd (ingest_report secret (post data) (init_db None))))
  = [(255, 64, 64)]%nat.
Proof. vm_compute. reflexivity. Qed.

End StoredScenarios.

(* ================================================================= *)
(** ** The [version] field *)

Lemma dict_lookup_set_other (k k0 : pystr) (v : json) (d : list (pystr * json)) :
  k <> k0 -> dict_lookup k (dict_set k0 v d) = dict_lookup k d.
Proof.
  intros Hne. induction d as [|[k' v'] d IH]; cbn [dict_set dict_lookup].
  - replace (pystr_eqb k0 k) with false; [reflexivity|].
    symmetry. apply pystr_eqb_neq. congruence.
  - destruct (pystr_eqb k' k0) eqn:E; cbn [dict_lookup].
    + apply pystr_eqb_eq in E. subst k'.
      replace (pystr_eqb k0 k) with false; [reflexivity|].
      symmetry. apply pystr_eqb_neq. congruence.
    + now rewrite IH.
Qed.

Lemma dict_lookup_set_same (k : pystr) (v : json) (d : list (pystr * json)) :
  dict_lookup k (dict_set k v d) = Some v.
Proof.
  induction d as [|[k' v'] d IH]; cbn [dict_set dict_lookup].
  - now rewrite pystr_eqb_refl.
  - destruct (pystr_eqb k' k) eqn:E; cbn [dict_lookup]; now rewrite E.
Qed.

Lemma dict_get_lookup (k : pystr) (d : list (pystr * json)) :
  dict_get k d = match dict_lookup k d with Some v => v | None => JNull end.
Proof.
  induction d as [|[k' v'] d IH]; cbn [dict_get dict_lookup]; [reflexivity|].
  now destruct (pystr_eqb k' k).
Qed.

Section Version.
Context {B : Builtins}.

(** No column but [raw] depends on the value of [version]. *)
Lemma normalize_version_only_raw (d : list (pystr * json)) (v : json)
    (client : option pystr) (c c' : columns) :
  normalize (JDict d) client = Ok c ->
  normalize (JDict (dict_set (lit "version") v d)) client = Ok c' ->
  c' = mkColumns (server c) (status c) (exit_code c) (duration_seconds c)
                 (reboot_required c) (timestamp c)
                 (json_dumps (JDict (dict_set (lit "version") v d))) (ip c).
Proof.
  intros H H'.
  apply normalize_dict in H
    as (v1 & v2 & v3 & v4 & v5 & n3 & n4 & H1 & H2 & H3 & H4 & H5 & E3 & E4 & ->).
  apply normalize_dict in H'
    as (w1 & w2 & w3 & w4 & w5 & m3 & m4 & G1 & G2 & G3 & G4 & G5 & F3 & F4 & ->).
  rewrite dict_lookup_set_other in G1, G2, G3, G4, G5 by discriminate.
  rewrite (dict_get_lookup _ (dict_set _ _ _)), dict_lookup_set_other
    by discriminate.
  rewrite <- dict_get_lookup.
  cbn [server status exit_code duration_seconds reboot_required timestamp ip].
  congruence.
Qed.

(** C8: on an object with the right key, the required names that are
    not keys are listed in the message of a 400 response, in the order of
    [required], and nothing is stored; an accepted object has a [version],
    whose value is in no column of the row but [raw]: the text in [raw]
    reads back as the object, [version] included, and another value of
    [version] would change [raw] alone. *)
Theorem C8_required_fields (API_KEY : pystr) (req : request) (db : table)
    (d : list (pystr * json)) :
  _require_api_key API_KEY (x_api_key req) = Ok tt ->
  json_body req = Some (JDict d) ->
  (forall k, In k (filter (fun k => negb (dict_mem k d)) required)
             <-> In k required /\ dict_mem k d = false)
  /\ (filter (fun k => negb (dict_mem k d)) required <> [] ->
        ingest_report API_KEY req db =
        (Raise (HTTPException 400
                  (Text (lit "Missing fields: "
                         ++ join (lit ", ")
                              (filter (fun k => negb (dict_mem k d)) required)))),
         db))
  /\ (forall db', ingest_report API_KEY req db = (Ok OkTrue, db') ->
        exists v r,
          dict_lookup (lit "version") d = Some v /\
          rows db' = rows db ++ [r] /\
          raw (cols r) = json_dumps (JDict d) /\
          (unique_keys (JDict d) = true -> floats_ok (JDict d) = true ->
             json_loads (raw (cols r)) = Some (JDict d)) /\
          (forall v' c',
             normalize (JDict (dict_set (lit "version") v' d)) (client_host req)
               = Ok c' ->
             server c' = server (cols r) /\ status c' = status (cols r) /\
             exit_code c' = exit_code (cols r) /\
             duration_seconds c' = duration_seconds (cols r) /\
             reboot_required c' = reboot_required (cols r) /\
             timestamp c' = timestamp (cols r) /\ ip c' = ip (cols r) /\
             raw c' = json_dumps (JDict (dict_set (lit "version") v' d)))).
Proof.
  intros Hkey Hbody. split; [|split].
  - intros k. rewrite filter_In, negb_true_iff. reflexivity.
  - intros Hmiss. rewrite ingest_report_unfold, Hkey, Hbody, not_in_dict.
    destruct (filter (fun k => negb (dict_mem k d)) required);
      [congruence | reflexivity].
  - intros db' Hacc.
    destruct (ingest_report_stored _ _ _ Hacc)
      as (d0 & r & Hbody' & _ & Hreq & Hnorm & _ & -> & _ & _ & _ & _ & _ & _
          & Hraw & _).
    assert (d0 = d) by congruence. subst d0.
    assert (Hv : dict_mem (lit "version") d = true).
    { apply Hreq. unfold required. cbn [In]. tauto. }
    apply dict_mem_lookup in Hv as [v Hv].
    exists v, r. cbn [rows].
    split; [exact Hv|]. split; [reflexivity|]. split; [exact Hraw|]. split.
    + intros Hk Hf. rewrite Hraw. now apply json_loads_dumps.
    + intros w c' Hn'.
      rewrite (normalize_version_only_raw _ _ _ Hnorm Hn'). cbn. tauto.
Qed.

End Version.

Section VersionScenarios.
Import Sample.
#[local] Existing Instance Reference.builtins.

(** C8 at the request of the specification, with every field present. *)
Lemma C8_required_fields_witness :
  (forall k, In k (filter (fun k => negb (dict_mem k
                 (match host1 with JDict d => d | _ => [] end))) required)
             <-> In k required
                 /\ dict_mem k (match host1 with JDict d => d | _ => [] end) = false)
  /\ ingest_report secret (post host1) (init_db None)
     = (Ok OkTrue, after [post host1])
  /\ json_loads (raw (cols (stored 1 host1))) = Some host1
  /\ dict_lookup (lit "version") (match host1 with JDict d => d | _ => [] end)
     = Some (JStr (lit "1.0")).
Proof.
  pose proof (@C8_required_fields Reference.builtins secret (post host1)
                (init_db None) (match host1 with JDict d => d | _ => [] end)
                eq_refl eq_refl) as (H1 & _ & _).
  split; [exact H1|]. repeat split; vm_compute; reflexivity.
Defined.

(** A request without [version] and [status] is turned down, with both
    names in the message. *)
Example missing_version_and_status :
  ingest_report secret
    (post (JDict [(lit "server", JStr (lit "host1"));
                  (lit "timestamp", JStr (lit "2024-06-01T10:00:00"));
                  (lit "exit_code", JInt 0);
                  (lit "duration_seconds", JInt 120);
                  (lit "reboot_required", JBool true)]))
    (init_db None)
  = (Raise (HTTPException 400 (Text (lit "Missing fields: status, version"))),
     init_db None).
Proof. vm_compute. reflexivity. Qed.

End VersionScenarios.

(* ================================================================= *)
(** ** A new report in the listing *)

Lemma max_rowid_ge (rs : list report) (x : report) :
  In x rs -> id x <= max_rowid rs.
Proof.
  induction rs as [|r rs IH]; [intros []|].
  cbn [max_rowid fold_right In]. fold (max_rowid rs).
  intros [<-|H]; [lia | specialize (IH H); lia].
Qed.

Lemma filter_length_perm {A} (p : A -> bool) (l l' : list A) :
  Permutation l l' -> length (filter p l) = length (filter p l').
Proof.
  induction 1 as [|x l l' _ IH|x y l|l l' l'' _ IH1 _ IH2]; cbn [filter].
  - reflexivity.
  - destruct (p x); cbn [length]; now rewrite IH.
  - destruct (p x), (p y); reflexivity.
  - now rewrite IH1.
Qed.

Lemma sorted_prefix_le {A} (R : A -> A -> Prop) (l1 l2 : list A) (a : A) :
  StronglySorted R (l1 ++ a :: l2) -> Forall (fun x => R x a) l1.
Proof.
  induction l1 as [|x l1 IH]; cbn [app]; intros H; [constructor|].
  inversion H as [|? ? Hs Hx]; subst. constructor.
  - rewrite Forall_forall in Hx. apply Hx, in_elt.
  - now apply IH.
Qed.

Lemma firstn_in_middle {A} (n : nat) (l1 l2 : list A) (a : A) :
  (length l1 < n)%nat -> In a (firstn n (l1 ++ a :: l2)).
Proof.
  revert n. induction l1 as [|x l1 IH]; intros [|n] H; cbn in *; try lia.
  - now left.
  - right. apply IH. lia.
Qed.

Section NewReport.
Context {B : Builtins}.

(** A row with an id above all stored ids is listed as soon as fewer
    rows than the limit sort before it. *)
Lemma new_row_listed (limit : option Z) (db : table) (r : report) :
  (forall x, In x (rows db) -> id x < id r) ->
  (length (rows_ahead r db) < Z.to_nat (effective_limit limit))%nat ->
  In r (list_reports None limit (mkTable (rows db ++ [r]) (id r))).
Proof.
  intros Hid Hahead. rewrite list_reports_unfold. cbn [matching_rows rows].
  pose proof (order_by_perm (rows db ++ [r])) as Hperm.
  pose proof (order_by_sorted (rows db ++ [r])) as Hsort.
  assert (Hin : In r (order_by (rows db ++ [r]))).
  { apply (Permutation_in _ (Permutation_sym Hperm)), in_elt. }
  apply in_split in Hin as (l1 & l2 & E). rewrite E in *.
  apply firstn_in_middle.
  assert (Hrows : Permutation (rows db) (l1 ++ l2)).
  { apply Permutation_cons_app_inv with r.
    rewrite Hperm. apply Permutation_cons_append. }
  assert (Hl1 : filter (fun x => negb (desc_le r x)) l1 = l1).
  { apply sorted_prefix_le in Hsort. rewrite Forall_forall in Hsort.
    apply forallb_filter_id. apply forallb_forall. intros x Hx.
    specialize (Hsort x Hx).
    assert (Hlt : id x < id r).
    { apply Hid. apply (Permutation_in _ (Permutation_sym Hrows)).
      apply in_or_app. now left. }
    unfold desc_le in *. rewrite (key_compare_antisym (sort_key x) (sort_key r)).
    destruct (key_compare (sort_key x) (sort_key r)); cbn [CompOpp];
      try reflexivity; try discriminate.
    apply Z.leb_le in Hsort. lia. }
  unfold rows_ahead in Hahead.
  rewrite (filter_length_perm _ Hrows), filter_app, length_app, Hl1 in Hahead.
  lia.
Qed.

End NewReport.

Section RoundTripClaim.
Context {B : Builtins}.

(** C1, as the code has it: an accepted payload [P] is stored as one row
    whose [server], [status], [exit_code], [duration_seconds],
    [reboot_required] and [timestamp] are the normalised fields of [P] and
    whose [raw] is the text [json.dumps(P)], which [json.loads] reads back
    as [P], equal to [P] under Python's [==].  The unfiltered listing holds
    that row whenever fewer stored rows than the limit in force sort before
    it, so whenever the table has no more rows than the limit. *)
Theorem C1_ingest_then_list (API_KEY : pystr) (req : request)
    (db db' : table) (P : json) (limit : option Z) :
  json_body req = Some P ->
  ingest_report API_KEY req db = (Ok OkTrue, db') ->
  exists d r,
    P = JDict d /\ rows db' = rows db ++ [r] /\
    server (cols r) = slice_to 255 (py_str (dict_get (lit "server") d)) /\
    status (cols r) = slice_to 64 (py_str (dict_get (lit "status") d)) /\
    py_int (dict_get (lit "exit_code") d) = Ok (exit_code (cols r)) /\
    py_int (dict_get (lit "duration_seconds") d)
      = Ok (duration_seconds (cols r)) /\
    reboot_required (cols r) = reboot_flag (dict_get (lit "reboot_required") d) /\
    timestamp (cols r) = slice_to 64 (py_str (dict_get (lit "timestamp") d)) /\
    raw (cols r) = json_dumps P /\
    (unique_keys P = true -> floats_ok P = true ->
       json_loads (raw (cols r)) = Some P
       /\ (forall P', json_loads (raw (cols r)) = Some P' -> py_eq P' P = true)) /\
    ((length (rows_ahead r db) < Z.to_nat (effective_limit limit))%nat ->
       In r (list_reports None limit db')) /\
    ((length (rows db') <= Z.to_nat (effective_limit limit))%nat ->
       In r (list_reports None limit db')).
Proof.
  intros Hbody Hacc.
  destruct (ingest_report_stored _ _ _ Hacc)
    as (d & r & Hbody' & _ & _ & _ & Hid & -> & Hs & Hst & He & Hd & Hr & Ht
        & Hraw & _).
  assert (P = JDict d) by congruence. subst P.
  exists d, r. cbn [rows].
  assert (Hlisted : (length (rows_ahead r db) < Z.to_nat (effective_limit limit))%nat ->
                    In r (list_reports None limit (mkTable (rows db ++ [r]) (id r)))).
  { apply new_row_listed. intros x Hx. apply max_rowid_ge in Hx. lia. }
  split; [reflexivity|]. split; [reflexivity|].
  split; [exact Hs|]. split; [exact Hst|]. split; [exact He|].
  split; [exact Hd|]. split; [exact Hr|]. split; [exact Ht|].
  split; [exact Hraw|]. split; [|split].
  - intros Hk Hf. rewrite Hraw, (json_loads_dumps _ Hk Hf).
    split; [reflexivity|]. intros P' [= <-]. now apply py_eq_dict_refl.
  - exact Hlisted.
  - intros Hlen. apply Hlisted. rewrite length_app in Hlen. cbn [length] in Hlen.
    unfold rows_ahead. pose proof (filter_length_le (fun x => negb (desc_le r x)) (rows db)).
    lia.
Qed.

End RoundTripClaim.

Section RoundTripScenarios.
Import Sample.
#[local] Existing Instance Reference.builtins.

(** The scenario of the specification: the request is accepted, and the
    listing for [host1] has one item with [exit_code] 0,
    [reboot_required] 1 and [status] "success". *)
Example spec_scenario :
  status_of 201 (fst (ingest_report secret (post host1) (init_db None))) = 201
  /\ map (fun r => (exit_code (cols r), reboot_required (cols r), status (cols r)))
       (list_reports (Some (lit "host1")) None (after [post host1]))
     = [(0, 1, lit "success")].
Proof. split; vm_compute; reflexivity. Qed.

(** C1 at the request of the specification, posted to the empty table. *)
Lemma C1_ingest_then_list_witness :
  exists d r,
    host1 = JDict d /\ rows (after [post host1]) = rows (init_db None) ++ [r] /\
    server (cols r) = slice_to 255 (py_str (dict_get (lit "server") d)) /\
    status (cols r) = slice_to 64 (py_str (dict_get (lit "status") d)) /\
    py_int (dict_get (lit "exit_code") d) = Ok (exit_code (cols r)) /\
    py_int (dict_get (lit "duration_seconds") d)
      = Ok (duration_seconds (cols r)) /\
    reboot_required (cols r) = reboot_flag (dict_get (lit "reboot_required") d) /\
    timestamp (cols r) = slice_to 64 (py_str (dict_get (lit "timestamp") d)) /\
    raw (cols r) = json_dumps host1 /\
    (unique_keys host1 = true -> floats_ok host1 = true ->
       json_loads (raw (cols r)) = Some host1
       /\ (forall P', json_loads (raw (cols r)) = Some P' -> py_eq P' host1 = true)) /\
    ((length (rows_ahead r (init_db None)) < Z.to_nat (effective_limit None))%nat ->
       In r (list_reports None None (after [post host1]))) /\
    ((length (rows (after [post host1])) <= Z.to_nat (effective_limit None))%nat ->
       In r (list_reports None None (after [post host1]))).
Proof.
  apply (@C1_ingest_then_list Reference.builtins secret (post host1)
           (init_db None) (after [post host1]) host1 None).
  - reflexivity.
  - vm_compute. reflexivity.
Defined.

(** C1, as stated, fails when the limit cuts the new row off: with a
    report of January 2nd in the table, a report of January 1st is accepted
    and a listing with [limit=1] returns the row of January 2nd only, whose
    [server] is not the one posted. *)
Lemma C1_new_report_not_listed :
  json_body (post jan1) = Some jan1
  /\ ingest_report secret (post jan1) (after [post jan2])
     = (Ok OkTrue, after [post jan2; post jan1])
  /\ list_reports None (Some 1) (after [post jan2; post jan1])
     = [stored 1 jan2]
  /\ server (cols (stored 1 jan2)) = lit "beta"
  /\ server (cols (stored 2 jan1)) = lit "alpha"
  /\ ~ In (stored 2 jan1)
        (list_reports None (Some 1) (after [post jan2; post jan1])).
Proof.
  repeat split; try (vm_compute; reflexivity).
  vm_compute. intros [H|[]]. discriminate H.
Qed.

(** Floats that the reference [repr] and [float] take there and back. *)
Example floats_read_back :
  floats_ok (JList [JFloat float_one; JFloat (FZero true); JFloat FNaN;
                    JFloat (FInf true);
                    JFloat (FFinite true 6755399441055744 (-49))]) = true
  /\ json_dumps (JList [JFloat float_one; JFloat (FZero true); JFloat FNaN;
                        JFloat (FInf true);
                        JFloat (FFinite true 6755399441055744 (-49))])
     = lit "[1.0, -0.0, NaN, -Infinity, -12.0]"
  /\ json_loads (lit "[1.0, -0.0, NaN, -Infinity, -12.0]")
     = Some (JList [JFloat float_one; JFloat (FZero true); JFloat FNaN;
                    JFloat (FInf true);
                    JFloat (FFinite true 6755399441055744 (-49))]).
Proof. repeat split; vm_compute; reflexivity. Qed.

(** A payload that holds a NaN is accepted, read back from [raw] as the
    same value, and equal to it: the NaN is an item of the dict. *)
Example nan_payload_round_trip :
  ingest_report secret (post with_nan) (init_db None)
    = (Ok OkTrue, after [post with_nan])
  /\ json_loads (raw (cols (stored 1 with_nan))) = Some with_nan
  /\ py_eq with_nan with_nan = true
  /\ py_eq (JFloat FNaN) (JFloat FNaN) = false.
Proof. repeat split; vm_compute; reflexivity. Qed.

End RoundTripScenarios.

(* ================================================================= *)
(** ** The order of the texts and the order of time *)

Module ReferenceOrder.
Import Reference.

Lemma digit_char_compare (x y : Z) :
  0 <= x -> 0 <= y ->
  (Z.to_N (48 + x) ?= Z.to_N (48 + y))%N = (x ?= y).
Proof.
  intros Hx Hy. destruct (Z.compare_spec x y) as [H|H|H].
  - subst. apply N.compare_refl.
  - apply N.compare_lt_iff. lia.
  - apply N.compare_gt_iff. lia.
Qed.

(** Two digits compare as the number they write. *)
Lemma pad2_compare (x y : Z) (r r' : pystr) :
  0 <= x <= 99 -> 0 <= y <= 99 ->
  str_compare (pad2 x ++ r) (pad2 y ++ r')
  = match x ?= y with
    | Eq => str_compare r r'
    | c => c
    end.
Proof.
  intros Hx Hy. unfold pad2. cbn [app str_compare].
  assert (Hdx : 0 <= x / 10) by (apply Z.div_pos; lia).
  assert (Hdy : 0 <= y / 10) by (apply Z.div_pos; lia).
  pose proof (Z.mod_pos_bound x 10 eq_refl) as Hmx.
  pose proof (Z.mod_pos_bound y 10 eq_refl) as Hmy.
  pose proof (Z.div_mod x 10 ltac:(lia)) as Ex.
  pose proof (Z.div_mod y 10 ltac:(lia)) as Ey.
  rewrite !digit_char_compare by lia.
  destruct (Z.compare_spec (x / 10) (y / 10)) as [H1|H1|H1];
    destruct (Z.compare_spec (x mod 10) (y mod 10)) as [H2|H2|H2];
    destruct (Z.compare_spec x y) as [H3|H3|H3];
    try reflexivity; exfalso; lia.
Qed.

(** Four digits compare as the number they write. *)
Lemma pad4_compare (x y : Z) (r r' : pystr) :
  0 <= x <= 9999 -> 0 <= y <= 9999 ->
  str_compare (pad2 (x / 100) ++ pad2 (x mod 100) ++ r)
              (pad2 (y / 100) ++ pad2 (y mod 100) ++ r')
  = match x ?= y with
    | Eq => str_compare r r'
    | c => c
    end.
Proof.
  intros Hx Hy.
  pose proof (Z.mod_pos_bound x 100 eq_refl) as Hmx.
  pose proof (Z.mod_pos_bound y 100 eq_refl) as Hmy.
  pose proof (Z.div_mod x 100 ltac:(lia)) as Ex.
  pose proof (Z.div_mod y 100 ltac:(lia)) as Ey.
  assert (Hdx : 0 <= x / 100 <= 99) by lia.
  assert (Hdy : 0 <= y / 100 <= 99) by lia.
  rewrite !pad2_compare by lia.
  destruct (Z.compare_spec (x / 100) (y / 100)) as [H1|H1|H1];
    destruct (Z.compare_spec (x mod 100) (y mod 100)) as [H2|H2|H2];
    destruct (Z.compare_spec x y) as [H3|H3|H3];
    try reflexivity; exfalso; lia.
Qed.

Lemma str_compare_cons (c : N) (r r' : pystr) :
  str_compare (c :: r) (c :: r') = str_compare r r'.
Proof. cbn [str_compare]. now rewrite N.compare_refl. Qed.

Lemma civil_ok_bounds (c : civil) :
  civil_ok c = true ->
  -4712 <= year c <= 9999 /\ 1 <= month c <= 12 /\ 1 <= day c <= 31
  /\ 0 <= hour c <= 23 /\ 0 <= minute c <= 59 /\ 0 <= second c <= 59.
Proof.
  unfold civil_ok, between. rewrite !andb_true_iff, !Z.leb_le.
  intros [[[[[Hy Hm] Hd] Hh] Hmi] Hs].
  assert (days_in_month (year c) (month c) <= 31).
  { unfold days_in_month.
    destruct (month c =? 2); [destruct (is_leap (year c)); lia|].
    destruct ((month c =? 4) || (month c =? 6) || (month c =? 9)
              || (month c =? 11)); lia. }
  lia.
Qed.

(** From year 0 on, the texts of two dates compare as the dates do in
    time. *)
Lemma format_civil_order (a b : civil) :
  civil_ok a = true -> civil_ok b = true -> 0 <= year a -> 0 <= year b ->
  str_compare (format_civil a) (format_civil b) = civil_compare a b.
Proof.
  intros Ha Hb Hya Hyb.
  apply civil_ok_bounds in Ha, Hb. unfold format_civil, civil_compare.
  rewrite (proj2 (Z.ltb_ge (year a) 0) Hya), (proj2 (Z.ltb_ge (year b) 0) Hyb).
  rewrite !Z.abs_eq by lia. cbn [app].
  rewrite pad4_compare by lia.
  destruct (year a ?= year b); try reflexivity.
  rewrite str_compare_cons, pad2_compare by lia.
  destruct (month a ?= month b); try reflexivity.
  rewrite str_compare_cons, pad2_compare by lia.
  destruct (day a ?= day b); try reflexivity.
  rewrite str_compare_cons, pad2_compare by lia.
  destruct (hour a ?= hour b); try reflexivity.
  rewrite str_compare_cons, pad2_compare by lia.
  destruct (minute a ?= minute b); try reflexivity.
  rewrite str_compare_cons.
  rewrite <- (app_nil_r (pad2 (second a))), <- (app_nil_r (pad2 (second b))).
  rewrite pad2_compare by lia.
  now destruct (second a ?= second b).
Qed.

Lemma parse_civil_ok (s : pystr) (c : civil) :
  parse_civil s = Some c -> civil_ok c = true.
Proof.
  unfold parse_civil.
  match goal with
  | |- match ?p with _ => _ end = _ -> _ => destruct p as [c0|]
  end; [|discriminate].
  destruct (civil_ok c0) eqn:E; [|discriminate]. now intros [= <-].
Qed.

(** For timestamps from year 0 on, the text that [datetime] gives is the
    greater one exactly when the date and time is the later one. *)
Lemma datetime_order_is_time_order (s1 s2 : pystr) (c1 c2 : civil) :
  parse_civil s1 = Some c1 -> parse_civil s2 = Some c2 ->
  0 <= year c1 -> 0 <= year c2 ->
  exists k1 k2,
    sqlite_datetime s1 = Some k1 /\ sqlite_datetime s2 = Some k2
    /\ str_compare k1 k2 = civil_compare c1 c2.
Proof.
  intros H1 H2 Hy1 Hy2. exists (format_civil c1), (format_civil c2).
  unfold sqlite_datetime. rewrite H1, H2. repeat split.
  apply format_civil_order; eauto using parse_civil_ok.
Qed.

End ReferenceOrder.

Section OrderScenarios.
Import Sample.
#[local] Existing Instance Reference.builtins.

(** C5, as stated, fails before year 0: both timestamps are read, the one
    of year -1 is the later one, and the report of year -2 is listed
    first, in whichever order the two were posted. *)
Lemma C5_older_year_listed_first :
  Reference.parse_civil (lit "-0001-01-01T00:00:00")
    = Some (Reference.mkCivil (-1) 1 1 0 0 0)
  /\ Reference.parse_civil (lit "-0002-01-01T00:00:00")
    = Some (Reference.mkCivil (-2) 1 1 0 0 0)
  /\ Reference.civil_compare (Reference.mkCivil (-1) 1 1 0 0 0)
       (Reference.mkCivil (-2) 1 1 0 0 0) = Gt
  /\ sort_key (stored 1 year_m1) = Some (lit "-0001-01-01 00:00:00")
  /\ sort_key (stored 2 year_m2) = Some (lit "-0002-01-01 00:00:00")
  /\ list_reports None None (after [post year_m1; post year_m2])
     = [stored 2 year_m2; stored 1 year_m1]
  /\ list_reports None None (after [post year_m2; post year_m1])
     = [stored 1 year_m2; stored 2 year_m1].
Proof. repeat split; vm_compute; reflexivity. Qed.

(** Equal timestamps: the row posted last, with the larger id, is first. *)
Example same_timestamp_larger_id_first :
  map id (list_reports None None (after [post jan1; post jan1; post jan1]))
  = [3; 2; 1].
Proof. vm_compute. reflexivity. Qed.

(** A timestamp that [datetime] does not read sorts after every one it
    reads. *)
Example unread_timestamp_last :
  map id
    (list_reports None None
       (after [post (payload "x" "yesterday" "success" 0 1 (JInt 0) "1");
               post jan1; post jan2]))
  = [3; 2; 1].
Proof. vm_compute. reflexivity. Qed.

End OrderScenarios.

(* ================================================================= *)
(** * Further properties of the handlers *)

(** ** The ingestion handler, from the request to the row *)

Lemma bind_columns_ok (c : columns) :
  bind_columns c = Ok tt <->
  existsb is_surrogate (server c) = false /\
  existsb is_surrogate (status c) = false /\
  int64_min <= exit_code c <= int64_max /\
  int64_min <= duration_seconds c <= int64_max /\
  int64_min <= reboot_required c <= int64_max /\
  existsb is_surrogate (timestamp c) = false /\
  existsb is_surrogate (raw c) = false /\
  match ip c with Some a => existsb is_surrogate a = false | None => True end.
Proof.
  unfold bind_columns, bind_text, bind_int, bind_opt_text, bind_text.
  destruct (existsb is_surrogate (server c)); cbn [rbind];
    [split; [discriminate | intros (Hc & _); discriminate]|].
  destruct (existsb is_surrogate (status c)); cbn [rbind];
    [split; [discriminate | intros (_ & Hc & _); discriminate]|].
  destruct (Z.leb_spec int64_min (exit_code c));
    destruct (Z.leb_spec (exit_code c) int64_max); cbn [andb rbind];
    try (split; [discriminate | intros (_ & _ & Hc & _); lia]).
  destruct (Z.leb_spec int64_min (duration_seconds c));
    destruct (Z.leb_spec (duration_seconds c) int64_max); cbn [andb rbind];
    try (split; [discriminate | intros (_ & _ & _ & Hc & _); lia]).
  destruct (Z.leb_spec int64_min (reboot_required c));
    destruct (Z.leb_spec (reboot_required c) int64_max); cbn [andb rbind];
    try (split; [discriminate | intros (_ & _ & _ & _ & Hc & _); lia]).
  destruct (existsb is_surrogate (timestamp c)); cbn [rbind];
    [split; [discriminate | intros (_ & _ & _ & _ & _ & Hc & _); discriminate]|].
  destruct (existsb is_surrogate (raw c)); cbn [rbind];
    [split; [discriminate
            | intros (_ & _ & _ & _ & _ & _ & Hc & _); discriminate]|].
  destruct (ip c) as [a|].
  - destruct (existsb is_surrogate a);
      [split; [discriminate
              | intros (_ & _ & _ & _ & _ & _ & _ & Hc); discriminate]|].
    repeat split; assumption.
  - repeat split; assumption.
Qed.

Section IngestPaths.
Context {B : Builtins}.

(** With the right key, an object that has the seven fields and integers
    for [exit_code] and [duration_seconds] gets as far as the [INSERT],
    whose outcome is the outcome of the request. *)
Lemma ingest_report_reaches_insert (API_KEY : pystr) (req : request)
    (db : table) (d : list (pystr * json)) (n_exit n_duration : Z) :
  API_KEY <> [] -> x_api_key req = Some API_KEY ->
  json_body req = Some (JDict d) ->
  (forall k, In k required -> dict_mem k d = true) ->
  py_int (dict_get (lit "exit_code") d) = Ok n_exit ->
  py_int (dict_get (lit "duration_seconds") d) = Ok n_duration ->
  ingest_report API_KEY req db =
  match sql_insert (normal_form d (client_host req) n_exit n_duration) db with
  | (Ok _, db') => (Ok OkTrue, db')
  | (Raise e, db') => (Raise (Unhandled e), db')
  end.
Proof.
  intros Hne Hkey Hbody Hreq He Hd.
  rewrite ingest_report_unfold.
  rewrite (proj2 (require_api_key_ok (x_api_key req) Hne) Hkey), Hbody.
  rewrite not_in_dict.
  replace (filter (fun k => negb (dict_mem k d)) required) with (@nil pystr).
  2:{ symmetry. apply filter_nil_forall. intros k Hk.
      now rewrite (Hreq k Hk). }
  assert (Hlook : forall k, In k required ->
            dict_lookup k d = Some (dict_get k d)).
  { intros k Hk. specialize (Hreq k Hk).
    apply dict_mem_lookup in Hreq as [v Hv].
    now rewrite (dict_lookup_get _ _ Hv). }
  replace (normalize (JDict d) (client_host req))
    with (@Ok exn columns (normal_form d (client_host req) n_exit n_duration));
    [reflexivity|].
  symmetry. apply normalize_dict.
  exists (dict_get (lit "server") d), (dict_get (lit "status") d),
    (dict_get (lit "exit_code") d), (dict_get (lit "duration_seconds") d),
    (dict_get (lit "timestamp") d), n_exit, n_duration.
  repeat split; try assumption; apply Hlook; unfold required; cbn [In]; tauto.
Qed.

(** A request with the right key, an object with the seven fields,
    integers for [exit_code] and [duration_seconds], values that SQLite
    can bind and an id left to give is accepted: the table gains the row
    of the normalised columns under the next id, and nothing else
    changes. *)
Theorem ingest_report_accepts (API_KEY : pystr) (req : request) (db : table)
    (d : list (pystr * json)) (n_exit n_duration : Z) :
  API_KEY <> [] -> x_api_key req = Some API_KEY ->
  json_body req = Some (JDict d) ->
  (forall k, In k required -> dict_mem k d = true) ->
  py_int (dict_get (lit "exit_code") d) = Ok n_exit ->
  py_int (dict_get (lit "duration_seconds") d) = Ok n_duration ->
  bind_columns (normal_form d (client_host req) n_exit n_duration) = Ok tt ->
  next_id db <= int64_max ->
  ingest_report API_KEY req db =
  (Ok OkTrue,
   mkTable (rows db ++ [mkReport (next_id db)
                          (normal_form d (client_host req) n_exit n_duration)])
           (next_id db)).
Proof.
  intros Hne Hkey Hbody Hreq He Hd Hbind Hroom.
  rewrite (@ingest_report_reaches_insert API_KEY req db d n_exit n_duration
             Hne Hkey Hbody Hreq He Hd).
  unfold sql_insert. rewrite Hbind. unfold next_id in *.
  destruct (Z.leb_spec int64_max (Z.max (seq db) (max_rowid (rows db))));
    [lia | reflexivity].
Qed.

(** The same request with a value that SQLite cannot bind (an integer
    outside 64 bits, a lone surrogate in a text) or with no id left ends
    in an exception that nothing catches, status 500, and the table is as
    it was. *)
Theorem ingest_report_storage_failure (API_KEY : pystr) (req : request)
    (db : table) (d : list (pystr * json)) (n_exit n_duration : Z) :
  API_KEY <> [] -> x_api_key req = Some API_KEY ->
  json_body req = Some (JDict d) ->
  (forall k, In k required -> dict_mem k d = true) ->
  py_int (dict_get (lit "exit_code") d) = Ok n_exit ->
  py_int (dict_get (lit "duration_seconds") d) = Ok n_duration ->
  (n_exit < int64_min \/ int64_max < n_exit \/
   n_duration < int64_min \/ int64_max < n_duration \/
   existsb is_surrogate (json_dumps (JDict d)) = true \/
   int64_max < next_id db) ->
  exists e,
    ingest_report API_KEY req db = (Raise (Unhandled e), db)
    /\ status_of 201 (fst (ingest_report API_KEY req db)) = 500.
Proof.
  intros Hne Hkey Hbody Hreq He Hd Hbad.
  rewrite (@ingest_report_reaches_insert API_KEY req db d n_exit n_duration
             Hne Hkey Hbody Hreq He Hd).
  unfold sql_insert.
  destruct (bind_columns (normal_form d (client_host req) n_exit n_duration))
    as [[]|e] eqn:Hbind.
  - apply bind_columns_ok in Hbind
      as (_ & _ & Hx & Hy & _ & _ & Hraw & _).
    cbn [normal_form exit_code duration_seconds raw] in Hx, Hy, Hraw.
    unfold next_id in Hbad.
    destruct (Z.leb_spec int64_max (Z.max (seq db) (max_rowid (rows db)))).
    + exists OperationalError. now split.
    + exfalso. destruct Hbad as [Hb|[Hb|[Hb|[Hb|[Hb|Hb]]]]]; try lia. congruence.
  - exists e. now split.
Qed.

(** The handler answers with one of five statuses; 201 is the answer
    exactly when a row has been added, and with any other status the
    table is as it was. *)
Theorem ingest_report_statuses (API_KEY : pystr) (req : request) (db : table) :
  In (status_of 201 (fst (ingest_report API_KEY req db))) ingest_statuses
  /\ (status_of 201 (fst (ingest_report API_KEY req db)) = 201 <->
      length (rows (snd (ingest_report API_KEY req db)))
      = S (length (rows db)))
  /\ (status_of 201 (fst (ingest_report API_KEY req db)) <> 201 ->
      snd (ingest_report API_KEY req db) = db).
Proof.
  assert (Hkey : forall h,
    (exists d, _require_api_key API_KEY h = Raise (HTTPException 503 d))
    \/ (exists d, _require_api_key API_KEY h = Raise (HTTPException 401 d))
    \/ _require_api_key API_KEY h = Ok tt).
  { intros h. destruct API_KEY as [|a k].
    - left. eexists. apply require_api_key_unset.
    - right. assert (Hne : a :: k <> []) by discriminate.
      assert (Hdec : h = Some (a :: k) \/ h <> Some (a :: k)).
      { destruct h as [s|]; [|right; discriminate].
        destruct (pystr_eq_dec s (a :: k)) as [->|Hs]; [now left|].
        right. congruence. }
      destruct Hdec as [Hh|Hh].
      + right. now apply require_api_key_ok.
      + left. eexists. now apply require_api_key_bad. }
  rewrite ingest_report_unfold.
  destruct (Hkey (x_api_key req)) as [[d ->]|[[d ->]| ->]];
    cbn [fst snd status_of ingest_statuses In].
  - split; [tauto|]. split; [split; [discriminate | lia] | reflexivity].
  - split; [tauto|]. split; [split; [discriminate | lia] | reflexivity].
  - destruct (json_body req) as [data|]; cbn [fst snd status_of].
    2:{ split; [tauto|]. split; [split; [discriminate | lia] | reflexivity]. }
    destruct (not_in data required) as [[|k ks]|e]; cbn [fst snd status_of].
    2,3: (split; [tauto|]; split; [split; [discriminate | lia] | reflexivity]).
    destruct (normalize data (client_host req)) as [c|e];
      cbn [fst snd status_of].
    2:{ split; [tauto|]. split; [split; [discriminate | lia] | reflexivity]. }
    destruct (sql_insert_cases c db) as [[e He]|He]; rewrite He;
      cbn [fst snd status_of rows].
    + split; [tauto|]. split; [split; [discriminate | lia] | reflexivity].
    + split; [tauto|]. split; [|congruence].
      split; [intros _|reflexivity]. rewrite length_app. cbn [length]. lia.
Qed.

Lemma not_in_container (data : json) (ks : list pystr) :
  is_scalar data = false -> exists m, not_in data ks = Ok m.
Proof.
  intros Hc. induction ks as [|k ks [m IH]]; cbn [not_in]; [now eexists|].
  rewrite IH. destruct data; try discriminate; cbn [py_contains rbind];
    eexists; reflexivity.
Qed.

(** A body that decodes to something other than an object is turned down
    once the key is right: a number, a bool or [null] makes the check of
    the required fields raise [TypeError], which nothing catches (status
    500); a list or a string ends with status 400.  The table is as it
    was. *)
Theorem ingest_report_not_object (API_KEY : pystr) (req : request)
    (db : table) (data : json) :
  API_KEY <> [] -> x_api_key req = Some API_KEY ->
  json_body req = Some data ->
  (forall d, data <> JDict d) ->
  (is_scalar data = true ->
     ingest_report API_KEY req db = (Raise (Unhandled TypeError), db))
  /\ (is_scalar data = false ->
        exists d, ingest_report API_KEY req db
                  = (Raise (HTTPException 400 d), db)).
Proof.
  intros Hne Hkey Hbody Hnd. rewrite ingest_report_unfold.
  rewrite (proj2 (require_api_key_ok (x_api_key req) Hne) Hkey), Hbody.
  split; intros Hs.
  - destruct data; try discriminate; reflexivity.
  - destruct (not_in_container data required Hs) as [[|k ks] ->];
      [|eexists; reflexivity].
    destruct data as [| | | |s|l|d]; try discriminate.
    + eexists. reflexivity.
    + eexists. reflexivity.
    + exfalso. now apply (Hnd d).
Qed.

End IngestPaths.

(* ================================================================= *)
(** ** The listing as a view of the table *)

Lemma firstn_incl {A} (n : nat) (l : list A) (x : A) :
  In x (firstn n l) -> In x l.
Proof.
  revert n. induction l as [|a l IH]; intros [|n]; cbn; try tauto.
  intros [H|H]; [now left | right; eauto].
Qed.

Lemma firstn_sorted {A} (R : A -> A -> Prop) (n : nat) (l : list A) :
  StronglySorted R l -> StronglySorted R (firstn n l).
Proof.
  intros Hs. revert n. induction Hs as [|a l Hs IH Ha]; intros [|n]; cbn;
    try constructor.
  - apply IH.
  - rewrite Forall_forall in *. intros x Hx. apply Ha. eapply firstn_incl, Hx.
Qed.

Lemma firstn_nodup {A} (n : nat) (l : list A) : NoDup l -> NoDup (firstn n l).
Proof.
  intros Hn. revert n. induction Hn as [|a l Ha Hn IH]; intros [|n]; cbn;
    try constructor.
  - intros Hin. apply Ha. eapply firstn_incl, Hin.
  - apply IH.
Qed.

Lemma firstn_split_le {A} (a b : nat) (l : list A) :
  (a <= b)%nat -> firstn b l = firstn a l ++ firstn (b - a) (skipn a l).
Proof.
  revert b l. induction a as [|a IH]; intros b l Hab.
  - cbn. now rewrite Nat.sub_0_r.
  - destruct b as [|b]; [lia|]. destruct l as [|x l]; cbn.
    + now rewrite firstn_nil.
    + f_equal. apply IH. lia.
Qed.

Lemma matching_rows_filter (server : option pystr) (db : table) :
  exists p, matching_rows server db = filter p (rows db).
Proof.
  unfold matching_rows. destruct server as [[|c s]|].
  - exists (fun _ => true). symmetry. apply forallb_filter_id.
    now apply forallb_forall.
  - eexists. reflexivity.
  - exists (fun _ => true). symmetry. apply forallb_filter_id.
    now apply forallb_forall.
Qed.

Section ListingView.
Context {B : Builtins}.

Lemma list_reports_member (server : option pystr) (limit : option Z)
    (db : table) (r : report) :
  In r (list_reports server limit db) -> In r (rows db) /\ matches server r.
Proof.
  rewrite list_reports_unfold. intros H. apply firstn_incl in H.
  apply (Permutation_in _ (order_by_perm _)) in H.
  now apply matching_rows_In in H.
Qed.

(** The listing only shows what is stored: each of its rows is a row of
    the table that passes the filter; it is in the order of the query;
    and it shows no row twice when no row is twice in the table. *)
Theorem list_reports_sound (server : option pystr) (limit : option Z)
    (db : table) :
  (forall r, In r (list_reports server limit db) ->
     In r (rows db) /\ matches server r)
  /\ StronglySorted (fun a b => desc_le a b = true)
       (list_reports server limit db)
  /\ (NoDup (rows db) -> NoDup (list_reports server limit db)).
Proof.
  split; [intros r; apply list_reports_member|].
  rewrite list_reports_unfold. split.
  - apply firstn_sorted, order_by_sorted.
  - intros Hn. apply firstn_nodup.
    apply (Permutation_NoDup (Permutation_sym (order_by_perm _))).
    destruct (matching_rows_filter server db) as [p ->].
    now apply NoDup_filter.
Qed.

(** When the limit in force is not below the number of rows that pass the
    filter, every one of them is listed. *)
Theorem list_reports_complete (server : option pystr) (limit : option Z)
    (db : table) (r : report) :
  In r (rows db) -> matches server r ->
  (length (matching_rows server db) <= Z.to_nat (effective_limit limit))%nat ->
  In r (list_reports server limit db).
Proof.
  intros Hin Hm Hlen. rewrite list_reports_unfold.
  rewrite firstn_all2 by now rewrite order_by_length.
  apply (Permutation_in _ (Permutation_sym (order_by_perm _))).
  now apply matching_rows_In.
Qed.

(** A larger limit extends the listing and changes nothing of what a
    smaller limit shows. *)
Theorem list_reports_limit_prefix (server : option pystr) (n m : Z)
    (db : table) :
  n <= m ->
  exists more,
    list_reports server (Some m) db = list_reports server (Some n) db ++ more.
Proof.
  intros Hnm. rewrite !list_reports_unfold.
  eexists. apply firstn_split_le. unfold effective_limit. lia.
Qed.

(** Inserting before a sorted list whose rows all sort after the new one
    puts it in front. *)
Lemma insert_sorted_front (a : report) (l : list report) :
  Forall (fun x => desc_le a x = true) l -> insert_sorted a l = a :: l.
Proof.
  destruct l as [|x l]; [reflexivity|]. intros H. inversion H; subst.
  cbn [insert_sorted]. now rewrite H2.
Qed.

Lemma insert_sorted_filter (p : report -> bool) (a : report) (l : list report) :
  StronglySorted (fun x y => desc_le x y = true) l ->
  filter p (insert_sorted a l)
  = if p a then insert_sorted a (filter p l) else filter p l.
Proof.
  induction 1 as [|x l Hs IH Hx]; cbn [insert_sorted filter].
  - now destruct (p a).
  - destruct (desc_le a x) eqn:E; cbn [filter].
    + destruct (p a) eqn:Ea; [|reflexivity].
      destruct (p x) eqn:Ex.
      * cbn [insert_sorted]. now rewrite E.
      * symmetry. apply insert_sorted_front.
        apply Forall_forall. intros y Hy. apply filter_In in Hy as [Hy _].
        rewrite Forall_forall in Hx. apply desc_le_trans with x; auto.
    + rewrite IH. destruct (p x) eqn:Ex, (p a) eqn:Ea; try reflexivity.
      cbn [insert_sorted]. now rewrite E.
Qed.

(** Sorting the rows of one machine gives the sorted table with the other
    machines left out. *)
Lemma order_by_filter (p : report -> bool) (l : list report) :
  order_by (filter p l) = filter p (order_by l).
Proof.
  induction l as [|a l IH]; [reflexivity|].
  change (order_by (a :: l)) with (insert_sorted a (order_by l)).
  rewrite insert_sorted_filter by apply order_by_sorted.
  cbn [filter]. destruct (p a); [|exact IH].
  change (order_by (a :: filter p l))
    with (insert_sorted a (order_by (filter p l))).
  now rewrite IH.
Qed.

(** The listing of one machine is the listing of all machines with the
    rows of the others left out, cut to the limit afterwards: the two
    queries agree on the order of the rows they share. *)
Theorem list_reports_filter_of_global (c : N) (s : pystr) (limit : option Z)
    (db : table) :
  list_reports (Some (c :: s)) limit db
  = firstn (Z.to_nat (effective_limit limit))
      (filter (fun r => pystr_eqb (server (cols r)) (c :: s))
         (order_by (rows db))).
Proof.
  rewrite list_reports_unfold. cbn [matching_rows].
  now rewrite order_by_filter.
Qed.

End ListingView.

(* ================================================================= *)
(** ** The page and its selector *)

Lemma insert_asc_sorted (s : pystr) (l : list pystr) :
  StronglySorted (fun a b => str_compare a b = Lt) l -> ~ In s l ->
  StronglySorted (fun a b => str_compare a b = Lt) (insert_asc s l).
Proof.
  induction 1 as [|x l Hs IH Hx]; intros Hnot; cbn [insert_asc].
  - repeat constructor.
  - destruct (str_compare s x) eqn:E.
    + apply str_compare_eq in E. subst. exfalso. apply Hnot. now left.
    + constructor; [now constructor|]. constructor; [exact E|].
      eapply Forall_impl; [|exact Hx]. intros y Hy.
      now apply str_compare_lt_trans with x.
    + constructor.
      * apply IH. intros Hin. apply Hnot. now right.
      * apply Forall_forall. intros y Hy. apply insert_asc_In in Hy as [->|Hy].
        -- rewrite (str_compare_antisym s x), E. reflexivity.
        -- rewrite Forall_forall in Hx. now apply Hx.
Qed.

Lemma sorted_strict_nodup (l : list pystr) :
  StronglySorted (fun a b => str_compare a b = Lt) l -> NoDup l.
Proof.
  induction 1 as [|x l Hs IH Hx]; constructor; [|exact IH].
  intros Hin. rewrite Forall_forall in Hx. specialize (Hx x Hin).
  rewrite str_compare_refl in Hx. discriminate.
Qed.

Section Page.
Context {B : Builtins}.

(** The selector of the page lists each machine that has a stored report
    once, and no other, in ascending order of the identifiers. *)
Theorem distinct_servers_sorted (db : table) :
  StronglySorted (fun a b => str_compare a b = Lt) (distinct_servers db)
  /\ NoDup (distinct_servers db)
  /\ (forall s, In s (distinct_servers db) <->
                exists r, In r (rows db) /\ server (cols r) = s).
Proof.
  assert (Hs : StronglySorted (fun a b => str_compare a b = Lt)
                 (distinct_servers db)).
  { unfold distinct_servers.
    pose proof (NoDup_nodup pystr_eq_dec
                  (map (fun r => server (cols r)) (rows db))) as Hn.
    induction Hn as [|x l Hx Hn IH]; cbn [fold_right]; [constructor|].
    apply insert_asc_sorted; [exact IH|].
    intros Hin. apply Hx. clear - Hin.
    induction l as [|y l IHl]; [exact Hin|]. cbn [fold_right] in Hin.
    apply insert_asc_In in Hin as [->|Hin]; [now left | right; auto]. }
  split; [exact Hs|]. split; [now apply sorted_strict_nodup|].
  intros s. unfold distinct_servers.
  assert (H : forall l, In s (fold_right insert_asc [] l) <-> In s l).
  { induction l as [|x l IH]; cbn [fold_right]; [reflexivity|].
    rewrite insert_asc_In, IH. cbn [In]. intuition congruence. }
  rewrite H, nodup_In, in_map_iff.
  split; intros (r & H1 & H2); exists r; now split.
Qed.

(** The records of the page are the listing of the JSON endpoint for the
    machine that the page shows as selected, with the default limit: at
    most 100 rows.  The selection is the filter of the request or none,
    and a machine that is selected is a machine of the selector, whose
    reports are the only ones shown. *)
Theorem index_items_are_listing (server : option pystr) (db : table) :
  items (index server db)
    = list_reports (selected_server (index server db)) None db
  /\ servers (index server db) = distinct_servers db
  /\ (length (items (index server db)) <= 100)%nat
  /\ (selected_server (index server db) = server
      \/ selected_server (index server db) = None)
  /\ (forall c s, selected_server (index server db) = Some (c :: s) ->
        In (c :: s) (distinct_servers db)
        /\ forall r, In r (items (index server db)) ->
                     server_of r = c :: s).
Proof.
  assert (Hitems : items (index server db)
                   = list_reports (selected_server (index server db)) None db).
  { unfold index, list_reports. cbn [items selected_server].
    change (Z.max 1 (Z.min 100 1000)) with 100. reflexivity. }
  split; [exact Hitems|]. split; [reflexivity|]. split; [|split].
  - rewrite Hitems, list_reports_unfold, length_firstn.
    change (Z.to_nat (effective_limit None)) with 100%nat. lia.
  - unfold index. cbn [selected_server].
    destruct (truthy server && negb (known server (distinct_servers db)));
      auto.
  - intros c s Hsel. split.
    + unfold index in Hsel. cbn [selected_server] in Hsel.
      destruct server as [k|]; cbn [truthy known] in Hsel.
      * destruct k as [|c' k]; cbn [andb] in Hsel; [discriminate|].
        destruct (existsb (pystr_eqb (c' :: k)) (distinct_servers db)) eqn:E;
          cbn [negb] in Hsel; [|discriminate].
        injection Hsel as <- <-.
        apply (known_In (c' :: k) (distinct_servers db)). exact E.
      * discriminate.
    + intros r Hr. rewrite Hitems, Hsel in Hr.
      apply list_reports_member in Hr as [_ Hm].
      specialize (Hm eq_refl). unfold server_of. congruence.
Qed.

End Page.

(* ================================================================= *)
(** ** Row ids over the life of the table *)

Lemma count_from_snoc (k : Z) (n : nat) :
  count_from k (S n) = count_from k n ++ [k + Z.of_nat n].
Proof.
  revert k. induction n as [|n IH]; intros k.
  - cbn. f_equal. lia.
  - change (count_from k (S (S n))) with (k :: count_from (k + 1) (S n)).
    rewrite IH. cbn [count_from app]. do 2 f_equal. f_equal. lia.
Qed.

Lemma count_from_bounds (k : Z) (n : nat) (x : Z) :
  In x (count_from k n) -> k <= x < k + Z.of_nat n.
Proof.
  revert k. induction n as [|n IH]; intros k; cbn [count_from In]; [tauto|].
  intros [<-|H]; [lia|]. apply IH in H. lia.
Qed.

Lemma count_from_nodup (k : Z) (n : nat) : NoDup (count_from k n).
Proof.
  revert k. induction n as [|n IH]; intros k; cbn [count_from]; constructor.
  - intros H. apply count_from_bounds in H. lia.
  - apply IH.
Qed.

Lemma max_rowid_le (rs : list report) (m : Z) :
  0 <= m -> (forall x, In x (map id rs) -> x <= m) -> max_rowid rs <= m.
Proof.
  intros Hm. induction rs as [|r rs IH]; cbn [max_rowid fold_right map In];
    [lia|].
  fold (max_rowid rs). intros H.
  assert (id r <= m) by (apply H; now left).
  assert (max_rowid rs <= m) by (apply IH; intros x Hx; apply H; now right).
  lia.
Qed.

Section RowIds.
Context {B : Builtins}.

(** From a fresh file on, whatever requests come in, the rows carry the
    ids 1, 2, 3, ... in the order of their insertion: no id is given
    twice, none is skipped by a rejected request, and the counter stands
    at the number of rows. *)
Theorem reachable_ids (t : table) :
  reachable t ->
  map id (rows t) = count_from 1 (length (rows t))
  /\ seq t = Z.of_nat (length (rows t))
  /\ NoDup (map id (rows t))
  /\ NoDup (rows t).
Proof.
  intros Hr.
  assert (Hinv : map id (rows t) = count_from 1 (length (rows t))
                 /\ seq t = Z.of_nat (length (rows t))).
  { induction Hr as [|API_KEY req t Hr [IH1 IH2]]; [now split|].
    destruct (ingest_report API_KEY req t) as [[[]|f] t'] eqn:E; cbn [snd].
    - apply ingest_report_accepted in E as (data & c & _ & _ & _ & _ & ->).
      cbn [rows seq].
      assert (Hmax : Z.max (seq t) (max_rowid (rows t))
                     = Z.of_nat (length (rows t))).
      { assert (max_rowid (rows t) <= Z.of_nat (length (rows t))); [|lia].
        apply max_rowid_le; [lia|]. intros x Hx. rewrite IH1 in Hx.
        apply count_from_bounds in Hx. lia. }
      rewrite Hmax, map_app, length_app, IH1. cbn [map id length].
      rewrite Nat.add_1_r, count_from_snoc. split; [|lia].
      do 2 f_equal. lia.
    - apply ingest_report_rejected in E. subst. now split. }
  destruct Hinv as [H1 H2]. split; [exact H1|]. split; [exact H2|].
  assert (Hn : NoDup (map id (rows t))).
  { rewrite H1. apply count_from_nodup. }
  split; [exact Hn|]. now apply NoDup_map_inv in Hn.
Qed.

(** Over the life of the table no stored row is changed or removed: what
    a request leaves begins with the rows it found. *)
Theorem ingest_report_keeps_rows (API_KEY : pystr) (req : request) (db : table) :
  exists added,
    rows (snd (ingest_report API_KEY req db)) = rows db ++ added
    /\ (length added <= 1)%nat.
Proof.
  destruct (ingest_report API_KEY req db) as [[[]|f] t'] eqn:E; cbn [snd].
  - apply ingest_report_accepted in E as (data & c & _ & _ & _ & _ & ->).
    eexists. cbn [rows]. split; [reflexivity | cbn; lia].
  - apply ingest_report_rejected in E. subst. exists []. rewrite app_nil_r.
    split; [reflexivity | cbn; lia].
Qed.

End RowIds.

(* ================================================================= *)
(** ** What is posted and what is stored *)

Lemma slice_to_short (n : nat) (s : pystr) :
  (length s <= n)%nat -> slice_to n s = s.
Proof. intros H. unfold slice_to. now apply firstn_all2. Qed.

Section Verbatim.
Context {B : Builtins}.

(** A payload of the expected types is stored as it is: a [server] string
    of at most 255 characters, a [status] and a [timestamp] string of at
    most 64, and integer [exit_code] and [duration_seconds] are the
    columns of the new row, unchanged. *)
Theorem typed_payload_stored_verbatim (API_KEY : pystr) (req : request)
    (db db' : table) (d : list (pystr * json)) :
  json_body req = Some (JDict d) ->
  ingest_report API_KEY req db = (Ok OkTrue, db') ->
  exists r,
    rows db' = rows db ++ [r] /\
    (forall s, dict_get (lit "server") d = JStr s -> (length s <= 255)%nat ->
               server (cols r) = s) /\
    (forall s, dict_get (lit "status") d = JStr s -> (length s <= 64)%nat ->
               status (cols r) = s) /\
    (forall s, dict_get (lit "timestamp") d = JStr s -> (length s <= 64)%nat ->
               timestamp (cols r) = s) /\
    (forall n, dict_get (lit "exit_code") d = JInt n -> exit_code (cols r) = n) /\
    (forall n, dict_get (lit "duration_seconds") d = JInt n ->
               duration_seconds (cols r) = n) /\
    (forall b, dict_get (lit "reboot_required") d = JBool b ->
               reboot_required (cols r) = Z.b2z b).
Proof.
  intros Hbody Hacc.
  destruct (ingest_report_stored _ _ _ Hacc)
    as (d0 & r & Hbody' & _ & _ & _ & _ & -> & Hs & Hst & He & Hd & Hr & Ht & _).
  assert (d0 = d) by congruence. subst d0.
  exists r. cbn [rows]. split; [reflexivity|].
  split; [|split; [|split; [|split; [|split]]]].
  - intros s E Hl. rewrite Hs, E. cbn [py_str]. now apply slice_to_short.
  - intros s E Hl. rewrite Hst, E. cbn [py_str]. now apply slice_to_short.
  - intros s E Hl. rewrite Ht, E. cbn [py_str]. now apply slice_to_short.
  - intros n E. rewrite E in He. cbn [py_int] in He. congruence.
  - intros n E. rewrite E in Hd. cbn [py_int] in Hd. congruence.
  - intros b E. rewrite Hr, E. now destruct b.
Qed.

(** The [raw] column tells the payloads apart: two accepted requests
    whose rows have the same [raw] text carried the same object. *)
Theorem raw_determines_payload (K1 K2 : pystr) (req1 req2 : request)
    (db1 db1' db2 db2' : table) (d1 d2 : list (pystr * json))
    (r1 r2 : report) :
  json_body req1 = Some (JDict d1) -> json_body req2 = Some (JDict d2) ->
  ingest_report K1 req1 db1 = (Ok OkTrue, db1') ->
  ingest_report K2 req2 db2 = (Ok OkTrue, db2') ->
  rows db1' = rows db1 ++ [r1] -> rows db2' = rows db2 ++ [r2] ->
  unique_keys (JDict d1) = true -> floats_ok (JDict d1) = true ->
  unique_keys (JDict d2) = true -> floats_ok (JDict d2) = true ->
  raw (cols r1) = raw (cols r2) -> d1 = d2.
Proof.
  intros Hb1 Hb2 Ha1 Ha2 Hr1 Hr2 Hk1 Hf1 Hk2 Hf2 Hraw.
  destruct (ingest_report_stored _ _ _ Ha1)
    as (e1 & x1 & Hb1' & _ & _ & _ & _ & -> & _ & _ & _ & _ & _ & _ & Hx1 & _).
  destruct (ingest_report_stored _ _ _ Ha2)
    as (e2 & x2 & Hb2' & _ & _ & _ & _ & -> & _ & _ & _ & _ & _ & _ & Hx2 & _).
  assert (e1 = d1) by congruence. assert (e2 = d2) by congruence. subst.
  cbn [rows] in Hr1, Hr2.
  apply app_inv_head in Hr1. apply app_inv_head in Hr2.
  injection Hr1 as <-. injection Hr2 as <-.
  rewrite Hx1, Hx2 in Hraw.
  pose proof (json_loads_dumps _ Hk1 Hf1) as L1.
  pose proof (json_loads_dumps _ Hk2 Hf2) as L2.
  rewrite Hraw in L1. congruence.
Qed.

(** The listing of a machine after a report of that machine has been
    accepted: the new row is listed whenever fewer rows of the machine
    than the limit in force sort before it, so always when the machine
    has fewer stored reports than the limit. *)
Theorem ingest_then_list_machine (API_KEY : pystr) (req : request)
    (db db' : table) (r : report) (limit : option Z) :
  ingest_report API_KEY req db = (Ok OkTrue, db') ->
  rows db' = rows db ++ [r] ->
  server_of r <> [] ->
  (length (filter (fun x => negb (desc_le r x))
             (matching_rows (Some (server_of r)) db))
   < Z.to_nat (effective_limit limit))%nat ->
  In r (list_reports (Some (server_of r)) limit db').
Proof.
  intros Hacc Hrows Hne Hahead.
  destruct (ingest_report_stored _ _ _ Hacc)
    as (d & r0 & _ & _ & _ & _ & Hid & -> & _).
  cbn [rows] in Hrows. apply app_inv_head in Hrows. injection Hrows as ->.
  unfold server_of in *.
  destruct (server (cols r)) as [|c s] eqn:Es; [congruence|].
  pose proof (@new_row_listed _ limit
                (mkTable (matching_rows (Some (c :: s)) db) (seq db)) r) as H.
  cbn [rows] in H. unfold rows_ahead in H. cbn [rows] in H.
  rewrite !list_reports_unfold in *. cbn [matching_rows rows] in *.
  rewrite filter_app. cbn [filter]. rewrite Es, pystr_eqb_refl.
  apply H; [|exact Hahead].
  intros x Hx. apply filter_In in Hx as [Hx _].
  apply max_rowid_ge in Hx. lia.
Qed.

End Verbatim.

(* ================================================================= *)
(** ** Validation errors and the order of the listing *)

Section MoreIngest.
Context {B : Builtins}.

(** With the right key and the seven fields in place, the only
    validation error is an [int] that fails: the detail carries the
    exception of [exit_code] if [int] refuses it, else the one of
    [duration_seconds], and there is no validation error when [int] takes
    both. *)
Theorem validation_error_is_int_error (API_KEY : pystr) (req : request)
    (db : table) (d : list (pystr * json)) (e : exn) :
  API_KEY <> [] -> x_api_key req = Some API_KEY ->
  json_body req = Some (JDict d) ->
  (forall k, In k required -> dict_mem k d = true) ->
  (fst (ingest_report API_KEY req db)
     = Raise (HTTPException 400 (ValidationError e))
   <-> py_int (dict_get (lit "exit_code") d) = Raise e
       \/ exists n, py_int (dict_get (lit "exit_code") d) = Ok n
                    /\ py_int (dict_get (lit "duration_seconds") d) = Raise e).
Proof.
  intros Hne Hkey Hbody Hreq.
  assert (Hlook : forall k, In k required ->
            dict_lookup k d = Some (dict_get k d)).
  { intros k Hk. specialize (Hreq k Hk).
    apply dict_mem_lookup in Hreq as [v Hv].
    now rewrite (dict_lookup_get _ _ Hv). }
  assert (Hin : forall k, In k required -> In k required) by auto.
  rewrite ingest_report_unfold.
  rewrite (proj2 (require_api_key_ok (x_api_key req) Hne) Hkey), Hbody.
  rewrite not_in_dict.
  replace (filter (fun k => negb (dict_mem k d)) required) with (@nil pystr).
  2:{ symmetry. apply filter_nil_forall. intros k Hk.
      now rewrite (Hreq k Hk). }
  unfold normalize, py_getitem, py_get.
  rewrite !Hlook by (unfold required; cbn [In]; tauto).
  cbn [rbind].
  destruct (py_int (dict_get (lit "exit_code") d)) as [n|e1]; cbn [rbind fst].
  - destruct (py_int (dict_get (lit "duration_seconds") d)) as [m|e2];
      cbn [rbind fst].
    + match goal with
      | |- context [sql_insert ?c db] =>
          destruct (sql_insert_cases c db) as [[e3 He]|He]; rewrite He
      end; cbn [fst]; split; try discriminate;
        intros [H|[n0 [_ H]]]; discriminate.
    + split.
      * intros [= ->]. right. now exists n.
      * intros [H|[n0 [_ H]]]; [discriminate | congruence].
  - split.
    + intros [= ->]. now left.
    + intros [H|[n0 [H _]]]; [congruence | discriminate].
Qed.


End MoreIngest.

(* ================================================================= *)
(** ** The further properties on sample requests *)

Section FurtherScenarios.
Import Sample.
#[local] Existing Instance Reference.builtins.

Lemma ingest_report_accepts_witness :
  ingest_report secret (post host1) (init_db None) =
  (Ok OkTrue,
   mkTable (rows (init_db None)
            ++ [mkReport (next_id (init_db None))
                  (normal_form (fields host1) (client_host (post host1)) 0 120)])
           (next_id (init_db None))).
Proof.
  apply (@ingest_report_accepts Reference.builtins secret (post host1)
           (init_db None) (fields host1) 0 120).
  - discriminate.
  - reflexivity.
  - reflexivity.
  - intros k Hk. cbn [required In] in Hk.
    repeat (destruct Hk as [<-|Hk]; [vm_compute; reflexivity|]).
    destruct Hk.
  - reflexivity.
  - reflexivity.
  - vm_compute. reflexivity.
  - vm_compute. discriminate.
Defined.

Lemma ingest_report_storage_failure_witness :
  exists e,
    ingest_report secret (post huge_exit) (after [post host1])
      = (Raise (Unhandled e), after [post host1])
    /\ status_of 201 (fst (ingest_report secret (post huge_exit)
                             (after [post host1]))) = 500.
Proof.
  apply (@ingest_report_storage_failure Reference.builtins secret
           (post huge_exit) (after [post host1]) (fields huge_exit)
           9223372036854775808 120).
  - discriminate.
  - reflexivity.
  - reflexivity.
  - intros k Hk. cbn [required In] in Hk.
    repeat (destruct Hk as [<-|Hk]; [vm_compute; reflexivity|]).
    destruct Hk.
  - reflexivity.
  - reflexivity.
  - right. left. vm_compute. reflexivity.
Defined.

Lemma ingest_report_not_object_witness :
  (is_scalar (JInt 5) = true ->
     ingest_report secret (post (JInt 5)) (init_db None)
     = (Raise (Unhandled TypeError), init_db None))
  /\ (is_scalar (JInt 5) = false ->
        exists d, ingest_report secret (post (JInt 5)) (init_db None)
                  = (Raise (HTTPException 400 d), init_db None)).
Proof.
  apply (@ingest_report_not_object Reference.builtins secret (post (JInt 5))
           (init_db None) (JInt 5)).
  - discriminate.
  - reflexivity.
  - reflexivity.
  - intros d H. discriminate H.
Defined.

(** A list that names the seven fields passes the check of the required
    fields and fails at the first subscript: status 400. *)
Example list_body_rejected :
  status_of 201 (fst (ingest_report secret
                        (post (JList (map JStr required))) (init_db None)))
  = 400
  /\ status_of 201 (fst (ingest_report secret (post JNull) (init_db None)))
     = 500.
Proof. split; vm_compute; reflexivity. Qed.

Lemma list_reports_complete_witness :
  In (stored 1 jan1)
    (list_reports (Some (lit "alpha")) (Some 5) (after [post jan1; post jan2])).
Proof.
  apply (@list_reports_complete Reference.builtins (Some (lit "alpha"))
           (Some 5) (after [post jan1; post jan2]) (stored 1 jan1)).
  - vm_compute. left. reflexivity.
  - intros _. vm_compute. reflexivity.
  - vm_compute. lia.
Defined.

Lemma list_reports_limit_prefix_witness :
  exists more,
    list_reports None (Some 2) (after [post jan1; post jan2; post host1])
    = list_reports None (Some 1) (after [post jan1; post jan2; post host1])
      ++ more.
Proof.
  apply (@list_reports_limit_prefix Reference.builtins None 1 2
           (after [post jan1; post jan2; post host1])).
  lia.
Defined.

Lemma reachable_ids_witness :
  map id (rows (after [post jan1; post (JInt 5); post jan2]))
    = count_from 1 (length (rows (after [post jan1; post (JInt 5); post jan2])))
  /\ seq (after [post jan1; post (JInt 5); post jan2])
     = Z.of_nat (length (rows (after [post jan1; post (JInt 5); post jan2])))
  /\ NoDup (map id (rows (after [post jan1; post (JInt 5); post jan2])))
  /\ NoDup (rows (after [post jan1; post (JInt 5); post jan2])).
Proof.
  apply (@reachable_ids Reference.builtins
           (after [post jan1; post (JInt 5); post jan2])).
  exact (reachable_post secret (post jan2)
           (reachable_post secret (post (JInt 5))
              (reachable_post secret (post jan1) reachable_fresh))).
Defined.

Lemma typed_payload_stored_verbatim_witness :
  exists r,
    rows (after [post host1]) = rows (init_db None) ++ [r] /\
    (forall s, dict_get (lit "server") (fields host1) = JStr s ->
               (length s <= 255)%nat -> server (cols r) = s) /\
    (forall s, dict_get (lit "status") (fields host1) = JStr s ->
               (length s <= 64)%nat -> status (cols r) = s) /\
    (forall s, dict_get (lit "timestamp") (fields host1) = JStr s ->
               (length s <= 64)%nat -> timestamp (cols r) = s) /\
    (forall n, dict_get (lit "exit_code") (fields host1) = JInt n ->
               exit_code (cols r) = n) /\
    (forall n, dict_get (lit "duration_seconds") (fields host1) = JInt n ->
               duration_seconds (cols r) = n) /\
    (forall b, dict_get (lit "reboot_required") (fields host1) = JBool b ->
               reboot_required (cols r) = Z.b2z b).
Proof.
  apply (@typed_payload_stored_verbatim Reference.builtins secret (post host1)
           (init_db None) (after [post host1]) (fields host1)).
  - reflexivity.
  - vm_compute. reflexivity.
Defined.

Lemma raw_determines_payload_witness :
  raw (cols (stored 1 host1)) = raw (cols (stored 2 host1))
  /\ fields host1 = fields host1.
Proof.
  split; [vm_compute; reflexivity|].
  apply (@raw_determines_payload Reference.builtins secret secret
           (post host1) (post host1)
           (init_db None) (after [post host1])
           (after [post jan1]) (after [post jan1; post host1])
           (fields host1) (fields host1) (stored 1 host1) (stored 2 host1));
    vm_compute; reflexivity.
Defined.

Lemma ingest_then_list_machine_witness :
  In (stored 1 host1)
    (list_reports (Some (server_of (stored 1 host1))) None (after [post host1])).
Proof.
  apply (@ingest_then_list_machine Reference.builtins secret (post host1)
           (init_db None) (after [post host1]) (stored 1 host1) None).
  - vm_compute. reflexivity.
  - vm_compute. reflexivity.
  - vm_compute. discriminate.
  - vm_compute. lia.
Defined.

(** The counter survives rejections: after an accepted, a rejected and an
    accepted request the ids are 1 and 2. *)
Example ids_after_rejection :
  map id (rows (after [post jan1; post (JInt 5); post jan2])) = [1; 2]
  /\ seq (after [post jan1; post (JInt 5); post jan2]) = 2.
Proof. split; vm_compute; reflexivity. Qed.

Lemma validation_error_is_int_error_witness :
  fst (ingest_report secret (post bad_duration) (init_db None))
  = Raise (HTTPException 400 (ValidationError ValueError)).
Proof.
  apply (@validation_error_is_int_error Reference.builtins secret
           (post bad_duration) (init_db None) (fields bad_duration)
           ValueError).
  - discriminate.
  - reflexivity.
  - reflexivity.
  - intros k Hk. cbn [required In] in Hk.
    repeat (destruct Hk as [<-|Hk]; [vm_compute; reflexivity|]).
    destruct Hk.
  - right. exists 0. split; vm_compute; reflexivity.
Defined.


End FurtherScenarios.
